(** * Tutorial notebooks for topological neural networks: a shallow embedding

  The repository is a set of Jupyter notebooks
  ([tutorials/simplicial/scone_train_bis.ipynb], [scn2_train.ipynb] and the
  SCA/CMPS, CAN and HMPNN notebooks).  Each notebook loads a dataset, builds
  Laplacian or incidence matrices of a complex, defines a [torch.nn.Module]
  that stacks message passing layers, and trains it.

  The development follows the notebooks cell by cell:
  - [Numpy]       shaped matrices, as scipy and numpy hand them to torch;
  - [Torch]       tensors, linear layers, the random generator and dropout;
  - [Complexes]   incidence and Laplacian matrices of a complex;
  - [TorchModule] attribute registration, [parameters()], optimizer steps;
  - [Floats]      floats with NaN and infinities, rounded arithmetic,
                  [nanmean], [softmax];
  - [Models]      the five model classes and their forward passes;
  - [Notebook]    the cells of a notebook run as one effectful script;
  - [Preprocessing], [Neighborhoods]  the label cell and the cells that build
                  the neighborhood matrices;
  - [Metrics]     predictions and accuracy of the SCoNe notebook;
  - [Sklearn]     [train_test_split] and the samples of the loops;
  - [CanLoops]    the loops of the CAN notebook on the global namespace;
  - [Registration], [Traces]  what the constructors register, shapes, and
                  the test losses of a trace;
  - [Examples]    small instances;
  and then the properties, module by module. *)

From stdpp Require Import gmap strings.
From Stdlib Require Import String DecimalString.
From Stdlib Require Import List ZArith QArith Qround Reals Lia Lra Bool Arith.
Import ListNotations.

#[local] Unset Default Proof Using.
#[local] Set Warnings "-register-all".
#[local] Open Scope string_scope.
#[local] Open Scope list_scope.
#[local] Open Scope nat_scope.

(* ===================================================================== *)
(** * Errors

  The notebooks define no exception class of their own: the errors of a run
  are those the libraries raise, and the built-in errors of Python. *)

Inductive exn : Type :=
| ValueError (msg : string)      (* numpy, scipy, toponetx, torch.optim *)
| RuntimeError (msg : string)    (* torch: shapes that do not fit *)
| IndexError (msg : string)      (* Python: list index out of range *)
| TypeError (msg : string)       (* Python: wrong kind of object *)
| AttributeError (msg : string)  (* Python: missing attribute *)
| NameError (msg : string)       (* Python: unbound variable *)
| ZeroDivisionError (msg : string).

Inductive outcome (A : Type) : Type :=
| Ok (a : A)
| Raise (e : exn).
Arguments Ok {A} a.
Arguments Raise {A} e.

Definition obind {A B} (m : outcome A) (f : A -> outcome B) : outcome B :=
  match m with
  | Ok a => f a
  | Raise e => Raise e
  end.

Notation "'let*' x ':=' m 'in' k" := (obind m (fun x => k))
  (at level 10, x name, m at level 100, k at level 200).

(* ===================================================================== *)
(** * Matrices with an explicit shape *)

Module Numpy.

(** A two-dimensional array: [shape] is kept next to the entries, so that a
    matrix with no row still knows its number of columns. *)
Record matrix (A : Type) : Type := Matrix {
  nrows : nat;
  ncols : nat;
  entry : nat -> nat -> A
}.
Arguments Matrix {A} nrows ncols entry.
Arguments nrows {A} m.
Arguments ncols {A} m.
Arguments entry {A} m i j.

Definition shape {A} (m : matrix A) : nat * nat := (nrows m, ncols m).

(** [m.T] *)
Definition transpose {A} (m : matrix A) : matrix A :=
  Matrix (ncols m) (nrows m) (fun i j => entry m j i).

(** [sum(f(k) for k in range(n))] over the integers *)
Fixpoint zsum (n : nat) (f : nat -> Z) : Z :=
  match n with
  | O => 0%Z
  | S n' => (zsum n' f + f n')%Z
  end.

(** [a @ b]: scipy raises [ValueError] on a dimension mismatch. *)
Definition matmul (a b : matrix Z) : outcome (matrix Z) :=
  if ncols a =? nrows b then
    Ok (Matrix (nrows a) (ncols b)
          (fun i j => zsum (ncols a) (fun k => (entry a i k * entry b k j)%Z)))
  else Raise (ValueError "dimension mismatch").

(** [a + b]: scipy raises [ValueError] on inconsistent shapes. *)
Definition madd (a b : matrix Z) : outcome (matrix Z) :=
  if (nrows a =? nrows b) && (ncols a =? ncols b) then
    Ok (Matrix (nrows a) (ncols a) (fun i j => (entry a i j + entry b i j)%Z))
  else Raise (ValueError "inconsistent shapes").

(** [m * c] entry by entry *)
Definition mmap {A B} (f : A -> B) (m : matrix A) : matrix B :=
  Matrix (nrows m) (ncols m) (fun i j => f (entry m i j)).

(** [m.todense()]: the rows as nested lists *)
Definition todense {A} (m : matrix A) : list (list A) :=
  map (fun i => map (fun j => entry m i j) (seq 0 (ncols m))) (seq 0 (nrows m)).

End Numpy.

(* ===================================================================== *)
(** * Tensors *)

Module Torch.

(** A dense or sparse two-dimensional tensor: its [torch.Size] and rows. *)
Record tensor2 (A : Type) : Type := Tensor2 {
  size : nat * nat;
  data : list (list A)
}.
Arguments Tensor2 {A} size data.
Arguments size {A} t.
Arguments data {A} t.

(** [torch.from_numpy(m.todense())] *)
Definition from_numpy {A} (m : Numpy.matrix A) : tensor2 A :=
  Tensor2 (Numpy.shape m) (Numpy.todense m).

(** [t.to_sparse()] changes the storage layout only. *)
Definition to_sparse {A} (t : tensor2 A) : tensor2 A := t.

(** The arithmetic a linear layer needs of the entries of a tensor. *)
Class Scalar (F : Type) : Type := {
  fzero : F;
  fadd : F -> F -> F;
  fmul : F -> F -> F
}.

(** Feature and parameter tensors: one-dimensional ([Vec], a bias or a
    pooled output) or two-dimensional ([Mat], one row per cell). *)
Inductive tensor (F : Type) : Type :=
| Vec (v : list F)
| Mat (t : tensor2 F).
Arguments Vec {F} v.
Arguments Mat {F} t.

(** [sum(a * b for a, b in zip(u, v))] *)
Fixpoint dot {F} `{Scalar F} (u v : list F) : F :=
  match u, v with
  | a :: u', b :: v' => fadd (fmul a b) (dot u' v')
  | _, _ => fzero
  end.

(** [torch.nn.functional.linear(x, weight, bias)]: x @ weight.T + bias for
    [x : [n, in_features]], [weight : [out_features, in_features]] and
    [bias : [out_features]]; torch raises when the shapes do not fit. *)
Definition linear {F} `{Scalar F} (weight bias x : tensor F) : outcome (tensor F) :=
  match weight, bias, x with
  | Mat w, Vec b, Mat t =>
      if (snd (size t) =? snd (size w)) && (length b =? fst (size w)) then
        Ok (Mat (Tensor2 (fst (size t), fst (size w))
                   (map (fun row =>
                           map (fun wb => fadd (dot row (fst wb)) (snd wb))
                               (combine (data w) b))
                        (data t))))
      else Raise (RuntimeError "mat1 and mat2 shapes cannot be multiplied")
  | _, _, _ => Raise (RuntimeError "linear: expected 2-D input and weight")
  end.

(** A tensor is well formed when its rows agree with its size. *)
Definition well_formed {F} (x : tensor F) : Prop :=
  match x with
  | Vec _ => True
  | Mat t => length (data t) = fst (size t) /\
             Forall (fun row => length row = snd (size t)) (data t)
  end.

(** The global random generator as dropout sees it: the keep/drop decisions
    still to be drawn.  [torch.manual_seed] picks the tape. *)
Record generator : Type := Generator {
  tape : nat -> bool;
  offset : nat
}.

(** Draw [n] decisions and advance the generator. *)
Definition bernoulli (n : nat) (g : generator) : list bool * generator :=
  (map (tape g) (seq (offset g) n), Generator (tape g) (offset g + n)).

(** Zero the entries whose decision is [false] (drop). *)
Definition apply_mask {F} `{Scalar F} (mask : list bool) (row : list F) : list F :=
  map (fun km : bool * F => if fst km then snd km else fzero) (combine mask row).

Fixpoint mask_rows {F} `{Scalar F} (mask : list bool) (rows : list (list F))
  : list (list F) :=
  match rows with
  | [] => []
  | row :: rest =>
      apply_mask (firstn (length row) mask) row
      :: mask_rows (skipn (length row) mask) rest
  end.

(** Dropout with a positive rate, in training mode: one decision per entry.
    Kept entries are rescaled by a factor that depends on the rate only; the
    factor is left out. *)
Definition dropout {F} `{Scalar F} (x : tensor F) (g : generator)
  : tensor F * generator :=
  match x with
  | Vec v =>
      let (mask, g') := bernoulli (length v) g in
      (Vec (apply_mask mask v), g')
  | Mat t =>
      let (mask, g') := bernoulli (fst (size t) * snd (size t)) g in
      (Mat (Tensor2 (size t) (mask_rows mask (data t))), g')
  end.

End Torch.

(* ===================================================================== *)
(** * Complexes and their Laplacians

    The complexes of the notebooks are objects of [toponetx], whose code is
    not among the sources.  What the notebooks use of a complex is the
    number of cells of each rank and the signed incidence between cells of
    adjacent rank. *)

Module Complexes.
Import Numpy.

Record complex : Type := Complex {
  dim : nat;
  n_cells : nat -> nat;
  incidence_coeff : nat -> nat -> nat -> Z
}.

(** Modelled from the spec: [incidence_matrix] is a method of the complexes
    of [toponetx], not among the sources.  The glossary has the Laplacians
    encode the adjacency between cells of adjacent dimension, and the HMPNN
    notebook gives the incidence matrix B1 the shape n_nodes x n_edges: the
    incidence matrix of rank [r] has one row per cell of rank [r - 1] and one
    column per cell of rank [r].  A rank above the dimension is an error. *)
Definition incidence_matrix (K : complex) (rank : nat) : outcome (matrix Z) :=
  if dim K <? rank then Raise (ValueError "rank exceeds the dimension")
  else match rank with
       | O => Ok (Matrix 1 (n_cells K 0) (fun _ _ => 1%Z))
       | S r' => Ok (Matrix (n_cells K r') (n_cells K rank) (incidence_coeff K rank))
       end.

(** Modelled from the spec: [down_laplacian_matrix] of [toponetx], not among
    the sources: the down Laplacian of rank [r] is B_r^T B_r, for a rank
    from 1 to the dimension. *)
Definition down_laplacian_matrix (K : complex) (rank : nat) : outcome (matrix Z) :=
  if (0 <? rank) && (rank <=? dim K) then
    let* B := incidence_matrix K rank in
    matmul (transpose B) B
  else Raise (ValueError "rank should be in 1..dim").

(** Modelled from the spec: [up_laplacian_matrix] of [toponetx], not among
    the sources: the up Laplacian of rank [r] is B_{r+1} B_{r+1}^T, for a
    rank below the dimension. *)
Definition up_laplacian_matrix (K : complex) (rank : nat) : outcome (matrix Z) :=
  if rank <? dim K then
    let* B_next := incidence_matrix K (rank + 1) in
    matmul B_next (transpose B_next)
  else Raise (ValueError "rank should be below dim").

(** Modelled from the spec: [hodge_laplacian_matrix] of [toponetx], not among
    the sources: the sum of the up and the down Laplacian, where they
    exist. *)
Definition hodge_laplacian_matrix (K : complex) (rank : nat) : outcome (matrix Z) :=
  if rank =? 0 then
    let* B_next := incidence_matrix K 1 in
    matmul B_next (transpose B_next)
  else if rank <? dim K then
    let* L_up := up_laplacian_matrix K rank in
    let* L_down := down_laplacian_matrix K rank in
    madd L_up L_down
  else if rank =? dim K then down_laplacian_matrix K rank
  else Raise (ValueError "rank should be at most dim").

(** Modelled from the spec: [normalized_laplacian_matrix] of [toponetx], not
    among the sources: the Hodge Laplacian divided by its largest
    eigenvalue, which the sparse eigensolver [eigsh] supplies. *)
Definition normalized_laplacian_matrix (eigsh : matrix Z -> outcome Q)
    (K : complex) (rank : nat) : outcome (matrix Q) :=
  let* L := hodge_laplacian_matrix K rank in
  let* top := eigsh L in
  Ok (mmap (fun z => (inject_Z z / top)%Q) L).

(** [torch.from_numpy(L.todense()).to_sparse()], the conversion every
    notebook applies to the matrices it builds. *)
Definition to_torch {A} (L : matrix A) : Torch.tensor2 A :=
  Torch.to_sparse (Torch.from_numpy L).

(** The Laplacians the notebooks build. *)
Inductive laplacian : Type := Up | Down | Normalized.

(** One matrix of the neighborhood cells, as a tensor:
    [L = K.up_laplacian_matrix(rank)] (or [down_], or [normalized_]) followed
    by the conversion to torch. *)
Definition laplacian_tensor (eigsh : matrix Z -> outcome Q) (which : laplacian)
    (K : complex) (rank : nat) : outcome (Torch.tensor2 Q) :=
  match which with
  | Up => let* L := up_laplacian_matrix K rank in Ok (to_torch (mmap inject_Z L))
  | Down => let* L := down_laplacian_matrix K rank in Ok (to_torch (mmap inject_Z L))
  | Normalized =>
      let* L := normalized_laplacian_matrix eigsh K rank in Ok (to_torch L)
  end.

(** A tensor of shape [[n, n]] whose rows agree with its shape. *)
Definition is_square {A} (t : Torch.tensor2 A) (n : nat) : Prop :=
  Torch.size t = (n, n) /\
  length (Torch.data t) = n /\
  Forall (fun row => length row = n) (Torch.data t).

(** ** Simplicial complexes

    A simplex is the increasing list of its vertices; the cells of rank [r]
    are the simplices with [r + 1] vertices, in the order of the complex. *)

Definition simplex := list nat.

Definition skeleton (simplices : list simplex) (rank : nat) : list simplex :=
  filter (fun s => length s =? S rank) simplices.

Fixpoint remove_nth (k : nat) (s : simplex) : simplex :=
  match s, k with
  | [], _ => []
  | _ :: s', O => s'
  | v :: s', S k' => v :: remove_nth k' s'
  end.

Definition simplex_eqb (s t : simplex) : bool :=
  if list_eq_dec Nat.eq_dec s t then true else false.

(** Sign of the face [sigma] in the boundary of [tau]: (-1)^k when [sigma]
    is [tau] without its k-th vertex, 0 when it is no face. *)
Definition boundary_coeff (sigma tau : simplex) : Z :=
  fold_right
    (fun k acc =>
       if simplex_eqb (remove_nth k tau) sigma
       then (if Nat.even k then 1 else -1)%Z
       else acc)
    0%Z (seq 0 (length tau)).

Definition simplicial_dim (simplices : list simplex) : nat :=
  fold_right (fun s d => Nat.max (length s - 1) d) 0 simplices.

Definition SimplicialComplex (simplices : list simplex) : complex :=
  {| dim := simplicial_dim simplices;
     n_cells := fun r => length (skeleton simplices r);
     incidence_coeff := fun r i j =>
       boundary_coeff (nth i (skeleton simplices (r - 1)) [])
                      (nth j (skeleton simplices r) []) |}.

(** A filled triangle: 3 nodes, 3 edges, 1 face. *)
Definition triangle : complex :=
  SimplicialComplex [[0]; [1]; [2]; [0; 1]; [0; 2]; [1; 2]; [0; 1; 2]].

End Complexes.

(* ===================================================================== *)
(** * Modules, parameters and optimizers of torch *)

Module TorchModule.
Import Torch.

Definition param_id := nat.

(** The Python values the model classes handle. *)
Inductive pyobj : Type :=
| PyInt (n : nat)
| PyBool (b : bool)
| PyFloat (q : Q)
| PyStr (s : string)
| PyList (items : list pyobj)
| Param (id : param_id)
| Module_ (cls : string)
          (_parameters : list (string * param_id))
          (_modules : list (string * pyobj))
          (__dict__ : list (string * pyobj)).

Definition remove_key {A} (name : string) (l : list (string * A)) : list (string * A) :=
  filter (fun kv => negb (String.eqb (fst kv) name)) l.

Fixpoint lookup_key {A} (name : string) (l : list (string * A)) : option A :=
  match l with
  | [] => None
  | (k, v) :: l' => if String.eqb k name then Some v else lookup_key name l'
  end.

(** [torch.nn.Module.__setattr__]: a [torch.nn.Parameter] is registered in
    [_parameters], a [Module] in [_modules]; any other value, a plain list
    of modules included, becomes an ordinary attribute. *)
Definition setattr (self : pyobj) (name : string) (value : pyobj) : pyobj :=
  match self with
  | Module_ cls ps ms d =>
      let ps := remove_key name ps in
      let ms := remove_key name ms in
      let d := remove_key name d in
      match value with
      | Param id => Module_ cls (ps ++ [(name, id)]) ms d
      | Module_ _ _ _ _ => Module_ cls ps (ms ++ [(name, value)]) d
      | _ => Module_ cls ps ms (d ++ [(name, value)])
      end
  | _ => self
  end.

(** [self.name] *)
Definition getattr (self : pyobj) (name : string) : outcome pyobj :=
  match self with
  | Module_ _ ps ms d =>
      match lookup_key name d with
      | Some v => Ok v
      | None =>
          match lookup_key name ps with
          | Some id => Ok (Param id)
          | None =>
              match lookup_key name ms with
              | Some m => Ok m
              | None => Raise (AttributeError name)
              end
          end
      end
  | _ => Raise (AttributeError name)
  end.

(** [module.parameters()]: the module's own registered parameters, then
    those of its registered submodules, recursively. *)
Fixpoint parameters (m : pyobj) : list param_id :=
  match m with
  | Module_ _ ps ms _ =>
      map snd ps ++
      (fix children (l : list (string * pyobj)) : list param_id :=
         match l with
         | [] => []
         | (_, c) :: l' => parameters c ++ children l'
         end) ms
  | _ => []
  end.

(** Every parameter an object holds, registered or not: the parameters of a
    module, or of the modules of a plain list. *)
Definition held_parameters (o : pyobj) : list param_id :=
  match o with
  | PyList items => flat_map parameters items
  | _ => parameters o
  end.

(** ** Constructors

    A constructor allocates fresh parameters: it is run from the next free
    identifier and returns the object with the next free identifier; it can
    raise. *)

Definition ctor (A : Type) : Type := param_id -> outcome (A * param_id).

Definition cret {A} (a : A) : ctor A := fun next => Ok (a, next).

Definition cbind {A B} (c : ctor A) (k : A -> ctor B) : ctor B :=
  fun next =>
    match c next with
    | Ok (a, next') => k a next'
    | Raise e => Raise e
    end.

Definition craise {A} (e : exn) : ctor A := fun _ => Raise e.

Notation "'new' x ':=' c 'in' k" := (cbind c (fun x => k))
  (at level 10, x name, c at level 100, k at level 200).

(** [[c() for _ in range(n)]] *)
Fixpoint comprehension {A} (n : nat) (c : ctor A) : ctor (list A) :=
  match n with
  | O => cret []
  | S n' => new x := c in new xs := comprehension n' c in cret (x :: xs)
  end.

(** [l[i]] on a Python list or tuple *)
Definition getitem {A} (l : list A) (i : nat) : outcome A :=
  match nth_error l i with
  | Some a => Ok a
  | None => Raise (IndexError "index out of range")
  end.

Definition lift {A} (o : outcome A) : ctor A :=
  fun next => match o with Ok a => Ok (a, next) | Raise e => Raise e end.

Definition index_name (i : nat) : string :=
  NilEmpty.string_of_uint (Nat.to_uint i).

Definition enumerate {A} (l : list A) : list (string * A) :=
  combine (map index_name (seq 0 (length l))) l.

(** [torch.nn.ModuleList(modules)]: a module whose children are the modules
    of the list, registered under their indices. *)
Definition ModuleList (modules : list pyobj) : pyobj :=
  Module_ "ModuleList" [] (enumerate modules) [].

(** [torch.nn.Sequential] applied to the modules of a list *)
Definition Sequential (modules : list pyobj) : pyobj :=
  Module_ "Sequential" [] (enumerate modules) [].

(** [torch.nn.Linear(in_features, out_features)] *)
Definition Linear (in_features out_features : nat) : ctor pyobj :=
  fun next =>
    Ok (Module_ "Linear" [("weight", next); ("bias", S next)] []
          [("in_features", PyInt in_features);
           ("out_features", PyInt out_features)],
        S (S next)).

(** Modelled from the spec: the layer classes ([SCoNeLayer], [SCN2Layer],
    [SCACMPSLayer], [CANLayer], [HMPNNLayer]) are in [topomodelx.nn], not
    among the sources.  The glossary makes a message passing layer a
    parametrized function: a layer is an object of class [cls] that keeps
    its constructor arguments and owns one fresh parameter per weight; which
    weights a class has is left open. *)
Definition Layer (cls : string) (weights : list string)
    (args : list (string * pyobj)) : ctor pyobj :=
  fun next =>
    Ok (Module_ cls (combine weights (seq next (length weights))) [] args,
        next + length weights).

(** What a layer object was constructed from. *)
Definition ctor_args (layer : pyobj) : outcome (string * list (string * pyobj)) :=
  match layer with
  | Module_ cls _ _ args => Ok (cls, args)
  | _ => Raise (TypeError "not a module")
  end.

(** [for layer in layers] over a plain list or a [ModuleList] *)
Definition iter (layers : pyobj) : outcome (list pyobj) :=
  match layers with
  | PyList items => Ok items
  | Module_ cls _ ms _ =>
      if String.eqb cls "ModuleList" || String.eqb cls "Sequential"
      then Ok (map snd ms)
      else Raise (TypeError "object is not iterable")
  | _ => Raise (TypeError "object is not iterable")
  end.

(** ** Optimizers *)

Record optimizer : Type := Optimizer {
  param_groups : list param_id;
  lr : Q
}.

(** [torch.optim.Adam(params, lr)] *)
Definition Adam (params : list param_id) (lr : Q) : outcome optimizer :=
  match params with
  | [] => Raise (ValueError "optimizer got an empty parameter list")
  | _ => Ok (Optimizer params lr)
  end.

(** [optimizer.step()]: every parameter the optimizer was given is
    replaced by its update; [update] stands for the arithmetic of Adam on
    the gradient and the moment estimates of this step. *)
Definition step {F} (update : param_id -> tensor F -> tensor F)
    (opt : optimizer) (st : gmap param_id (tensor F)) : gmap param_id (tensor F) :=
  fold_left
    (fun s p => match s !! p with
                | Some v => <[p := update p v]> s
                | None => s
                end)
    (param_groups opt) st.

(** The optimizer steps of a whole training run, one update per step. *)
Definition steps {F} (updates : list (param_id -> tensor F -> tensor F))
    (opt : optimizer) (st : gmap param_id (tensor F)) : gmap param_id (tensor F) :=
  fold_left (fun s update => step update opt s) updates st.

End TorchModule.

(* ===================================================================== *)
(** * Floating point values

    The entries of a float tensor are floats [fl]: NaN, the two infinities,
    or a finite value, which is a real.  The sums and products of the linear
    layers are the operations of a [Scalar]; the pooling of SCN2, AMPSSCA and
    CAN uses the exact ones.  Where the result of an operation is rounded,
    as in [torch.softmax], the rounding is a parameter ([Float32]): the float
    nearest to a real, an infinity when the real is out of range. *)

Module Floats.
Import Torch.

(** The reals, for tensors of finite values. *)
#[export] Instance Scalar_R : Scalar R :=
  {| fzero := 0%R; fadd := Rplus; fmul := Rmult |}.

(** A float that is not a number, infinite, or a finite real. *)
Inductive fl : Type :=
| NaN
| Inf (negative : bool)
| Fin (r : R).

Definition isnan (x : fl) : bool :=
  match x with NaN => true | _ => false end.

Definition fl_add (x y : fl) : fl :=
  match x, y with
  | NaN, _ | _, NaN => NaN
  | Inf a, Inf b => if Bool.eqb a b then Inf a else NaN
  | Inf a, Fin _ | Fin _, Inf a => Inf a
  | Fin r, Fin s => Fin (r + s)
  end.

Definition inf_times (a : bool) (r : R) : fl :=
  if Req_dec_T r 0 then NaN
  else Inf (xorb a (if Rlt_dec r 0 then true else false)).

Definition fl_mul (x y : fl) : fl :=
  match x, y with
  | NaN, _ | _, NaN => NaN
  | Inf a, Inf b => Inf (xorb a b)
  | Inf a, Fin r | Fin r, Inf a => inf_times a r
  | Fin r, Fin s => Fin (r * s)
  end.

(** Division by a positive count. *)
Definition fl_div_count (x : fl) (n : nat) : fl :=
  match x with
  | Fin r => Fin (r / INR n)
  | _ => x
  end.

#[export] Instance Scalar_fl : Scalar fl :=
  {| fzero := Fin 0; fadd := fl_add; fmul := fl_mul |}.

(** [torch.nanmean] of one column: the mean of the entries that are not NaN;
    NaN when there is none, an empty column included. *)
Definition nanmean_column (col : list fl) : fl :=
  match filter (fun x => negb (isnan x)) col with
  | [] => NaN
  | kept => fl_div_count (fold_left fl_add kept (Fin 0)) (length kept)
  end.

(** [torch.nanmean(x, dim=0)]: one mean per column.  A zero-dimensional
    result is kept as a vector of one entry. *)
Definition nanmean (x : tensor fl) : tensor fl :=
  match x with
  | Vec v => Vec [nanmean_column v]
  | Mat t =>
      Vec (map (fun j => nanmean_column (map (fun row => nth j row NaN) (data t)))
               (seq 0 (snd (size t))))
  end.

(** [torch.isnan(m)] *)
Definition torch_isnan (m : tensor fl) : list bool :=
  match m with
  | Vec v => map isnan v
  | Mat t => map isnan (concat (data t))
  end.

(** [m[mask] = value], in place on a one-dimensional tensor *)
Definition setitem_mask (m : tensor fl) (mask : list bool) (value : fl) : tensor fl :=
  match m with
  | Vec v =>
      Vec (map (fun xb : fl * bool => if snd xb then value else fst xb)
               (combine v mask))
  | Mat _ => m
  end.

(** [a + b] on one-dimensional tensors of equal length *)
Definition tensor_add (a b : tensor fl) : outcome (tensor fl) :=
  match a, b with
  | Vec u, Vec v =>
      if length u =? length v
      then Ok (Vec (map (fun xy : fl * fl => fl_add (fst xy) (snd xy)) (combine u v)))
      else Raise (RuntimeError "the sizes of the tensors must match")
  | _, _ => Raise (RuntimeError "expected one-dimensional tensors")
  end.

(** [torch.flatten] of a one-dimensional tensor *)
Definition flatten (a : tensor fl) : tensor fl :=
  match a with
  | Vec v => Vec v
  | Mat t => Vec (concat (data t))
  end.

(** [sum(row)] *)
Definition rsum (row : list R) : R := fold_right Rplus 0%R row.

(** ** Rounded arithmetic

    [round r] is the float that stands for the real [r], an infinity when
    [r] is out of range; [exp32 r] is the exponential of [r] as the library
    computes it. *)
Class Float32 : Type := {
  round : R -> fl;
  exp32 : R -> fl
}.

(** The order of the floats: NaN is not compared. *)
Definition fl_le (x y : fl) : Prop :=
  match x, y with
  | NaN, _ => False
  | _, NaN => False
  | Inf true, _ => True
  | _, Inf false => True
  | Inf false, _ => False
  | _, Inf true => False
  | Fin r, Fin s => (r <= s)%R
  end.

(** What the proofs use of float32: rounding is monotone, the numbers 0,
    1/2, 1 and 2 are floats, the exponential of a number that is not
    positive lies between 0 and 1, and the exponential of 0 is 1. *)
Class Float32Laws (f : Float32) : Prop := {
  round_monotone : forall r s : R, (r <= s)%R -> fl_le (round r) (round s);
  round_0 : round 0 = Fin 0;
  round_half : round (1 / 2) = Fin (1 / 2);
  round_1 : round 1 = Fin 1;
  round_2 : round 2 = Fin 2;
  exp32_unit : forall r : R, (r <= 0)%R ->
               exists v : R, exp32 r = Fin v /\ (0 <= v <= 1)%R;
  exp32_0 : exp32 0 = Fin 1
}.

(** What the proofs use of the grid of float32: the exponential returns a
    float, and the double of a float between 0 and 1 is a float. *)
Class Float32Grid (f : Float32) : Prop := {
  exp32_float : forall r v : R, exp32 r = Fin v -> round v = Fin v;
  round_double : forall v : R, round v = Fin v -> (0 <= v <= 1)%R ->
                 round (2 * v) = Fin (2 * v)
}.

(** [x > threshold]: a comparison with NaN is false. *)
Definition fl_gtb (threshold : R) (x : fl) : bool :=
  match x with
  | NaN => false
  | Inf negative => negb negative
  | Fin r => if Rlt_dec threshold r then true else false
  end.

(** Arithmetic without rounding: every real is a float. *)
Definition exact : Float32 :=
  {| round := Fin; exp32 := fun r => Fin (exp r) |}.

Definition is_exact (f : Float32) : Prop :=
  (forall r, round r = Fin r) /\ (forall r, exp32 r = Fin (exp r)).

Section Rounded.
Context `{Float32}.

(** [x - y] *)
Definition fl_sub (x y : fl) : fl :=
  match x, y with
  | NaN, _ | _, NaN => NaN
  | Inf a, Inf b => if Bool.eqb a b then NaN else Inf a
  | Inf a, Fin _ => Inf a
  | Fin _, Inf b => Inf (negb b)
  | Fin r, Fin s => round (r - s)
  end.

(** [x + y], rounded *)
Definition fl_radd (x y : fl) : fl :=
  match x, y with
  | NaN, _ | _, NaN => NaN
  | Inf a, Inf b => if Bool.eqb a b then Inf a else NaN
  | Inf a, Fin _ | Fin _, Inf a => Inf a
  | Fin r, Fin s => round (r + s)
  end.

(** [x * y], rounded *)
Definition fl_rmul (x y : fl) : fl :=
  match x, y with
  | NaN, _ | _, NaN => NaN
  | Inf a, Inf b => Inf (xorb a b)
  | Inf a, Fin r | Fin r, Inf a => inf_times a r
  | Fin r, Fin s => round (r * s)
  end.

(** The sums and products of a linear layer on float32: each is rounded. *)
Definition Scalar_float32 : Scalar fl :=
  {| fzero := Fin 0; fadd := fl_radd; fmul := fl_rmul |}.

(** [x / y]; a zero carries no sign in [fl]. *)
Definition fl_div (x y : fl) : fl :=
  match x, y with
  | NaN, _ | _, NaN => NaN
  | Inf _, Inf _ => NaN
  | Inf a, Fin s => Inf (xorb a (if Rlt_dec s 0 then true else false))
  | Fin _, Inf _ => Fin 0
  | Fin r, Fin s =>
      if Req_dec_T s 0 then
        if Req_dec_T r 0 then NaN
        else Inf (if Rlt_dec r 0 then true else false)
      else round (r / s)
  end.

(** [exp(x)] *)
Definition fl_exp (x : fl) : fl :=
  match x with
  | NaN => NaN
  | Inf true => Fin 0
  | Inf false => Inf false
  | Fin r => exp32 r
  end.

(** The larger of two floats, NaN when one of them is. *)
Definition fl_max (x y : fl) : fl :=
  match x, y with
  | NaN, _ | _, NaN => NaN
  | Inf false, _ | _, Inf false => Inf false
  | Inf true, z | z, Inf true => z
  | Fin r, Fin s => Fin (Rmax r s)
  end.

(** [torch.softmax(x, dim=-1)] on one row: the exponentials of the entries,
    each after the largest entry was subtracted from it, divided by their
    sum. *)
Definition softmax_row (row : list fl) : list fl :=
  match row with
  | [] => []
  | first :: rest =>
      let max_input := fold_left fl_max rest first in
      let exps := map (fun x => fl_exp (fl_sub x max_input)) row in
      let tmp_sum := fold_left fl_radd (tl exps) (hd NaN exps) in
      map (fun e => fl_div e tmp_sum) exps
  end.

Definition softmax (x : tensor fl) : tensor fl :=
  match x with
  | Vec v => Vec (softmax_row v)
  | Mat t => Mat (Tensor2 (size t) (map softmax_row (data t)))
  end.

End Rounded.

End Floats.

(* ===================================================================== *)
(** * The model classes of the notebooks *)

Module Models.
Import Torch TorchModule Floats.

Abbreviation store F := (gmap param_id (tensor F)).

(** [for a in items: s = body(a, s)] *)
Fixpoint for_each {A S} (body : A -> S -> outcome S) (items : list A) (s : S)
  : outcome S :=
  match items with
  | [] => Ok s
  | a :: rest => let* s' := body a s in for_each body rest s'
  end.

(** The calls a loop makes, one after the other: [chain body items s s']
    holds when the first call receives [s], every later call receives what
    the call before it returned, no call raises, and the last returns [s']. *)
Inductive chain {A S} (body : A -> S -> outcome S) : list A -> S -> S -> Prop :=
| chain_nil s : chain body [] s s
| chain_cons a rest s s1 s' :
    body a s = Ok s1 -> chain body rest s1 s' -> chain body (a :: rest) s s'.

(** The value of the parameter [name] of module [m] *)
Definition get_parameter {F} (st : store F) (m : pyobj) (name : string)
  : outcome (tensor F) :=
  let* p := getattr m name in
  match p with
  | Param id =>
      match st !! id with
      | Some t => Ok t
      | None => Raise (RuntimeError "parameter without a value")
      end
  | _ => Raise (TypeError "not a parameter")
  end.

(** [torch.nn.Linear.forward] *)
Definition Linear_forward {F} `{Scalar F} (st : store F) (m : pyobj) (x : tensor F)
  : outcome (tensor F) :=
  let* weight := get_parameter st m "weight" in
  let* bias := get_parameter st m "bias" in
  linear weight bias x.

(** [torch.nn.Sequential.forward] over linear layers *)
Definition Sequential_forward {F} `{Scalar F} (st : store F) (m : pyobj)
    (x : tensor F) : outcome (tensor F) :=
  let* modules := iter m in
  for_each (fun l x => Linear_forward st l x) modules x.

(** [self.layers], as the sequence a [for] loop runs over *)
Definition layers_of (self : pyobj) : outcome (list pyobj) :=
  let* layers := getattr self "layers" in
  iter layers.

(** ** SCoNeNN (scone_train_bis.ipynb) *)

Definition SCoNeLayer (weights : list string) (channels : nat) : ctor pyobj :=
  Layer "SCoNeLayer" weights [("channels", PyInt channels)].

Definition SCoNeNN_init (weights : list string) (channels n_layers : nat)
  : ctor pyobj :=
  let self := Module_ "SCoNeNN" [] [] [] in
  new layers := comprehension n_layers (SCoNeLayer weights channels) in
  new linear := Linear channels 2 in
  let self := setattr self "linear" linear in
  let self := setattr self "layers" (PyList layers) in
  cret self.

Definition SCoNeLayer_call : Type :=
  store fl -> pyobj -> tensor fl -> tensor fl -> tensor fl -> tensor fl ->
  outcome (tensor fl).

(** The statements of [forward] after the loop over the layers *)
Definition SCoNeNN_head `{Scalar fl} `{Float32} (st : store fl) (self : pyobj)
    (x_1 : tensor fl) : outcome (tensor fl) :=
  let* linear := getattr self "linear" in
  let* x_1 := Linear_forward st linear x_1 in
  Ok (softmax x_1).

Definition SCoNeNN_forward `{Scalar fl} `{Float32}
    (SCoNeLayer_forward : SCoNeLayer_call)
    (st : store fl) (self : pyobj) (x_1 up_lap1 down_lap1 iden : tensor fl)
  : outcome (tensor fl) :=
  let* layers := layers_of self in
  let* x_1 :=
    for_each (fun layer x_1 => SCoNeLayer_forward st layer x_1 up_lap1 down_lap1 iden)
             layers x_1 in
  SCoNeNN_head st self x_1.

(** ** The pooling shared by SCN2, AMPSSCA and CAN

    [mean = torch.nanmean(x, dim=0); mean[torch.isnan(mean)] = 0] *)
Definition cells_mean (x : tensor fl) : tensor fl :=
  let mean := nanmean x in
  setitem_mask mean (torch_isnan mean) (Fin 0).

(** ** SCN2 (scn2_train.ipynb) *)

Definition SCN2Layer (weights : list string)
    (in_channels_0 in_channels_1 in_channels_2 : nat) : ctor pyobj :=
  Layer "SCN2Layer" weights
    [("in_channels_0", PyInt in_channels_0);
     ("in_channels_1", PyInt in_channels_1);
     ("in_channels_2", PyInt in_channels_2)].

Definition SCN2_init (weights : list string)
    (in_channels_0 in_channels_1 in_channels_2 num_classes n_layers : nat)
  : ctor pyobj :=
  let self := Module_ "SCN2" [] [] [] in
  new layers :=
    comprehension n_layers
      (SCN2Layer weights in_channels_0 in_channels_1 in_channels_2) in
  let self := setattr self "layers" (ModuleList layers) in
  new lin_0 := Linear in_channels_0 num_classes in
  let self := setattr self "lin_0" lin_0 in
  new lin_1 := Linear in_channels_1 num_classes in
  let self := setattr self "lin_1" lin_1 in
  new lin_2 := Linear in_channels_2 num_classes in
  let self := setattr self "lin_2" lin_2 in
  cret self.

Definition features3 : Type := (tensor fl * tensor fl * tensor fl)%type.

Definition SCN2Layer_call : Type :=
  store fl -> pyobj -> features3 -> tensor fl -> tensor fl -> tensor fl ->
  outcome features3.

(** The statements of [forward] after the loop over the layers *)
Definition SCN2_head (st : store fl) (self : pyobj) (xs : features3)
  : outcome (tensor fl) :=
  let '(x_0, x_1, x_2) := xs in
  let* lin_0 := getattr self "lin_0" in
  let* x_0 := Linear_forward st lin_0 x_0 in
  let* lin_1 := getattr self "lin_1" in
  let* x_1 := Linear_forward st lin_1 x_1 in
  let* lin_2 := getattr self "lin_2" in
  let* x_2 := Linear_forward st lin_2 x_2 in
  let two_dimensional_cells_mean := cells_mean x_2 in
  let one_dimensional_cells_mean := cells_mean x_1 in
  let zero_dimensional_cells_mean := cells_mean x_0 in
  let* s := tensor_add two_dimensional_cells_mean one_dimensional_cells_mean in
  tensor_add s zero_dimensional_cells_mean.

Definition SCN2_forward (SCN2Layer_forward : SCN2Layer_call)
    (st : store fl) (self : pyobj)
    (x_0 x_1 x_2 laplacian_0 laplacian_1 laplacian_2 : tensor fl)
  : outcome (tensor fl) :=
  let* layers := layers_of self in
  let* xs :=
    for_each (fun layer xs =>
                SCN2Layer_forward st layer xs laplacian_0 laplacian_1 laplacian_2)
             layers (x_0, x_1, x_2) in
  SCN2_head st self xs.

(** ** AMPSSCA (the SCA notebook, coadjacency message passing) *)

Definition SCACMPSLayer (weights : list string) (channels_list : list nat)
    (complex_dim : nat) (att : bool) : ctor pyobj :=
  Layer "SCACMPSLayer" weights
    [("channels_list", PyList (map PyInt channels_list));
     ("complex_dim", PyInt complex_dim);
     ("att", PyBool att)].

(** [Aggregation(aggr_func="mean", update_func="sigmoid")] owns no weight. *)
Definition Aggregation (aggr_func update_func : string) : ctor pyobj :=
  Layer "Aggregation" []
    [("aggr_func", PyStr aggr_func); ("update_func", PyStr update_func)].

Definition AMPSSCA_init (weights : list string) (channels_list : list nat)
    (complex_dim num_classes n_layers : nat) (att : bool) : ctor pyobj :=
  let self := Module_ "AMPSSCA" [] [] [] in
  let self := setattr self "n_layers" (PyInt n_layers) in
  let self := setattr self "channels_list" (PyList (map PyInt channels_list)) in
  let self := setattr self "num_classes" (PyInt num_classes) in
  new layers :=
    comprehension n_layers (SCACMPSLayer weights channels_list complex_dim att) in
  let self := setattr self "layers" (ModuleList layers) in
  new c0 := lift (getitem channels_list 0) in
  new lin0 := Linear c0 num_classes in
  let self := setattr self "lin0" lin0 in
  new c1 := lift (getitem channels_list 1) in
  new lin1 := Linear c1 num_classes in
  let self := setattr self "lin1" lin1 in
  new c2 := lift (getitem channels_list 2) in
  new lin2 := Linear c2 num_classes in
  let self := setattr self "lin2" lin2 in
  new aggr := Aggregation "mean" "sigmoid" in
  let self := setattr self "aggr" aggr in
  cret self.

Definition SCACMPSLayer_call : Type :=
  store fl -> pyobj -> list (tensor fl) -> list (tensor fl) -> list (tensor fl) ->
  outcome (list (tensor fl)).

(** [range(n)] for the integer held by an attribute *)
Definition range (n : pyobj) : outcome (list nat) :=
  match n with
  | PyInt n => Ok (seq 0 n)
  | _ => Raise (TypeError "object cannot be interpreted as an integer")
  end.

(** The statements of [forward] after the loop over the layers *)
Definition AMPSSCA_head (st : store fl) (self : pyobj) (x_list : list (tensor fl))
  : outcome (tensor fl) :=
  let* lin0 := getattr self "lin0" in
  let* x0 := getitem x_list 0 in
  let* x_0 := Linear_forward st lin0 x0 in
  let* lin1 := getattr self "lin1" in
  let* x1 := getitem x_list 1 in
  let* x_1 := Linear_forward st lin1 x1 in
  let* lin2 := getattr self "lin2" in
  let* x2 := getitem x_list 2 in
  let* x_2 := Linear_forward st lin2 x2 in
  let two_dimensional_cells_mean := cells_mean x_2 in
  let one_dimensional_cells_mean := cells_mean x_1 in
  let zero_dimensional_cells_mean := cells_mean x_0 in
  let x_2f := flatten two_dimensional_cells_mean in
  let x_1f := flatten one_dimensional_cells_mean in
  let x_0f := flatten zero_dimensional_cells_mean in
  let* s := tensor_add x_0f x_1f in
  tensor_add s x_2f.

Definition AMPSSCA_forward (SCACMPSLayer_forward : SCACMPSLayer_call)
    (st : store fl) (self : pyobj)
    (x_list down_lap_list incidencet_list : list (tensor fl))
  : outcome (tensor fl) :=
  let* n_layers := getattr self "n_layers" in
  let* indices := range n_layers in
  let* x_list :=
    for_each (fun i x_list =>
                let* layers := layers_of self in
                let* layer := getitem layers i in
                SCACMPSLayer_forward st layer x_list down_lap_list incidencet_list)
             indices x_list in
  AMPSSCA_head st self x_list.

(** ** CAN (the cell attention notebook) *)

Definition CANLayer (weights : list string) (channels : nat) (att : bool)
  : ctor pyobj :=
  Layer "CANLayer" weights [("channels", PyInt channels); ("att", PyBool att)].

Definition CAN_init (weights : list string)
    (in_channels_0 in_channels_1 in_channels_2 num_classes n_layers : nat)
    (att : bool) : ctor pyobj :=
  let self := Module_ "CAN" [] [] [] in
  new layers := comprehension n_layers (CANLayer weights in_channels_1 att) in
  let self := setattr self "layers" (PyList layers) in
  new lin_0 := Linear in_channels_0 num_classes in
  let self := setattr self "lin_0" lin_0 in
  new lin_1 := Linear in_channels_1 num_classes in
  let self := setattr self "lin_1" lin_1 in
  new lin_2 := Linear in_channels_2 num_classes in
  let self := setattr self "lin_2" lin_2 in
  cret self.

Definition CANLayer_call : Type :=
  store fl -> pyobj -> tensor fl -> tensor fl -> tensor fl -> outcome (tensor fl).

(** The statements of [forward] after the loop over the layers *)
Definition CAN_head (st : store fl) (self : pyobj) (x_0 x_2 x_1 : tensor fl)
  : outcome (tensor fl) :=
  let* lin_0 := getattr self "lin_0" in
  let* x_0 := Linear_forward st lin_0 x_0 in
  let* lin_1 := getattr self "lin_1" in
  let* x_1 := Linear_forward st lin_1 x_1 in
  let* lin_2 := getattr self "lin_2" in
  let* x_2 := Linear_forward st lin_2 x_2 in
  let two_dimensional_cells_mean := cells_mean x_2 in
  let one_dimensional_cells_mean := cells_mean x_1 in
  let zero_dimensional_cells_mean := cells_mean x_0 in
  let* s := tensor_add one_dimensional_cells_mean zero_dimensional_cells_mean in
  tensor_add s two_dimensional_cells_mean.

Definition CAN_forward (CANLayer_forward : CANLayer_call)
    (st : store fl) (self : pyobj)
    (x_0 x_1 x_2 down_laplacian up_laplacian : tensor fl) : outcome (tensor fl) :=
  let* layers := layers_of self in
  let* x_1 :=
    for_each (fun layer x_1 => CANLayer_forward st layer x_1 down_laplacian up_laplacian)
             layers x_1 in
  CAN_head st self x_0 x_2 x_1.

(** ** HMPNN (the hypergraph notebook) *)

Definition HMPNNLayer (weights : list string) (in_channels : nat)
    (adjacency_dropout updating_dropout : Q) : ctor pyobj :=
  Layer "HMPNNLayer" weights
    [("in_channels", PyInt in_channels);
     ("adjacency_dropout", PyFloat adjacency_dropout);
     ("updating_dropout", PyFloat updating_dropout)].

(** [[c(a) for a in items]] *)
Fixpoint comprehension_over {A B} (items : list A) (c : A -> ctor B) : ctor (list B) :=
  match items with
  | [] => cret []
  | a :: rest => new x := c a in new xs := comprehension_over rest c in cret (x :: xs)
  end.

Definition HMPNN_init (weights : list string) (in_features : nat)
    (hidden_features : list nat) (num_classes n_layer : nat)
    (adjacency_dropout_rate regular_dropout_rate : Q) : ctor pyobj :=
  let self := Module_ "HMPNN" [] [] [] in
  let hidden_features := in_features :: hidden_features in
  new linears :=
    comprehension_over (seq 0 (length hidden_features - 1))
      (fun i =>
         new a := lift (getitem hidden_features i) in
         new b := lift (getitem hidden_features (i + 1)) in
         Linear a b) in
  let self := setattr self "to_hidden_linear" (Sequential linears) in
  let last_features := last hidden_features in_features in
  new layers :=
    comprehension n_layer
      (HMPNNLayer weights last_features adjacency_dropout_rate regular_dropout_rate) in
  let self := setattr self "layers" (ModuleList layers) in
  new to_categories := Linear last_features num_classes in
  let self := setattr self "to_categories_linear" to_categories in
  cret self.

(** The buffers of a [torch.nn.BatchNorm1d].  They are no parameters: the
    optimizer does not see them, a forward pass in training mode writes
    them. *)
Record batch_norm_buffers (F : Type) : Type := BatchNormBuffers {
  running_mean : list F;
  running_var : list F;
  num_batches_tracked : nat
}.
Arguments BatchNormBuffers {F} running_mean running_var num_batches_tracked.
Arguments running_mean {F} _.
Arguments running_var {F} _.
Arguments num_batches_tracked {F} _.

(** The buffers of one [HMPNNLayer]: those of the normalisation of the node
    features and of the hyperedge features. *)
Record layer_buffers (F : Type) : Type := LayerBuffers {
  node_batchnorm : batch_norm_buffers F;
  hyperedge_batchnorm : batch_norm_buffers F
}.
Arguments LayerBuffers {F} node_batchnorm hyperedge_batchnorm.
Arguments node_batchnorm {F} _.
Arguments hyperedge_batchnorm {F} _.

(** What a forward pass of HMPNN can change besides returning its result:
    the state of the random generator, and the buffers of the layers, one
    entry per layer of [self.layers]; [position] is the index of the layer
    the loop calls next. *)
Record runtime (F : Type) : Type := Runtime {
  rng : generator;
  buffers : list (layer_buffers F);
  position : nat
}.
Arguments Runtime {F} rng buffers position.
Arguments rng {F} _.
Arguments buffers {F} _.
Arguments position {F} _.

(** The arithmetic of a hypergraph layer, as functions of the parameters and
    of the features: the messages from the nodes to the hyperedges (the
    aggregated messages and the messages themselves) and back, the update of
    the features by the messages they receive, and the arithmetic of the
    normalisation, entry by entry: [batch_statistics] normalises an entry of
    column [j] by the mean and the variance of the batch, [running_statistics]
    by the running mean and variance, and [momentum_update] gives the new
    running mean and variance. *)
Record HMPNN_messages (F : Type) : Type := Messages {
  node_to_hyperedge :
    store F -> pyobj -> tensor F -> tensor F -> outcome (tensor F * tensor F);
  hyperedge_to_node :
    store F -> pyobj -> tensor F -> tensor F -> tensor F -> outcome (tensor F);
  updating_func : tensor F -> tensor F -> outcome (tensor F);
  batch_statistics : store F -> pyobj -> string -> list (list F) -> nat -> F -> F;
  running_statistics :
    store F -> pyobj -> string -> batch_norm_buffers F -> nat -> F -> F;
  momentum_update : batch_norm_buffers F -> list (list F) -> list F * list F
}.
Arguments Messages {F}.
Arguments node_to_hyperedge {F} _ _ _ _ _.
Arguments hyperedge_to_node {F} _ _ _ _ _ _.
Arguments updating_func {F} _ _ _.
Arguments batch_statistics {F} _ _ _ _ _ _ _.
Arguments running_statistics {F} _ _ _ _ _ _ _.
Arguments momentum_update {F} _ _ _.

(** Dropout of a layer: active in training mode when the rate is positive. *)
Definition layer_dropout {F} `{Scalar F} (training : bool) (rate : pyobj)
    (x : tensor F) (g : generator) : outcome (tensor F * generator) :=
  match rate with
  | PyFloat q =>
      if training && negb (Qle_bool q 0) then Ok (dropout x g) else Ok (x, g)
  | _ => Raise (TypeError "dropout rate is not a number")
  end.

(** [f] applied to every entry of every row, with the index of its column *)
Definition map_columns {F} (f : nat -> F -> F) (rows : list (list F))
  : list (list F) :=
  map (fun row =>
         map (fun jx : nat * F => f (fst jx) (snd jx))
             (combine (seq 0 (length row)) row))
      rows.

(** Modelled from the spec: [torch.nn.BatchNorm1d.forward], the normalisation
    [HMPNNLayer] applies to the features it updates; the class is not among
    the sources.  In training mode the input is normalised by the statistics
    of the batch, a batch of a single row is refused with [ValueError], and
    the running statistics and the count of batches are updated; in
    evaluation mode the input is normalised by the running statistics, and
    the buffers stay as they are. *)
Definition BatchNorm1d_forward {F} (messages : HMPNN_messages F)
    (st : store F) (layer : pyobj) (name : string) (training : bool)
    (b : batch_norm_buffers F) (x : tensor F)
  : outcome (tensor F * batch_norm_buffers F) :=
  match x with
  | Vec _ => Raise (ValueError "expected 2D or 3D input")
  | Mat t =>
      if training then
        if fst (size t) =? 1
        then Raise (ValueError
                      "Expected more than 1 value per channel when training")
        else
          let stats := momentum_update messages b (data t) in
          Ok (Mat (Tensor2 (size t)
                     (map_columns
                        (batch_statistics messages st layer name (data t))
                        (data t))),
              BatchNormBuffers (fst stats) (snd stats)
                               (S (num_batches_tracked b)))
      else
        Ok (Mat (Tensor2 (size t)
                   (map_columns (running_statistics messages st layer name b)
                                (data t))),
            b)
  end.

(** Modelled from the spec: [HMPNNLayer.forward] is in
    [topomodelx/nn/hypergraph/hmpnn_layer.py], which is not among the
    sources.  The glossary makes a message passing layer a parametrized
    function mapping per-cell feature vectors and adjacency operators to
    updated per-cell feature vectors: these functions are [messages].  The
    docstring of [HMPNN] gives the layer an adjacency dropout rate and a
    regular dropout rate applied on features.  The layer sends the messages
    of the nodes to the hyperedges and those of the hyperedges back, each
    messenger on the incidence matrix after adjacency dropout; then the node
    features and the hyperedge features are each normalised
    ([BatchNorm1d_forward]), put through the regular dropout, and updated by
    the messages they receive.  In training mode the masks are drawn from the
    random generator in this order. *)
Definition HMPNNLayer_forward {F} `{Scalar F} (messages : HMPNN_messages F)
    (st : store F) (layer : pyobj) (training : bool)
    (x_0 x_1 incidence_1 : tensor F) (g : generator) (b : layer_buffers F)
  : outcome (tensor F * tensor F * generator * layer_buffers F) :=
  let* adjacency_dropout := getattr layer "adjacency_dropout" in
  let* updating_dropout := getattr layer "updating_dropout" in
  let* ig := layer_dropout training adjacency_dropout incidence_1 g in
  let* node_messages := node_to_hyperedge messages st layer x_0 (fst ig) in
  let* ig' := layer_dropout training adjacency_dropout incidence_1 (snd ig) in
  let* hyperedge_messages :=
    hyperedge_to_node messages st layer x_1 (fst ig') (snd node_messages) in
  let* n := BatchNorm1d_forward messages st layer "node_batchnorm" training
              (node_batchnorm b) x_0 in
  let* xg0 := layer_dropout training updating_dropout (fst n) (snd ig') in
  let* y_0 := updating_func messages (fst xg0) hyperedge_messages in
  let* h := BatchNorm1d_forward messages st layer "hyperedge_batchnorm" training
              (hyperedge_batchnorm b) x_1 in
  let* xg1 := layer_dropout training updating_dropout (fst h) (snd xg0) in
  let* y_1 := updating_func messages (fst xg1) (fst node_messages) in
  Ok (y_0, y_1, snd xg1, LayerBuffers (snd n) (snd h)).

(** The statement of [forward] after the loop over the layers; the next pass
    starts at the first layer again. *)
Definition HMPNN_head {F} `{Scalar F} (st : store F) (self : pyobj)
    (xg : tensor F * tensor F * runtime F) : outcome (tensor F * runtime F) :=
  let '(x_0, x_1, rt) := xg in
  let* to_categories_linear := getattr self "to_categories_linear" in
  let* y := Linear_forward st to_categories_linear x_0 in
  Ok (y, Runtime (rng rt) (buffers rt) 0).

(** One layer call of the loop, on the features and the runtime state: the
    layer reads and writes its own buffers. *)
Definition HMPNN_call {F} `{Scalar F} (messages : HMPNN_messages F)
    (st : store F) (training : bool) (incidence_1 : tensor F)
    (layer : pyobj) (xg : tensor F * tensor F * runtime F)
  : outcome (tensor F * tensor F * runtime F) :=
  let '(x_0, x_1, rt) := xg in
  match buffers rt !! position rt with
  | None => Raise (AttributeError "node_batchnorm")
  | Some b =>
      let* r := HMPNNLayer_forward messages st layer training x_0 x_1
                  incidence_1 (rng rt) b in
      let '(y_0, y_1, g, b') := r in
      Ok (y_0, y_1,
          Runtime g (<[position rt := b']> (buffers rt)) (S (position rt)))
  end.

(** [HMPNN.forward], in the mode [training] the module is in (set by
    [model.train()] and [model.eval()]) and from the runtime state [rt]. *)
Definition HMPNN_forward {F} `{Scalar F} (messages : HMPNN_messages F)
    (st : store F) (self : pyobj) (training : bool)
    (x_0 x_1 incidence_1 : tensor F) (rt : runtime F)
  : outcome (tensor F * runtime F) :=
  let* to_hidden_linear := getattr self "to_hidden_linear" in
  let* x_0 := Sequential_forward st to_hidden_linear x_0 in
  let* x_1 := Sequential_forward st to_hidden_linear x_1 in
  let* layers := layers_of self in
  let* xg :=
    for_each (HMPNN_call messages st training incidence_1) layers (x_0, x_1, rt) in
  HMPNN_head st self xg.

(** ** Stacks of layers

    [stack_of self cls args n]: [self.layers] holds [n] layer objects, each
    of class [cls] and constructed from the arguments [args]. *)
Definition stack_of (self : pyobj) (cls : string) (args : list (string * pyobj))
    (n : nat) : Prop :=
  exists items,
    layers_of self = Ok items /\
    length items = n /\
    Forall (fun layer => ctor_args layer = Ok (cls, args)) items.

(** [in_sequence self call s0 head result]: the forward pass returns [y]
    exactly when the layers of [self.layers], called in their order - the
    first on [s0], each later one on what the layer before it returned -
    lead to some [h], and the statements after the loop turn [h] into [y]. *)
Definition in_sequence {S Y} (self : pyobj) (call : pyobj -> S -> outcome S)
    (s0 : S) (head : S -> outcome Y) (result : outcome Y) : Prop :=
  forall y,
    result = Ok y <->
    exists items h,
      layers_of self = Ok items /\ chain call items s0 h /\ head h = Ok y.

(** ** Which parameters an optimizer built from [model.parameters()] trains

    [trains_only self linears]: the layers of [self] are kept in a plain
    Python list; [self.parameters()] yields the parameters of the linear
    layers named [linears] and no other; and whatever the optimizer steps
    compute, they leave every parameter of every layer of [self.layers] as
    it was. *)
Definition trains_only (self : pyobj) (linears : list string) : Prop :=
  (exists layers, getattr self "layers" = Ok (PyList layers)) /\
  parameters self =
    flat_map (fun name => match getattr self name with
                          | Ok m => parameters m
                          | Raise _ => []
                          end) linears /\
  forall lr opt, Adam (parameters self) lr = Ok opt ->
    forall F (updates : list (param_id -> tensor F -> tensor F)) (st : store F)
           layers p,
      getattr self "layers" = Ok layers ->
      In p (held_parameters layers) ->
      steps updates opt st !! p = st !! p.

(** [constructs c next P]: run from [next], the constructor returns an
    object, and [P] holds of it. *)
Definition constructs {A} (c : ctor A) (next : param_id) (P : A -> Prop) : Prop :=
  exists a next', c next = Ok (a, next') /\ P a.

(** ** Shapes *)

(** A two-dimensional tensor with [n] rows, in its size and in its data *)
Definition has_rows {F} (x : tensor F) (n : nat) : Prop :=
  match x with
  | Mat t => fst (size t) = n /\ length (data t) = n
  | Vec _ => False
  end.

(** The parameters of the linear layer [m] have the shapes
    [torch.nn.Linear(in_features, out_features)] gives them: a weight of
    shape [[out_features, in_features]] and a bias of [out_features]
    entries. *)
Definition linear_has_shape {F} (st : store F) (m : pyobj)
    (in_features out_features : nat) : Prop :=
  exists w b,
    get_parameter st m "weight" = Ok (Mat w) /\
    get_parameter st m "bias" = Ok (Vec b) /\
    size w = (out_features, in_features) /\
    length (data w) = out_features /\
    length b = out_features.

(** A row of probabilities: entries in [[0, 1]] that sum to 1 *)
Definition is_distribution (row : list R) : Prop :=
  Forall (fun p => (0 <= p <= 1)%R) row /\ rsum row = 1%R.

(** A row of floats that are probabilities *)
Definition probabilities (row : list fl) : Prop :=
  exists ps, row = map Fin ps /\ is_distribution ps.

(** The logits [[a, b]] of a row for which the softmax is not a number: one
    of them is NaN or plus infinity, or both are minus infinity. *)
Definition undefined_logits (a b : fl) : Prop :=
  a = NaN \/ b = NaN \/ a = Inf false \/ b = Inf false \/
  (a = Inf true /\ b = Inf true).

(** [soft_row logits row]: [row] is what the softmax makes of the two
    [logits] of an edge.  It is [[NaN, NaN]] when the logits are undefined;
    otherwise its two entries are numbers between 0 and 1, the larger logit
    has the larger entry, and equal logits have 1/2 each. *)
Inductive soft_row : list fl -> list fl -> Prop :=
| soft_row_nan a b :
    undefined_logits a b -> soft_row [a; b] [NaN; NaN]
| soft_row_scores a b p q :
    ~ undefined_logits a b ->
    (0 <= p <= 1)%R -> (0 <= q <= 1)%R ->
    (fl_le a b -> (p <= q)%R) ->
    (fl_le b a -> (q <= p)%R) ->
    (a = b -> p = (1 / 2)%R /\ q = (1 / 2)%R) ->
    soft_row [a; b] [Fin p; Fin q].

(** The two entries of a row of numbers sum to 1. *)
Definition sums_to_one (row : list fl) : Prop :=
  forall p q, row = [Fin p; Fin q] -> (p + q = 1)%R.

(** [softmax_of logits row]: [row] is the softmax of two [logits] that are
    numbers, computed without rounding. *)
Definition softmax_of (logits row : list fl) : Prop :=
  forall a b, logits = [Fin a; Fin b] ->
    row = [Fin (exp a / (exp a + exp b)); Fin (exp b / (exp a + exp b))]%R.

(** [SCoNeNN_output fwd st self x_1 up_lap1 down_lap1 iden n_edges t]: the
    forward pass returns [t], of shape [[n_edges, 2]]; the layers lead to
    features [h], the linear layer gives them the logits [z], and every row
    of [t] is what the softmax makes of the row of [z] of the same edge; in
    exact arithmetic it is the softmax of that row. *)
Definition SCoNeNN_output `{Scalar fl} `{float32 : Float32}
    (fwd : SCoNeLayer_call)
    (st : store fl) (self : pyobj) (x_1 up_lap1 down_lap1 iden : tensor fl)
    (n_edges : nat) (t : tensor2 fl) : Prop :=
  SCoNeNN_forward fwd st self x_1 up_lap1 down_lap1 iden = Ok (Mat t) /\
  size t = (n_edges, 2) /\
  length (data t) = n_edges /\
  exists layers h linear z,
    layers_of self = Ok layers /\
    for_each (fun layer x_1 => fwd st layer x_1 up_lap1 down_lap1 iden)
             layers x_1 = Ok h /\
    getattr self "linear" = Ok linear /\
    Linear_forward st linear h = Ok (Mat z) /\
    Forall2 soft_row (data z) (data t) /\
    (is_exact float32 -> Forall2 softmax_of (data z) (data t)).

(** A two-dimensional tensor of size [[n, c]] with [n] rows of data *)
Definition has_shape {F} (x : tensor F) (n c : nat) : Prop :=
  match x with
  | Mat t => size t = (n, c) /\ length (data t) = n
  | Vec _ => False
  end.

(** ** Pooling without NaN *)

Definition nan_free (x : tensor fl) : Prop :=
  match x with
  | Vec v => Forall (fun e => isnan e = false) v
  | Mat t => Forall (Forall (fun e => isnan e = false)) (data t)
  end.

(** The features of a dimension the complex has no cell of: no row. *)
Definition empty_dimension (x : tensor fl) : Prop :=
  match x with
  | Mat t => data t = []
  | Vec _ => False
  end.

(** A one-dimensional tensor of zeros *)
Definition zeros (x : tensor fl) : Prop :=
  match x with
  | Vec v => Forall (fun e => e = Fin 0) v
  | Mat _ => False
  end.

(** [pooled st self name x m]: [m] is what the forward pass keeps of the
    features [x] of one dimension: the linear layer [self.name], the mean
    over the cells, and the replacement of NaN by 0. *)
Definition pooled (st : store fl) (self : pyobj) (name : string)
    (x m : tensor fl) : Prop :=
  exists lin z,
    getattr self name = Ok lin /\
    Linear_forward st lin x = Ok z /\
    m = cells_mean z.

(** [y = (a + b) + c] *)
Definition sum3 (a b c y : tensor fl) : Prop :=
  exists s, tensor_add a b = Ok s /\ tensor_add s c = Ok y.

(** The three means hold no NaN, and the mean of an empty dimension is a
    vector of zeros. *)
Definition safe_means (x_0 x_1 x_2 m_0 m_1 m_2 : tensor fl) : Prop :=
  nan_free m_0 /\ nan_free m_1 /\ nan_free m_2 /\
  (empty_dimension x_0 -> zeros m_0) /\
  (empty_dimension x_1 -> zeros m_1) /\
  (empty_dimension x_2 -> zeros m_2).

(** [after_layers self call s0 h]: the layers of [self.layers], called in
    their order from [s0], return the features [h]. *)
Definition after_layers {S} (self : pyobj) (call : pyobj -> S -> outcome S)
    (s0 h : S) : Prop :=
  exists items, layers_of self = Ok items /\ chain call items s0 h.

(** [y] is the sum [(m_a + m_b) + m_c] of the three means, and it is the sum
    of the other two means alone whenever one dimension is empty. *)
Definition summed_without_empty (x_a x_b x_c m_a m_b m_c y : tensor fl) : Prop :=
  sum3 m_a m_b m_c y /\
  (empty_dimension x_a -> tensor_add m_b m_c = Ok y) /\
  (empty_dimension x_b -> tensor_add m_a m_c = Ok y) /\
  (empty_dimension x_c -> tensor_add m_a m_b = Ok y).

(** ** What a forward pass reads

    [agree_on st st' ids]: the two stores give the parameters [ids] the same
    values. *)
Definition agree_on {F} (st st' : store F) (ids : list param_id) : Prop :=
  forall p, In p ids -> st !! p = st' !! p.

(** The parameters of a linear layer, as [Linear_forward] looks them up *)
Definition linear_ids (m : pyobj) : list param_id :=
  flat_map (fun name => match getattr m name with
                        | Ok (Param id) => [id]
                        | _ => []
                        end) ["weight"; "bias"].

(** The parameters of the linear layers of [self] named [linears] *)
Definition head_ids (self : pyobj) (linears : list string) : list param_id :=
  flat_map (fun name => match getattr self name with
                        | Ok m => linear_ids m
                        | Raise _ => []
                        end) linears.

(** [reads_only forward same_calls ids]: [forward], a function of the layer
    calls and of the store, reads the parameters [ids] and what its layers
    read: whenever the layer calls are the same ([same_calls]) on two stores
    that give some parameters [layer_ids] the same values, [forward] returns
    the same on two stores that give [layer_ids] and [ids] the same
    values. *)
Definition reads_only {L Y} (forward : L -> store fl -> outcome Y)
    (same_calls : L -> store fl -> store fl -> Prop)
    (ids : list param_id) : Prop :=
  forall (fwd : L) (layer_ids : list param_id),
    (forall st st', agree_on st st' layer_ids -> same_calls fwd st st') ->
    forall st st', agree_on st st' (layer_ids ++ ids) ->
                   forward fwd st = forward fwd st'.

(** ** A forward pass and the state it runs in

    [fresh rt self]: the runtime state between two passes: the loop starts at
    the first layer, and every layer of [self.layers] has its buffers. *)
Definition fresh {F} (rt : runtime F) (self : pyobj) : Prop :=
  position rt = 0 /\
  exists layers, layers_of self = Ok layers /\ length (buffers rt) = length layers.

(** [stateless messages st self training x_0 x_1 incidence_1]: a forward
    pass from a fresh runtime state leaves that state as it was; its output
    does not depend on the state of the generator; so a pass and the pass
    that follows it return the same output. *)
Definition stateless {F} `{Scalar F} (messages : HMPNN_messages F)
    (st : store F) (self : pyobj) (training : bool)
    (x_0 x_1 incidence_1 : tensor F) : Prop :=
  forall rt y rt',
    fresh rt self ->
    HMPNN_forward messages st self training x_0 x_1 incidence_1 rt = Ok (y, rt') ->
    rt' = rt /\
    (forall g, HMPNN_forward messages st self training x_0 x_1 incidence_1
                 (Runtime g (buffers rt) 0)
               = Ok (y, Runtime g (buffers rt) 0)) /\
    HMPNN_forward messages st self training x_0 x_1 incidence_1 rt' = Ok (y, rt').

(** A batch was counted by both normalisations of a layer. *)
Definition counted {F} (b b' : layer_buffers F) : Prop :=
  num_batches_tracked (node_batchnorm b')
    = S (num_batches_tracked (node_batchnorm b)) /\
  num_batches_tracked (hyperedge_batchnorm b')
    = S (num_batches_tracked (hyperedge_batchnorm b)).

(** [advanced n rt rt']: the [n] layers called from [rt] on have each
    counted a batch; the buffers of the other layers are as they were; the
    generator is further along the same sequence. *)
Definition advanced {F} (n : nat) (rt rt' : runtime F) : Prop :=
  position rt' = position rt + n /\
  length (buffers rt') = length (buffers rt) /\
  tape (rng rt') = tape (rng rt) /\
  offset (rng rt) <= offset (rng rt') /\
  forall i,
    (position rt <= i < position rt + n ->
     forall b, buffers rt !! i = Some b ->
               exists b', buffers rt' !! i = Some b' /\ counted b b') /\
    (~ position rt <= i < position rt + n -> buffers rt' !! i = buffers rt !! i).

(** [writes_state messages st self x_0 x_1 incidence_1]: a forward pass in
    training mode that returns has counted a batch in the buffers of every
    layer. *)
Definition writes_state {F} `{Scalar F} (messages : HMPNN_messages F)
    (st : store F) (self : pyobj) (x_0 x_1 incidence_1 : tensor F) : Prop :=
  forall rt y rt',
    fresh rt self ->
    HMPNN_forward messages st self true x_0 x_1 incidence_1 rt = Ok (y, rt') ->
    tape (rng rt') = tape (rng rt) /\
    offset (rng rt) <= offset (rng rt') /\
    position rt' = 0 /\
    Forall2 counted (buffers rt) (buffers rt').

End Models.

(* ===================================================================== *)
(** * A notebook run

    The cells of a notebook, run from top to bottom, as one script.  A script
    leaves a trace: the calls it makes into the libraries, with their
    outcome, what it prints, and the files the run leaves on disk.  The
    libraries are a parameter: whatever they compute, a call returns or
    raises. *)

Module Notebook.

Inductive call : Type :=
| Load                               (* the dataset loader *)
| Build                              (* Laplacian and incidence matrices *)
| Split                              (* train_test_split *)
| Instantiate                        (* the model class and its optimizer *)
| TrainStep (epoch sample : nat)     (* forward, loss, backward, optimizer step *)
| Validate (epoch : nat)             (* forward and loss on the validation mask *)
| Test (epoch sample : nat).         (* forward on the held-out test data *)

Inductive event : Type :=
| Returned (c : call)
| Failed (c : call) (e : exn)
| Loss (epoch sample : nat) (loss : Q)       (* [epoch_loss.append(loss.item())] *)
| PrintLoss (epoch : nat) (mean : option Q)  (* [print(f"Epoch: ... loss: ...")] *)
| PrintTest (epoch : nat) (value : Q)        (* [print(f"Test_loss: ...")] *)
| Wrote (path : string).                     (* a file left on disk *)

(** A script: its trace, and its result or the error that ended it. *)
Definition script (A : Type) : Type := (list event * outcome A)%type.

Definition ret {A} (a : A) : script A := ([], Ok a).

Definition bind {A B} (m : script A) (k : A -> script B) : script B :=
  match m with
  | (t, Ok a) => let (t', r) := k a in (t ++ t', r)
  | (t, Raise e) => (t, Raise e)
  end.

Definition emit (ev : event) : script unit := ([ev], Ok tt).

Definition raise {A} (e : exn) : script A := ([], Raise e).

(** A call into a library: it returns, or its error is raised. *)
Definition call_lib {A} (c : call) (o : outcome A) : script A :=
  match o with
  | Ok a => ([Returned c], Ok a)
  | Raise e => ([Failed c e], Raise e)
  end.

Notation "'run' x ':=' m 'in' k" := (bind m (fun x => k))
  (at level 10, x name, m at level 100, k at level 200).

Notation "m ';;' k" := (bind m (fun _ => k))
  (at level 100, k at level 200, right associativity).

(** What a notebook uses of the libraries. *)
Record library (Data Model Sample : Type) : Type := Library {
  loader_files : list string -> list string;
  load_dataset : outcome Data;
  build_neighborhoods : Data -> outcome Data;
  train_test_split : Data -> outcome (list Sample * list Sample);
  instantiate : bool -> Data -> outcome Model;
  train_step : Model -> Sample -> outcome (Q * Model);
  evaluate : Model -> Sample -> outcome Q
}.
Arguments loader_files {Data Model Sample} l fs.
Arguments load_dataset {Data Model Sample} l.
Arguments build_neighborhoods {Data Model Sample} l d.
Arguments train_test_split {Data Model Sample} l d.
Arguments instantiate {Data Model Sample} l att d.
Arguments train_step {Data Model Sample} l m x.
Arguments evaluate {Data Model Sample} l m x.

(** [np.mean(epoch_loss)]: nan for an empty list *)
Definition np_mean (l : list Q) : option Q :=
  match l with
  | [] => None
  | _ => Some (fold_right Qplus 0%Q l / inject_Z (Z.of_nat (length l)))%Q
  end.

Definition emit_all (evs : list event) : script unit := (evs, Ok tt).

Section Loops.
Context {Data Model Sample : Type} (lib : library Data Model Sample).

(** [for ... in zip(train data): zero_grad; forward; loss; backward; step;
    epoch_loss.append(loss.item())] *)
Fixpoint train_pass (epoch : nat) (samples : list Sample) (idx : nat)
    (model : Model) (epoch_loss : list Q) : script (Model * list Q) :=
  match samples with
  | [] => ret (model, epoch_loss)
  | x :: rest =>
      run r := call_lib (TrainStep epoch idx) (train_step lib model x) in
      emit (Loss epoch idx (fst r)) ;;
      train_pass epoch rest (S idx) (snd r) (epoch_loss ++ [fst r])
  end.

(** [with torch.no_grad(): for ... in zip(test data): test_loss = ...] *)
Fixpoint test_pass (epoch : nat) (samples : list Sample) (idx : nat)
    (model : Model) (test_loss : option Q) : script (option Q) :=
  match samples with
  | [] => ret test_loss
  | x :: rest =>
      run v := call_lib (Test epoch idx) (evaluate lib model x) in
      test_pass epoch rest (S idx) model (Some v)
  end.

(** [if epoch % test_interval == 0: ...; print(f"Test_loss: {test_loss}")] *)
Definition maybe_test (test_interval epoch : nat) (test : list Sample)
    (model : Model) (test_loss : option Q) : script (option Q) :=
  if test_interval =? 0 then raise (ZeroDivisionError "integer modulo by zero")
  else if epoch mod test_interval =? 0 then
    run test_loss := test_pass epoch test 0 model test_loss in
    match test_loss with
    | Some v => emit (PrintTest epoch v) ;; ret test_loss
    | None => raise (NameError "test_loss")
    end
  else ret test_loss.

(** [for epoch in range(1, num_epochs + 1): ...] *)
Fixpoint epochs (test_interval : nat) (numbers : list nat)
    (train test : list Sample) (model : Model) (test_loss : option Q)
  : script (Model * option Q) :=
  match numbers with
  | [] => ret (model, test_loss)
  | epoch :: rest =>
      run r := train_pass epoch train 0 model [] in
      emit (PrintLoss epoch (np_mean (snd r))) ;;
      run test_loss := maybe_test test_interval epoch test (fst r) test_loss in
      epochs test_interval rest train test (fst r) test_loss
  end.

Definition training_loop (test_interval num_epochs : nat)
    (train test : list Sample) (model : Model) : script (Model * option Q) :=
  epochs test_interval (seq 1 num_epochs) train test model None.

End Loops.

(** ** The five notebooks *)

Section Notebooks.
Context {Data Model Sample : Type} (lib : library Data Model Sample).

(** The first cells: the dataset loader, with the files it leaves on disk. *)
Definition load_cell (fs : list string) : script Data :=
  emit_all (map Wrote (loader_files lib fs)) ;;
  call_lib Load (load_dataset lib).

(** scn2_train.ipynb: shrec_16, normalized Laplacians of rank 0, 1 and 2,
    [SCN2] and Adam, the split, 8 epochs tested every 2. *)
Definition scn2_notebook (fs : list string) : script (Model * option Q) :=
  run shrec := load_cell fs in
  run data := call_lib Build (build_neighborhoods lib shrec) in
  run model := call_lib Instantiate (instantiate lib false data) in
  run sets := call_lib Split (train_test_split lib data) in
  training_loop lib 2 8 (fst sets) (snd sets) model.

(** The SCA notebook: shrec_16, down Laplacians and incidence matrices, the
    split, [AMPSSCA] and Adam, 6 epochs tested every epoch. *)
Definition sca_notebook (fs : list string) : script (Model * option Q) :=
  run shrec := load_cell fs in
  run data := call_lib Build (build_neighborhoods lib shrec) in
  run sets := call_lib Split (train_test_split lib data) in
  run model := call_lib Instantiate (instantiate lib false data) in
  training_loop lib 1 6 (fst sets) (snd sets) model.

(** The CAN notebook: shrec_16 lifted to cell complexes, the Laplacians built
    in two cells, [CAN] without attention trained for 10 epochs tested every
    2, then [CAN] with attention trained the same way. *)
Definition can_notebook (fs : list string) : script (Model * option Q) :=
  run shrec := load_cell fs in
  run data := call_lib Build (build_neighborhoods lib shrec) in
  run data := call_lib Build (build_neighborhoods lib data) in
  run model := call_lib Instantiate (instantiate lib false data) in
  run sets := call_lib Split (train_test_split lib data) in
  run trained := training_loop lib 2 10 (fst sets) (snd sets) model in
  run model := call_lib Instantiate (instantiate lib true data) in
  epochs lib 2 (seq 1 10) (fst sets) (snd sets) model (snd trained).

End Notebooks.

(** A notebook that trains on the whole training set at once: one step per
    epoch on the batch of all training indices. *)
Record batch_library (Data Model Sample : Type) : Type := BatchLibrary {
  base : library Data Model Sample;
  train_batch : Model -> list Sample -> outcome (Q * Model);
  evaluate_batch : Model -> list Sample -> outcome Q;
  planetoid_masks : Data -> list Sample * list Sample * list Sample
}.
Arguments base {Data Model Sample} b.
Arguments train_batch {Data Model Sample} b m xs.
Arguments evaluate_batch {Data Model Sample} b m xs.
Arguments planetoid_masks {Data Model Sample} b d.

Definition on_batches {Data Model Sample} (blib : batch_library Data Model Sample)
  : library Data Model (list Sample) :=
  {| loader_files := loader_files (base blib);
     load_dataset := load_dataset (base blib);
     build_neighborhoods := build_neighborhoods (base blib);
     train_test_split := fun d =>
       let* sets := train_test_split (base blib) d in
       Ok ([fst sets], [snd sets]);
     instantiate := instantiate (base blib);
     train_step := train_batch blib;
     evaluate := evaluate_batch blib |}.

Section BatchNotebooks.
Context {Data Model Sample : Type} (blib : batch_library Data Model Sample).

(** scone_train_bis.ipynb: karate_club, the up and down Laplacians of rank
    1, labels and split, [SCoNeNN] and Adam, 6 epochs on the whole training
    set, tested every 2. *)
Definition scone_notebook (fs : list string) : script (Model * option Q) :=
  run dataset := load_cell (on_batches blib) fs in
  run data := call_lib Build (build_neighborhoods (base blib) dataset) in
  run sets := call_lib Split (train_test_split (on_batches blib) data) in
  run model := call_lib Instantiate (instantiate (base blib) false data) in
  training_loop (on_batches blib) 2 6 (fst sets) (snd sets) model.

(** [for epoch in range(100)] of the HMPNN notebook: a training step on the
    training mask, then the validation loss, then the line of the epoch.  The
    events carry the number the line prints, [epoch + 1]. *)
Fixpoint hmpnn_epochs (numbers : list nat) (train val : list Sample)
    (model : Model) : script Model :=
  match numbers with
  | [] => ret model
  | epoch :: rest =>
      run r := call_lib (TrainStep epoch 0) (train_batch blib model train) in
      emit (Loss epoch 0 (fst r)) ;;
      run val_loss := call_lib (Validate epoch) (evaluate_batch blib (snd r) val) in
      emit (PrintLoss epoch (Some (fst r))) ;;
      hmpnn_epochs rest train val (snd r)
  end.

(** The HMPNN notebook: Planetoid("." , "cora"), the incidence matrix,
    [HMPNN] and Adam, 100 epochs with validation, and the test cell. *)
Definition hmpnn_notebook (fs : list string) : script Model :=
  run dataset := load_cell (base blib) fs in
  run data := call_lib Build (build_neighborhoods (base blib) dataset) in
  run model := call_lib Instantiate (instantiate (base blib) false data) in
  let '(train, val, test) := planetoid_masks blib data in
  run model := hmpnn_epochs (seq 1 100) train val model in
  run test_loss := call_lib (Test 100 0) (evaluate_batch blib model test) in
  emit (PrintTest 100 test_loss) ;;
  ret model.

End BatchNotebooks.

(** ** What a trace tells *)

(** The calls that returned, in their order *)
Definition calls (tr : list event) : list call :=
  flat_map (fun ev => match ev with Returned c => [c] | _ => [] end) tr.

Definition is_train (c : call) : bool :=
  match c with TrainStep _ _ => true | _ => false end.

Definition is_test (c : call) : bool :=
  match c with Test _ _ => true | _ => false end.

(** No evaluation on the test data is followed by a training step. *)
Definition evaluation_after_training (tr : list event) : Prop :=
  forall i j c c',
    nth_error (calls tr) i = Some c -> is_test c = true ->
    nth_error (calls tr) j = Some c' -> is_train c' = true ->
    j < i.

(** The calls of the epochs of a training loop: in every epoch one step per
    training sample, then, when the epoch is a multiple of the test
    interval, one evaluation per test sample. *)
Definition epoch_schedule (test_interval n_train n_test epoch : nat) : list call :=
  map (TrainStep epoch) (seq 0 n_train) ++
  (if epoch mod test_interval =? 0 then map (Test epoch) (seq 0 n_test) else []).

Definition loop_schedule (test_interval num_epochs n_train n_test : nat) : list call :=
  flat_map (epoch_schedule test_interval n_train n_test) (seq 1 num_epochs).

(** The calls of the epochs of the HMPNN notebook, and its test cell *)
Definition hmpnn_schedule (num_epochs : nat) : list call :=
  flat_map (fun epoch => [TrainStep epoch 0; Validate epoch]) (seq 1 num_epochs)
  ++ [Test num_epochs 0].

(** The mean losses the run printed, epoch after epoch *)
Definition reported_losses (tr : list event) : list (option Q) :=
  flat_map (fun ev => match ev with PrintLoss _ m => [m] | _ => [] end) tr.

(** The losses of the training steps of one epoch *)
Definition losses_of (epoch : nat) (tr : list event) : list Q :=
  flat_map (fun ev => match ev with
                      | Loss e _ l => if e =? epoch then [l] else []
                      | _ => []
                      end) tr.

(** Every reported loss is below the one reported before it. *)
Definition loss_decreases (reported : list (option Q)) : Prop :=
  forall i a b,
    nth_error reported i = Some (Some a) ->
    nth_error reported (S i) = Some (Some b) ->
    (b < a)%Q.

(** A trace that reports no loss and records none *)
Definition silent_trace (tr : list event) : Prop :=
  (forall e v, ~ In (PrintLoss e v) tr) /\ (forall e, losses_of e tr = []).

(** A trace without a failed call *)
Definition no_failure (tr : list event) : Prop :=
  forall c e, ~ In (Failed c e) tr.

(** A failed call ends the run: nothing follows it in the trace, and the run
    ends with the error the call raised. *)
Definition uncaught {A} (s : script A) : Prop :=
  forall before c e after,
    fst s = before ++ Failed c e :: after ->
    after = [] /\ snd s = Raise e.

(** ** Where a run stops

    [stops_at s c e]: the run [s] ends at the library call [c], which raised
    [e]: the error is the result of the run, the failed call is its last
    event, and no call failed before it. *)
Definition stops_at {A} (s : script A) (c : call) (e : exn) : Prop :=
  snd s = Raise e /\
  exists tr, fst s = tr ++ [Failed c e] /\ no_failure tr.

(** [at_cell nb c o rest]: a cell of the notebook run [nb] makes the library
    call [c], whose outcome is [o].  When the call raises, the run stops at
    it with its error; when it returns [a], [rest a] tells of the cells
    after it. *)
Definition at_cell {A B} (nb : script B) (c : call) (o : outcome A)
    (rest : A -> Prop) : Prop :=
  match o with
  | Raise e => stops_at nb c e
  | Ok a => rest a
  end.

Section Raising.
Context {Data Model Sample : Type} (lib : library Data Model Sample).

(** The library raises [e] in the training step on sample [k] of a pass: the
    steps on the samples before it returned, the last of them handing on the
    model [m] the failing step is called with. *)
Definition train_step_raises (epoch : nat) (train : list Sample) (model : Model)
    (k : nat) (e : exn) : Prop :=
  exists x t m epoch_loss,
    nth_error train k = Some x /\
    train_pass lib epoch (firstn k train) 0 model [] = (t, Ok (m, epoch_loss)) /\
    train_step lib m x = Raise e.

(** The library raises [e] in the evaluation of test sample [k]: the
    evaluations of the samples before it returned. *)
Definition evaluation_raises (epoch : nat) (test : list Sample) (model : Model)
    (test_loss : option Q) (k : nat) (e : exn) : Prop :=
  exists x t test_loss',
    nth_error test k = Some x /\
    test_pass lib epoch (firstn k test) 0 model test_loss = (t, Ok test_loss') /\
    evaluate lib model x = Raise e.

(** The library raises [e] at the call [c] of a training loop: the epochs
    before the one of [c] ran to their end, leaving the model [m]; then
    either [c] is a training step of the epoch, or the training steps of the
    epoch returned, the epoch is one that is tested, and [c] is an evaluation
    on the test data. *)
Definition loop_call_raises (test_interval : nat) (numbers : list nat)
    (train test : list Sample) (model : Model) (test_loss : option Q)
    (c : call) (e : exn) : Prop :=
  exists i epoch t m test_loss',
    nth_error numbers i = Some epoch /\
    epochs lib test_interval (firstn i numbers) train test model test_loss
      = (t, Ok (m, test_loss')) /\
    ((exists k, c = TrainStep epoch k /\ train_step_raises epoch train m k e) \/
     (exists k t1 m1 epoch_loss,
        c = Test epoch k /\
        train_pass lib epoch train 0 m [] = (t1, Ok (m1, epoch_loss)) /\
        test_interval <> 0 /\ epoch mod test_interval = 0 /\
        evaluation_raises epoch test m1 test_loss' k e)).

End Raising.

(** The same for the loop of the HMPNN notebook: the epochs before ran to
    their end, and the library raises in the training step of the epoch or,
    that step having returned, in the validation. *)
Definition hmpnn_call_raises {Data Model Sample}
    (blib : batch_library Data Model Sample) (numbers : list nat)
    (train val : list Sample) (model : Model) (c : call) (e : exn) : Prop :=
  exists i epoch t m,
    nth_error numbers i = Some epoch /\
    hmpnn_epochs blib (firstn i numbers) train val model = (t, Ok m) /\
    ((c = TrainStep epoch 0 /\ train_batch blib m train = Raise e) \/
     (exists r, c = Validate epoch /\
                train_batch blib m train = Ok r /\
                evaluate_batch blib (snd r) val = Raise e)).

(** ** Errors in the five notebooks

    One proposition per notebook, cell by cell as the script runs them: at
    every library call the run stops with the error the call raises, and the
    run stops at whatever call of its training loop the library raises in. *)

Definition scn2_errors {Data Model Sample} (lib : library Data Model Sample)
    (fs : list string) : Prop :=
  let nb := scn2_notebook lib fs in
  at_cell nb Load (load_dataset lib) (fun shrec =>
  at_cell nb Build (build_neighborhoods lib shrec) (fun data =>
  at_cell nb Instantiate (instantiate lib false data) (fun model =>
  at_cell nb Split (train_test_split lib data) (fun sets =>
  forall c e,
    loop_call_raises lib 2 (seq 1 8) (fst sets) (snd sets) model None c e ->
    stops_at nb c e)))).

Definition sca_errors {Data Model Sample} (lib : library Data Model Sample)
    (fs : list string) : Prop :=
  let nb := sca_notebook lib fs in
  at_cell nb Load (load_dataset lib) (fun shrec =>
  at_cell nb Build (build_neighborhoods lib shrec) (fun data =>
  at_cell nb Split (train_test_split lib data) (fun sets =>
  at_cell nb Instantiate (instantiate lib false data) (fun model =>
  forall c e,
    loop_call_raises lib 1 (seq 1 6) (fst sets) (snd sets) model None c e ->
    stops_at nb c e)))).

Definition can_errors {Data Model Sample} (lib : library Data Model Sample)
    (fs : list string) : Prop :=
  let nb := can_notebook lib fs in
  at_cell nb Load (load_dataset lib) (fun shrec =>
  at_cell nb Build (build_neighborhoods lib shrec) (fun data =>
  at_cell nb Build (build_neighborhoods lib data) (fun data =>
  at_cell nb Instantiate (instantiate lib false data) (fun model =>
  at_cell nb Split (train_test_split lib data) (fun sets =>
  (forall c e,
     loop_call_raises lib 2 (seq 1 10) (fst sets) (snd sets) model None c e ->
     stops_at nb c e) /\
  forall t trained,
    training_loop lib 2 10 (fst sets) (snd sets) model = (t, Ok trained) ->
    at_cell nb Instantiate (instantiate lib true data) (fun model =>
    forall c e,
      loop_call_raises lib 2 (seq 1 10) (fst sets) (snd sets) model
        (snd trained) c e ->
      stops_at nb c e)))))).

Definition scone_errors {Data Model Sample}
    (blib : batch_library Data Model Sample) (fs : list string) : Prop :=
  let nb := scone_notebook blib fs in
  at_cell nb Load (load_dataset (base blib)) (fun dataset =>
  at_cell nb Build (build_neighborhoods (base blib) dataset) (fun data =>
  at_cell nb Split (train_test_split (on_batches blib) data) (fun sets =>
  at_cell nb Instantiate (instantiate (base blib) false data) (fun model =>
  forall c e,
    loop_call_raises (on_batches blib) 2 (seq 1 6) (fst sets) (snd sets)
      model None c e ->
    stops_at nb c e)))).

Definition hmpnn_errors {Data Model Sample}
    (blib : batch_library Data Model Sample) (fs : list string) : Prop :=
  let nb := hmpnn_notebook blib fs in
  at_cell nb Load (load_dataset (base blib)) (fun dataset =>
  at_cell nb Build (build_neighborhoods (base blib) dataset) (fun data =>
  at_cell nb Instantiate (instantiate (base blib) false data) (fun model =>
  let '(train, val, test) := planetoid_masks blib data in
  (forall c e,
     hmpnn_call_raises blib (seq 1 100) train val model c e ->
     stops_at nb c e) /\
  forall t trained,
    hmpnn_epochs blib (seq 1 100) train val model = (t, Ok trained) ->
    at_cell nb (Test 100 0) (evaluate_batch blib trained test) (fun _ => True)))).

End Notebook.

(* ===================================================================== *)
(** * The cells before the model: labels and neighborhood lists *)

Module Preprocessing.
Import Numpy Torch Complexes TorchModule Models.

(** [np.stack(arrays)] of one-dimensional arrays: numpy raises [ValueError]
    on an empty list and on arrays of different lengths. *)
Definition np_stack {A} (arrays : list (list A)) : outcome (tensor2 A) :=
  match arrays with
  | [] => Raise (ValueError "need at least one array to stack")
  | first :: _ =>
      if forallb (fun a => length a =? length first) arrays
      then Ok (Tensor2 (length arrays, length first) arrays)
      else Raise (ValueError "all input arrays must have the same shape")
  end.

(** [torch.tensor(rows)] of a list of lists: one-dimensional and empty for
    an empty list, [ValueError] on rows of different lengths. *)
Definition torch_tensor {A} (rows : list (list A)) : outcome (tensor A) :=
  match rows with
  | [] => Ok (Vec [])
  | first :: _ =>
      if forallb (fun a => length a =? length first) rows
      then Ok (Mat (Tensor2 (length rows, length first) rows))
      else Raise (ValueError "expected sequence of equal lengths")
  end.

Section Labels.
Context {K F : Type}.
(** [v > 0] on a feature value *)
Variable positive : F -> bool.

(** The body of [for pair in xy]: the first feature is the input, the sign
    of the second is the label. *)
Definition label_pair (pair : list F) (acc : list (list F) * list (list Z))
  : outcome (list (list F) * list (list Z)) :=
  let '(x_1, y) := acc in
  let* first := getitem pair 0 in
  let x_1 := x_1 ++ [[first]] in
  let* second := getitem pair 1 in
  if positive second then Ok (x_1, y ++ [[1; 0]%Z])
  else Ok (x_1, y ++ [[0; 1]%Z]).

(** The cell "Defining Labels and Preparing Input" of scone_train_bis.ipynb,
    from the items of [dataset.get_simplex_attributes("edge_feat")]. *)
Definition edge_labels (edge_feat : list (K * list F))
  : outcome (tensor F * tensor Z) :=
  let xy := fold_left (fun xy kv => xy ++ [snd kv]) edge_feat [] in
  let* xy := np_stack xy in
  let* acc := for_each label_pair (data xy) ([], []) in
  let* x_1 := np_stack (fst acc) in
  let* y := torch_tensor (snd acc) in
  Ok (Mat x_1, y).

End Labels.

(** A label row: [[1, 0]] or [[0, 1]] *)
Definition one_hot (row : list Z) : Prop :=
  row = [1; 0]%Z \/ row = [0; 1]%Z.

End Preprocessing.

(* ===================================================================== *)
(** * The neighborhood cells of the SCA and of the HMPNN notebook *)

Module Neighborhoods.
Import Numpy Torch Complexes Models.

(** The lists the SCA notebook builds, one entry per complex *)
Record sca_lists : Type := ScaLists {
  down_lap1_list : list (tensor2 Z);
  down_lap2_list : list (tensor2 Z);
  incidence1_t_list : list (tensor2 Z);
  incidence2_t_list : list (tensor2 Z)
}.

(** The body of [for sc in scs]: the down Laplacians of rank 1 and 2, the
    transposed incidence matrices of rank 1 and 2, their conversion to
    torch, and the four [append]. *)
Definition sca_neighborhoods_of (sc : complex) (acc : sca_lists)
  : outcome sca_lists :=
  let* down_lap1 := down_laplacian_matrix sc 1 in
  let* down_lap2 := down_laplacian_matrix sc 2 in
  let* B_1 := incidence_matrix sc 1 in
  let incidence_1t := transpose B_1 in
  let* B_2 := incidence_matrix sc 2 in
  let incidence_2t := transpose B_2 in
  let down_lap1 := to_torch down_lap1 in
  let down_lap2 := to_torch down_lap2 in
  let incidence_1t := to_torch incidence_1t in
  let incidence_2t := to_torch incidence_2t in
  Ok (ScaLists (down_lap1_list acc ++ [down_lap1])
               (down_lap2_list acc ++ [down_lap2])
               (incidence1_t_list acc ++ [incidence_1t])
               (incidence2_t_list acc ++ [incidence_2t])).

Definition sca_neighborhoods (scs : list complex) : outcome sca_lists :=
  for_each sca_neighborhoods_of scs (ScaLists [] [] [] []).

(** [dataset["edge_index"]] of the HMPNN notebook, as the list of its
    columns: one pair (source, target) per edge. *)
Definition edge_index : Type := list (nat * nat).

Definition edge_eqb (e e' : nat * nat) : bool :=
  (fst e =? fst e') && (snd e =? snd e').

(** [torch.sparse_coo_tensor(edge_index, torch.ones(edge_index.shape[1]),
    dtype=torch.long)]: the size is inferred from the largest index of each
    row, and the values of equal positions add up. *)
Definition sparse_coo_tensor (indices : edge_index) (values : list Z) : tensor2 Z :=
  let n_rows := fold_right Nat.max 0 (map (fun e => S (fst e)) indices) in
  let n_cols := fold_right Nat.max 0 (map (fun e => S (snd e)) indices) in
  let at_position := fun i j =>
    fold_right Z.add 0%Z
      (map snd (filter (fun ev : (nat * nat) * Z => edge_eqb (fst ev) (i, j))
                       (combine indices values))) in
  Tensor2 (n_rows, n_cols)
          (map (fun i => map (at_position i) (seq 0 n_cols)) (seq 0 n_rows)).

(** The cell that builds [dataset["incidence_1"]] *)
Definition hmpnn_incidence (edges : edge_index) : tensor2 Z :=
  sparse_coo_tensor edges (repeat 1%Z (length edges)).

(** [t[i][j]], 0 outside of the tensor *)
Definition entry_at (t : tensor2 Z) (i j : nat) : Z :=
  nth j (nth i (data t) []) 0%Z.

(** How many times the edge from [i] to [j] is listed *)
Definition multiplicity (edges : edge_index) (i j : nat) : nat :=
  length (filter (fun e => edge_eqb e (i, j)) edges).

End Neighborhoods.

(* ===================================================================== *)
(** * Predictions and accuracy of the SCoNe notebook *)

Module Metrics.
Import Torch TorchModule Floats Models.

(** [[f(a) for a in l]], where [f] can raise *)
Fixpoint traverse {A B} (f : A -> outcome B) (l : list A) : outcome (list B) :=
  match l with
  | [] => Ok []
  | a :: rest =>
      let* b := f a in
      let* bs := traverse f rest in
      Ok (b :: bs)
  end.

(** [t[indices]] for an array of row indices: torch raises [IndexError] on
    an index out of range. *)
Definition index_rows {A} (t : tensor A) (indices : list nat) : outcome (tensor A) :=
  match t with
  | Vec v =>
      let* entries := traverse (getitem v) indices in
      Ok (Vec entries)
  | Mat t =>
      let* rows := traverse (getitem (data t)) indices in
      Ok (Mat (Tensor2 (length indices, snd (size t)) rows))
  end.

(** [torch.where(y_hat > threshold, torch.tensor(1), torch.tensor(0))] *)
Definition where_gt (threshold : R) (y_hat : tensor R) : tensor Z :=
  let pick := fun p : R => if Rlt_dec threshold p then 1%Z else 0%Z in
  match y_hat with
  | Vec v => Vec (map pick v)
  | Mat t => Mat (Tensor2 (size t) (map (map pick) (data t)))
  end.

(** The same on the floats a model returns. *)
Definition where_gt_fl (threshold : R) (y_hat : tensor fl) : tensor Z :=
  let pick := fun p : fl => if fl_gtb threshold p then 1%Z else 0%Z in
  match y_hat with
  | Vec v => Vec (map pick v)
  | Mat t => Mat (Tensor2 (size t) (map (map pick) (data t)))
  end.

(** [marks logits row]: the prediction [row] of an edge with the two [logits]
    marks no class, or the one class whose logit is above the other; it
    marks none when the logits are undefined or equal. *)
Definition marks (logits : list fl) (row : list Z) : Prop :=
  exists a b,
    logits = [a; b] /\
    (row = [0; 0]%Z \/
     (row = [1; 0]%Z /\ fl_le b a /\ ~ fl_le a b) \/
     (row = [0; 1]%Z /\ fl_le a b /\ ~ fl_le b a)) /\
    (undefined_logits a b -> row = [0; 0]%Z) /\
    (a = b -> row = [0; 0]%Z).

(** Broadcasting of one dimension: equal sizes, or one of them 1. *)
Definition broadcast_dim (a b : nat) : outcome nat :=
  if a =? b then Ok a
  else if a =? 1 then Ok b
  else if b =? 1 then Ok a
  else Raise (RuntimeError "The size of tensor a must match the size of tensor b").

(** A dimension of size 1 is repeated to the broadcast size. *)
Definition expand {A} (n : nat) (l : list A) : list A :=
  match l with
  | [x] => repeat x n
  | _ => l
  end.

(** A tensor as rows: a one-dimensional tensor broadcasts as one row. *)
Definition as_rows {A} (x : tensor A) : nat * nat * list (list A) :=
  match x with
  | Vec v => (1, length v, [v])
  | Mat t => (fst (size t), snd (size t), data t)
  end.

(** [a == b] ([torch.eq(a, b)]), entry by entry after broadcasting *)
Definition tensor_eq (a b : tensor Z) : outcome (tensor bool) :=
  let '(ra, ca, rows_a) := as_rows a in
  let '(rb, cb, rows_b) := as_rows b in
  let* r := broadcast_dim ra rb in
  let* c := broadcast_dim ca cb in
  let rows :=
    map (fun ab : list Z * list Z =>
           map (fun xy : Z * Z => Z.eqb (fst xy) (snd xy))
               (combine (expand c (fst ab)) (expand c (snd ab))))
        (combine (expand r rows_a) (expand r rows_b)) in
  match a, b with
  | Vec _, Vec _ => Ok (Vec (concat rows))
  | _, _ => Ok (Mat (Tensor2 (r, c) rows))
  end.

(** [m.all(dim=1)] *)
Definition all_dim1 (m : tensor bool) : outcome (tensor bool) :=
  match m with
  | Mat t => Ok (Vec (map (forallb (fun b : bool => b)) (data t)))
  | Vec _ => Raise (IndexError "Dimension out of range")
  end.

(** The mean of the entries: NaN when there is none. *)
Definition mean_of (v : list R) : fl :=
  match v with
  | [] => NaN
  | _ => Fin (rsum v / INR (length v))
  end.

(** [m.float().mean().item()] *)
Definition float_mean (m : tensor bool) : fl :=
  let entries := match m with Vec v => v | Mat t => concat (data t) end in
  mean_of (map (fun b : bool => if b then 1%R else 0%R) entries).

(** [y_pred = torch.where(y_hat > 0.5, ...)] followed by
    [(y_pred[indices] == y).all(dim=1).float().mean().item()]: the accuracy
    the training loop prints for the training and for the test indices. *)
Definition accuracy (y_hat : tensor R) (indices : list nat) (y : tensor Z)
  : outcome fl :=
  let y_pred := where_gt (1 / 2) y_hat in
  let* selected := index_rows y_pred indices in
  let* equal := tensor_eq selected y in
  let* rows := all_dim1 equal in
  Ok (float_mean rows).

(** The class a one-hot label names: 0 for [[1, 0]], 1 for [[0, 1]]. *)
Definition class_of (label : list Z) : nat :=
  match label with
  | 1%Z :: _ => 0
  | _ => 1
  end.

(** Whether the probability given to the labelled class is above 1/2 *)
Definition confident (probs : list R) (label : list Z) : bool :=
  if Rlt_dec (1 / 2) (nth (class_of label) probs 0%R) then true else false.

End Metrics.

(* ===================================================================== *)
(** * Train and test sets

    [sklearn.model_selection.train_test_split] with a float [test_size] and
    no [train_size], as the notebooks call it.  [test_size] is 0.2 in every
    call; the product [test_size * n_samples] is taken exactly, which has the
    ceiling of the rounded product of doubles for every number of samples a
    run can hold. *)

Module Sklearn.
Import Torch TorchModule Models Metrics.

(** The sizes of the two sets: [n_test = ceil(test_size * n_samples)],
    [n_train = n_samples - n_test], and an error when no training sample
    is left. *)
Definition validate_shuffle_split (n_samples : nat) (test_size : Q)
  : outcome (nat * nat) :=
  if Qle_bool test_size 0 || Qle_bool 1 test_size then
    Raise (ValueError "test_size should be in the (0, 1) range")
  else
    let n_test := Z.to_nat (Qceiling (test_size * inject_Z (Z.of_nat n_samples))) in
    let n_train := n_samples - n_test in
    if n_train =? 0 then
      Raise (ValueError "the resulting train set will be empty")
    else Ok (n_train, n_test).

(** The indices of the training and of the test set.  With [shuffle=False]
    they are [arange(n_train)] and [arange(n_train, n_train + n_test)]; with
    [shuffle=True] they are cut from the permutation the random state
    draws: its first [n_test] entries are the test set, the [n_train] after
    them the training set. *)
Definition split_indices (n_samples : nat) (test_size : Q)
    (shuffle : option (list nat)) : outcome (list nat * list nat) :=
  let* sizes := validate_shuffle_split n_samples test_size in
  let '(n_train, n_test) := sizes in
  match shuffle with
  | None => Ok (seq 0 n_train, seq n_train n_test)
  | Some permutation =>
      Ok (firstn n_train (skipn n_test permutation), firstn n_test permutation)
  end.

(** [a_train, a_test = train_test_split(a, test_size=..., shuffle=...)] *)
Definition train_test_split {A} (a : list A) (test_size : Q)
    (shuffle : option (list nat)) : outcome (list A * list A) :=
  let* sets := split_indices (length a) test_size shuffle in
  let* a_train := traverse (getitem a) (fst sets) in
  let* a_test := traverse (getitem a) (snd sets) in
  Ok (a_train, a_test).

(** [a_train, a_test, b_train, b_test = train_test_split(a, b, ...)]: the
    arrays must have the same number of samples, and they are cut at the
    same indices. *)
Definition train_test_split2 {A B} (a : list A) (b : list B) (test_size : Q)
    (shuffle : option (list nat))
  : outcome (list A * list A * list B * list B) :=
  if length a =? length b then
    let* sets := split_indices (length a) test_size shuffle in
    let* a_train := traverse (getitem a) (fst sets) in
    let* a_test := traverse (getitem a) (snd sets) in
    let* b_train := traverse (getitem b) (fst sets) in
    let* b_test := traverse (getitem b) (snd sets) in
    Ok (a_train, a_test, b_train, b_test)
  else
    Raise (ValueError "Found input variables with inconsistent numbers of samples").

(** The cell "Train/Test Split" of scone_train_bis.ipynb:
    [indices = np.arange(78)] and
    [train_test_split(y, indices, test_size=0.2, shuffle=True)] on the rows
    of the label tensor. *)
Definition scone_split (y : tensor2 Z) (permutation : list nat)
  : outcome (tensor2 Z * tensor2 Z * list nat * list nat) :=
  let test_size := (2 # 10)%Q in
  let indices := seq 0 78 in
  let* sets := train_test_split2 (data y) indices test_size (Some permutation) in
  let '(y_train, y_test, train_indices, test_indices) := sets in
  Ok (Tensor2 (length y_train, snd (size y)) y_train,
      Tensor2 (length y_test, snd (size y)) y_test,
      train_indices, test_indices).

(** [zip] of several lists: the tuples of the entries at one position, up
    to the end of the shortest list. *)
Fixpoint zip_upto {V} (fuel : nat) (lists : list (list V)) : list (list V) :=
  match fuel with
  | O => []
  | S fuel' =>
      if forallb (fun l : list V => negb (length l =? 0)) lists
      then flat_map (firstn 1) lists :: zip_upto fuel' (map (skipn 1) lists)
      else []
  end.

Definition zip {V} (lists : list (list V)) : list (list V) :=
  match lists with
  | [] => []
  | first :: _ => zip_upto (length first) lists
  end.

(** The split cells of the SCN2, SCA and CAN notebooks: every list of the
    dataset (features of each rank, neighborhood matrices, labels) is split
    by a call of its own, with [test_size=0.2] and [shuffle=False]. *)
Definition split_each {V} (lists : list (list V))
  : outcome (list (list V * list V)) :=
  traverse (fun a => train_test_split a (2 # 10)%Q None) lists.

End Sklearn.

(* ===================================================================== *)
(** * The loops of the CAN notebook, name by name

    The loops of a notebook run in the global namespace: a name bound by an
    earlier statement, or by an earlier cell, stays bound.  Here the
    training loop and the test loop of the CAN notebook are followed
    statement by statement on that namespace. *)

Module CanLoops.
Import Models.

Abbreviation namespace V := (gmap string V).

(** One tuple of [zip(x_0s, x_1s, x_2s, down_laplacians, up_laplacians, ys)] *)
Record sample (V : Type) : Type := Sample {
  x_0 : V;
  x_1 : V;
  x_2 : V;
  down_laplacian : V;
  up_laplacian : V;
  y : V
}.
Arguments Sample {V} x_0 x_1 x_2 down_laplacian up_laplacian y.
Arguments x_0 {V} _.
Arguments x_1 {V} _.
Arguments x_2 {V} _.
Arguments down_laplacian {V} _.
Arguments up_laplacian {V} _.
Arguments y {V} _.

(** One call [model(x_0, x_1, x_2, down_laplacian, up_laplacian)], with the
    loop it was made in. *)
Record model_call (V : Type) : Type := ModelCall {
  in_test_loop : bool;
  arguments : list V
}.
Arguments ModelCall {V} in_test_loop arguments.
Arguments in_test_loop {V} _.
Arguments arguments {V} _.

Section Loops.
Context {V : Type}.
(** [torch.tensor(x).float().to(device)] *)
Variable as_tensor : V -> V.
(** [L.float().to(device)] *)
Variable to_device : V -> V.
(** The model, whose parameters the earlier calls may have changed: its
    output can depend on the calls made so far. *)
Variable model : list (model_call V) -> list V -> outcome V.
Variable loss_fn : V -> V -> outcome V.

(** Reading a name *)
Definition load (ns : namespace V) (name : string) : outcome V :=
  match ns !! name with
  | Some v => Ok v
  | None => Raise (NameError name)
  end.

(** [for a, b, ... in zip(...)]: the targets of the loop are bound to the
    entries of the tuple, from left to right. *)
Definition bind_targets (targets : list string) (s : sample V) (ns : namespace V)
  : namespace V :=
  fold_left (fun ns tv => <[fst tv := snd tv]> ns)
            (combine targets
               [x_0 s; x_1 s; x_2 s; down_laplacian s; up_laplacian s; y s])
            ns.

(** [x_0, x_1, x_2, y = (torch.tensor(x_0).float().to(device), ...)] and
    [down_laplacian, up_laplacian = down_laplacian.float().to(device),
    up_laplacian.float().to(device)]: the right-hand sides are read before
    the names are bound. *)
Definition convert_inputs (ns : namespace V) : outcome (namespace V) :=
  let* x_0 := load ns "x_0" in
  let* x_1 := load ns "x_1" in
  let* x_2 := load ns "x_2" in
  let* y := load ns "y" in
  let ns := <["y" := as_tensor y]> (<["x_2" := as_tensor x_2]>
            (<["x_1" := as_tensor x_1]> (<["x_0" := as_tensor x_0]> ns))) in
  let* down_laplacian := load ns "down_laplacian" in
  let* up_laplacian := load ns "up_laplacian" in
  Ok (<["up_laplacian" := to_device up_laplacian]>
      (<["down_laplacian" := to_device down_laplacian]> ns)).

(** [y_hat = model(x_0, x_1, x_2, down_laplacian, up_laplacian)] and
    [loss = loss_fn(y_hat, y)], the loss bound to [loss_name] *)
Definition forward_and_loss (test : bool) (loss_name : string)
    (st : namespace V * list (model_call V))
  : outcome (namespace V * list (model_call V)) :=
  let '(ns, calls) := st in
  let* x_0 := load ns "x_0" in
  let* x_1 := load ns "x_1" in
  let* x_2 := load ns "x_2" in
  let* down_laplacian := load ns "down_laplacian" in
  let* up_laplacian := load ns "up_laplacian" in
  let args := [x_0; x_1; x_2; down_laplacian; up_laplacian] in
  let* y_hat := model calls args in
  let ns := <["y_hat" := y_hat]> ns in
  let* y := load ns "y" in
  let* loss := loss_fn y_hat y in
  Ok (<[loss_name := loss]> ns, calls ++ [ModelCall test args]).

(** The body of the training loop:
    [for x_0, x_1, x_2, down_laplacian, up_laplacian, y in zip(...)] *)
Definition train_body (s : sample V) (st : namespace V * list (model_call V))
  : outcome (namespace V * list (model_call V)) :=
  let ns := bind_targets
              ["x_0"; "x_1"; "x_2"; "down_laplacian"; "up_laplacian"; "y"]
              s (fst st) in
  let* ns := convert_inputs ns in
  forward_and_loss false "loss" (ns, snd st).

(** The body of the test loop:
    [for x_0, x_1, x_2, down_laplacian, up_laplcian, y in zip(...)]; the
    fifth target is spelled [up_laplcian]. *)
Definition test_body (s : sample V) (st : namespace V * list (model_call V))
  : outcome (namespace V * list (model_call V)) :=
  let ns := bind_targets
              ["x_0"; "x_1"; "x_2"; "down_laplacian"; "up_laplcian"; "y"]
              s (fst st) in
  let* ns := convert_inputs ns in
  forward_and_loss true "test_loss" (ns, snd st).

(** One epoch in which the test data are evaluated: the training loop, then
    the test loop. *)
Definition tested_epoch (train test : list (sample V)) (ns : namespace V)
  : outcome (namespace V * list (model_call V)) :=
  let* st := for_each train_body train (ns, []) in
  for_each test_body test st.

(** The arguments of the calls made in the test loop *)
Definition test_calls (calls : list (model_call V)) : list (list V) :=
  map arguments (filter in_test_loop calls).

End Loops.

End CanLoops.

(* ===================================================================== *)
(** * What the constructors register, and the shapes of the outputs *)

Module Registration.
Import Torch TorchModule Floats Models.

(** [trains_layers self]: every parameter of every layer of [self.layers]
    is among [self.parameters()], no parameter is listed twice, and a step
    of the optimizer built from [self.parameters()] replaces the value of
    every listed parameter by its update. *)
Definition trains_layers (self : pyobj) : Prop :=
  (exists layers,
     getattr self "layers" = Ok layers /\
     incl (held_parameters layers) (parameters self)) /\
  NoDup (parameters self) /\
  forall lr opt, Adam (parameters self) lr = Ok opt ->
    forall F (update : param_id -> tensor F -> tensor F) (st : store F) p v,
      In p (parameters self) -> st !! p = Some v ->
      step update opt st !! p = Some (update p v).

(** [registers_all c next]: run from [next], the constructor returns a
    module whose [parameters()] are all the parameters it allocated, in the
    order of their allocation, and which trains its layers. *)
Definition registers_all (c : ctor pyobj) (next : param_id) : Prop :=
  exists self next',
    c next = Ok (self, next') /\
    parameters self = seq next (next' - next) /\
    trains_layers self.

(** The store gives the linear layer [m] a weight and a bias of the shapes
    its constructor arguments ask for. *)
Definition linear_initialised {F} (st : store F) (m : pyobj) : Prop :=
  exists i o,
    getattr m "in_features" = Ok (PyInt i) /\
    getattr m "out_features" = Ok (PyInt o) /\
    linear_has_shape st m i o.

(** A one-dimensional tensor of [n] entries *)
Definition is_vector {F} (y : tensor F) (n : nat) : Prop :=
  match y with
  | Vec v => length v = n
  | Mat _ => False
  end.

(** The messengers of [messages] return, and the update returns features of
    the shape of those it updates. *)
Definition messages_return {F} (messages : HMPNN_messages F) (st : store F)
  : Prop :=
  (forall layer x_0 inc,
     exists r, node_to_hyperedge messages st layer x_0 inc = Ok r) /\
  (forall layer x_1 inc node_messages,
     exists r, hyperedge_to_node messages st layer x_1 inc node_messages = Ok r) /\
  (forall x received n c,
     has_shape x n c ->
     exists y, updating_func messages x received = Ok y /\ has_shape y n c).

(** A batch of [n] rows for [BatchNorm1d]: any in evaluation mode, at least
    two rows in training mode. *)
Definition normalisable (training : bool) (n : nat) : Prop :=
  training = true -> 2 <= n.

(** The features of the three ranks, one row per cell *)
Definition shapes3 (xs : features3) (n_0 c_0 n_1 c_1 n_2 c_2 : nat) : Prop :=
  let '(x_0, x_1, x_2) := xs in
  has_shape x_0 n_0 c_0 /\ has_shape x_1 n_1 c_1 /\ has_shape x_2 n_2 c_2.

End Registration.

(* ===================================================================== *)
(** * More of what a trace tells *)

Module Traces.
Import Notebook.

(** The test losses the run printed, each with its epoch *)
Definition printed_tests (tr : list event) : list (nat * Q) :=
  flat_map (fun ev => match ev with PrintTest e v => [(e, v)] | _ => [] end) tr.

(** Every training step returns, whatever the model and the sample. *)
Definition steps_return {Data Model Sample} (lib : library Data Model Sample)
  : Prop :=
  forall model x, exists r, train_step lib model x = Ok r.

End Traces.

(* ===================================================================== *)
(** * Small instances *)

Module Examples.
Import Torch TorchModule Floats Models.

(** The arithmetic of a layer that hands the features on as they are: the
    messages are the features of the sender, the update keeps the features
    it is given, and the normalisation leaves the entries and the running
    statistics as they are. *)
Definition messages_identity : HMPNN_messages R :=
  {| node_to_hyperedge := fun _ _ x_0 _ => Ok (x_0, x_0);
     hyperedge_to_node := fun _ _ x_1 _ _ => Ok x_1;
     updating_func := fun x _ => Ok x;
     batch_statistics := fun _ _ _ _ _ x => x;
     running_statistics := fun _ _ _ _ _ x => x;
     momentum_update := fun b _ => (running_mean b, running_var b) |}.

(** A generator that keeps every other entry. *)
Definition every_other : generator :=
  Generator Nat.even 0.

(** The buffers of a layer of one channel as its constructor leaves them. *)
Definition initial_buffers : layer_buffers R :=
  LayerBuffers (BatchNormBuffers [0%R] [1%R] 0) (BatchNormBuffers [0%R] [1%R] 0).

(** Two nodes and two hyperedges with one feature each, and the incidence
    matrix of the edge between the two nodes as the notebook builds it. *)
Definition two_nodes : tensor R := Mat (Tensor2 (2, 1) [[1%R]; [1%R]]).
Definition two_hyperedges : tensor R := Mat (Tensor2 (2, 1) [[0%R]; [0%R]]).
Definition two_by_two : tensor R :=
  Mat (Tensor2 (2, 2) [[0%R; 1%R]; [1%R; 0%R]]).

(** [HMPNN(1, (), 1, n_layer=1)] with the default dropout rates: the layer
    owns parameter 0, [to_categories_linear] owns the weight 1 and the
    bias 2. *)
Definition hmpnn_1 : outcome (pyobj * param_id) :=
  HMPNN_init ["weight"] 1 [] 1 1 0.7%Q 0.5%Q 0.

Definition one_by_one (r : R) : tensor R := Mat (Tensor2 (1, 1) [[r]]).

Definition hmpnn_1_store : store R :=
  <[1 := one_by_one 1%R]> (<[2 := Vec [0%R]]> ∅).

(** The model of the HMPNN instance above. *)
Definition hmpnn_1_model : pyobj :=
  match hmpnn_1 with
  | Ok (self, _) => self
  | Raise _ => Module_ "HMPNN" [] [] []
  end.

(** [SCoNeNN(channels=1, n_layers=2)] with one weight per layer: the layers
    own the parameters 0 and 1, [linear] owns the weight 2 and the bias 3. *)
Definition scone_model : pyobj :=
  match SCoNeNN_init ["weight"] 1 2 0 with
  | Ok (self, _) => self
  | Raise _ => Module_ "SCoNeNN" [] [] []
  end.

Definition scone_store : store fl :=
  <[2 := Mat (Tensor2 (2, 1) [[Fin 1]; [Fin (-1)]])]>
    (<[3 := Vec [Fin 0; Fin 0]]> ∅).

(** A layer that returns the features as they are. *)
Definition layer_identity : SCoNeLayer_call :=
  fun _ _ x_1 _ _ _ => Ok x_1.

(** [SCoNeNN(channels=1, n_layers=0)]: no layer, [linear] owns the weight 0
    and the bias 1. *)
Definition scone_linear_only : pyobj :=
  match SCoNeNN_init ["weight"] 1 0 0 with
  | Ok (self, _) => self
  | Raise _ => Module_ "SCoNeNN" [] [] []
  end.

(** The largest number of float32, [(2 - 2^-23) * 2^127]. *)
Definition largest : R := 340282346638528859811704183484516925440%R.

(** Floats that overflow as float32 does and are exact within its range: a
    real above [largest] is plus infinity, one below [- largest] is minus
    infinity. *)
Definition overflowing : Float32 :=
  let round := fun r : R =>
    if Rlt_dec largest r then Inf false
    else if Rlt_dec r (- largest) then Inf true
    else Fin r in
  {| round := round; exp32 := fun r => round (exp r) |}.

(** The parameters of [linear]: the weights 2 and -2, no bias. *)
Definition scone_doubling_store : store fl :=
  <[0 := Mat (Tensor2 (2, 1) [[Fin 2]; [Fin (-2)]])]>
    (<[1 := Vec [Fin 0; Fin 0]]> ∅).

(** A generator that keeps the first ten entries and drops the others. *)
Definition keep_ten_then_drop : generator :=
  Generator (fun i => i <? 10) 0.

(** [SCN2(1, 1, 1, num_classes=1, n_layers=0)]: [lin_0] owns the parameters
    0 and 1, [lin_1] owns 2 and 3, [lin_2] owns 4 and 5. *)
Definition scn2_model : pyobj :=
  match SCN2_init ["weight"] 1 1 1 1 0 0 with
  | Ok (self, _) => self
  | Raise _ => Module_ "SCN2" [] [] []
  end.

Definition fl_one_by_one (x : fl) : tensor fl := Mat (Tensor2 (1, 1) [[x]]).

Definition scn2_store : store fl :=
  <[0 := fl_one_by_one (Fin 1)]> (<[1 := Vec [Fin 0]]>
  (<[2 := fl_one_by_one (Fin 1)]> (<[3 := Vec [Fin 0]]>
  (<[4 := fl_one_by_one (Fin 1)]> (<[5 := Vec [Fin 0]]> ∅))))).

(** The features of a complex without faces: no row, one column. *)
Definition no_face : tensor fl := Mat (Tensor2 (0, 1) []).

(** A layer of SCN2 that returns the features as they are. *)
Definition scn2_layer : SCN2Layer_call :=
  fun _ _ xs _ _ _ => Ok xs.

(** Libraries whose calls all return: two training samples and one test
    sample, every loss 0. *)
Definition returning : Notebook.library unit unit unit :=
  {| Notebook.loader_files := fun _ => [];
     Notebook.load_dataset := Ok tt;
     Notebook.build_neighborhoods := fun _ => Ok tt;
     Notebook.train_test_split := fun _ => Ok ([tt; tt], [tt]);
     Notebook.instantiate := fun _ _ => Ok tt;
     Notebook.train_step := fun _ _ => Ok (0%Q, tt);
     Notebook.evaluate := fun _ _ => Ok 0%Q |}.

(** A library that counts the training steps in the model, and whose sixth
    step raises: two training samples and one test sample. *)
Definition sixth_step_raises : Notebook.library unit nat unit :=
  {| Notebook.loader_files := fun _ => [];
     Notebook.load_dataset := Ok tt;
     Notebook.build_neighborhoods := fun _ => Ok tt;
     Notebook.train_test_split := fun _ => Ok ([tt; tt], [tt]);
     Notebook.instantiate := fun _ _ => Ok 0;
     Notebook.train_step := fun k _ =>
       if k =? 5
       then Raise (RuntimeError "mat1 and mat2 shapes cannot be multiplied")
       else Ok (0%Q, S k);
     Notebook.evaluate := fun _ _ => Ok 0%Q |}.

Definition returning_batches : Notebook.batch_library unit unit unit :=
  {| Notebook.base := returning;
     Notebook.train_batch := fun _ _ => Ok (0%Q, tt);
     Notebook.evaluate_batch := fun _ _ => Ok 0%Q;
     Notebook.planetoid_masks := fun _ => ([tt], [tt], [tt]) |}.

(** The losses the SCoNe notebook printed in its recorded run, epoch 1 to 6
    (the output of its last cell). *)
Definition scone_recorded_losses : list Q :=
  [0.7211; 0.7185; 0.7205; 0.7210; 0.7205; 0.7194]%Q.

(** The recorded run as a library: the model is the number of steps done,
    and step [k] has the loss recorded for epoch [k + 1]. *)
Definition recorded_run : Notebook.batch_library unit nat unit :=
  {| Notebook.base :=
       {| Notebook.loader_files := fun _ => [];
          Notebook.load_dataset := Ok tt;
          Notebook.build_neighborhoods := fun _ => Ok tt;
          Notebook.train_test_split := fun _ => Ok ([tt], [tt]);
          Notebook.instantiate := fun _ _ => Ok 0;
          Notebook.train_step := fun k _ => Ok (nth k scone_recorded_losses 0%Q, S k);
          Notebook.evaluate := fun _ _ => Ok 0%Q |};
     Notebook.train_batch := fun k _ => Ok (nth k scone_recorded_losses 0%Q, S k);
     Notebook.evaluate_batch := fun _ _ => Ok 0%Q;
     Notebook.planetoid_masks := fun _ => ([tt], [tt], [tt]) |}.

End Examples.

(* ===================================================================== *)
(** * Properties *)

Module ComplexesFacts.
Import Numpy Complexes.

Lemma matmul_shape a b c :
  matmul a b = Ok c -> shape c = (nrows a, ncols b).
Proof.
  unfold matmul. destruct (ncols a =? nrows b); [|discriminate].
  intros [= <-]. reflexivity.
Qed.

Lemma madd_shape a b c :
  madd a b = Ok c -> shape c = shape a.
Proof.
  unfold madd. destruct (_ && _); [|discriminate].
  intros [= <-]. reflexivity.
Qed.

Lemma incidence_matrix_shape K r B :
  incidence_matrix K (S r) = Ok B -> shape B = (n_cells K r, n_cells K (S r)).
Proof.
  unfold incidence_matrix. destruct (dim K <? S r); [discriminate|].
  intros [= <-]. reflexivity.
Qed.

Lemma down_laplacian_shape K r L :
  down_laplacian_matrix K r = Ok L -> shape L = (n_cells K r, n_cells K r).
Proof.
  unfold down_laplacian_matrix.
  destruct r as [|r]; [discriminate|].
  destruct (_ && _); [|discriminate].
  destruct (incidence_matrix K (S r)) as [B|] eqn:HB; [|discriminate].
  apply incidence_matrix_shape in HB. cbn [obind]. intros HL.
  apply matmul_shape in HL. cbn in HL. injection HB as Hr Hc.
  now rewrite Hc in HL.
Qed.

Lemma up_laplacian_shape K r L :
  up_laplacian_matrix K r = Ok L -> shape L = (n_cells K r, n_cells K r).
Proof.
  unfold up_laplacian_matrix.
  destruct (r <? dim K); [|discriminate].
  replace (r + 1) with (S r) by lia.
  destruct (incidence_matrix K (S r)) as [B|] eqn:HB; [|discriminate].
  apply incidence_matrix_shape in HB. cbn [obind]. intros HL.
  apply matmul_shape in HL. cbn in HL. injection HB as Hr Hc.
  now rewrite Hr in HL.
Qed.

Lemma hodge_laplacian_shape K r L :
  hodge_laplacian_matrix K r = Ok L -> shape L = (n_cells K r, n_cells K r).
Proof.
  unfold hodge_laplacian_matrix.
  destruct (r =? 0) eqn:H0.
  - apply Nat.eqb_eq in H0. subst r.
    destruct (incidence_matrix K 1) as [B|] eqn:HB; [|discriminate].
    apply incidence_matrix_shape in HB. cbn [obind]. intros HL.
    apply matmul_shape in HL. cbn in HL. injection HB as Hr Hc.
    now rewrite Hr in HL.
  - destruct (r <? dim K).
    + destruct (up_laplacian_matrix K r) as [U|] eqn:HU; [|discriminate].
      destruct (down_laplacian_matrix K r) as [D|] eqn:HD; [|discriminate].
      cbn [obind]. intros HL. apply madd_shape in HL.
      rewrite HL. now apply up_laplacian_shape.
    + destruct (r =? dim K); [|discriminate]. apply down_laplacian_shape.
Qed.

Lemma normalized_laplacian_shape eigsh K r L :
  normalized_laplacian_matrix eigsh K r = Ok L ->
  shape L = (n_cells K r, n_cells K r).
Proof.
  unfold normalized_laplacian_matrix.
  destruct (hodge_laplacian_matrix K r) as [H|] eqn:HH; [|discriminate].
  cbn [obind]. destruct (eigsh H); [|discriminate]. cbn [obind].
  intros [= <-]. apply hodge_laplacian_shape in HH. exact HH.
Qed.

(** The dense rows agree with the recorded shape. *)
Lemma to_torch_rows {A} (L : matrix A) n m :
  shape L = (n, m) ->
  Torch.size (to_torch L) = (n, m) /\
  length (Torch.data (to_torch L)) = n /\
  Forall (fun row => length row = m) (Torch.data (to_torch L)).
Proof.
  intros [= <- <-]. unfold to_torch, Torch.to_sparse, Torch.from_numpy, todense.
  cbn. repeat split.
  - now rewrite length_map, length_seq.
  - apply Forall_forall. intros row Hin. apply in_map_iff in Hin.
    destruct Hin as (i & <- & _). now rewrite length_map, length_seq.
Qed.

Lemma mmap_shape {A B} (f : A -> B) (L : matrix A) : shape (mmap f L) = shape L.
Proof. reflexivity. Qed.

(** C8: every Laplacian matrix the notebooks build at rank [r], up, down or
    normalized, is square: its number of rows and its number of columns both
    equal the number of cells of rank [r] of the complex it comes from; for
    [r = 1] that is the shape [[n_edges, n_edges]]. *)
Theorem laplacian_square eigsh which K r t :
  laplacian_tensor eigsh which K r = Ok t ->
  is_square t (n_cells K r).
Proof.
  unfold laplacian_tensor, is_square. destruct which.
  - destruct (up_laplacian_matrix K r) as [L|] eqn:HL; [|discriminate].
    cbn [obind]. intros [= <-]. apply to_torch_rows.
    rewrite mmap_shape. now apply up_laplacian_shape.
  - destruct (down_laplacian_matrix K r) as [L|] eqn:HL; [|discriminate].
    cbn [obind]. intros [= <-]. apply to_torch_rows.
    rewrite mmap_shape. now apply down_laplacian_shape.
  - destruct (normalized_laplacian_matrix eigsh K r) as [L|] eqn:HL; [|discriminate].
    cbn [obind]. intros [= <-]. apply to_torch_rows.
    now apply normalized_laplacian_shape in HL.
Qed.

(** The up Laplacian of the edges of the filled triangle is 3 x 3. *)
Lemma laplacian_square_witness :
  exists t,
    laplacian_tensor (fun _ => Ok 1%Q) Up triangle 1 = Ok t /\ is_square t 3.
Proof.
  eexists. split.
  - reflexivity.
  - apply (laplacian_square (fun _ => Ok 1%Q) Up triangle 1). reflexivity.
Defined.

(** In range, the Laplacians are built without error. *)
Lemma down_laplacian_total K r :
  0 < r <= dim K -> exists L, down_laplacian_matrix K r = Ok L.
Proof.
  intros [Hpos Hle]. unfold down_laplacian_matrix, incidence_matrix.
  destruct r as [|r]; [lia|].
  replace ((0 <? S r) && (S r <=? dim K)) with true
    by (symmetry; apply andb_true_iff; split;
        [now apply Nat.ltb_lt | now apply Nat.leb_le]).
  replace (dim K <? S r) with false by (symmetry; apply Nat.ltb_ge; lia).
  cbn [obind]. unfold matmul. cbn. rewrite Nat.eqb_refl. eauto.
Qed.

Lemma up_laplacian_total K r :
  r < dim K -> exists L, up_laplacian_matrix K r = Ok L.
Proof.
  intros Hlt. unfold up_laplacian_matrix, incidence_matrix.
  replace (r <? dim K) with true by (symmetry; now apply Nat.ltb_lt).
  replace (r + 1) with (S r) by lia.
  replace (dim K <? S r) with false by (symmetry; apply Nat.ltb_ge; lia).
  cbn [obind]. unfold matmul. cbn. rewrite Nat.eqb_refl. eauto.
Qed.

(** The edge Laplacians of the filled triangle. *)
Example triangle_down_lap1 :
  option_map todense
    (match down_laplacian_matrix triangle 1 with Ok L => Some L | Raise _ => None end)
  = Some [[2; 1; -1]; [1; 2; 1]; [-1; 1; 2]]%Z.
Proof. vm_compute. reflexivity. Qed.

Example triangle_up_lap1 :
  option_map todense
    (match up_laplacian_matrix triangle 1 with Ok L => Some L | Raise _ => None end)
  = Some [[1; -1; 1]; [-1; 1; -1]; [1; -1; 1]]%Z.
Proof. vm_compute. reflexivity. Qed.

End ComplexesFacts.

(* ===================================================================== *)
(** * Registration of parameters and optimizer steps *)

Module TorchModuleFacts.
Import Torch TorchModule Models.

(** An optimizer step writes the parameters of the optimizer only. *)
Lemma step_frame {F} (update : param_id -> tensor F -> tensor F) opt
    (st : store F) p :
  ~ In p (param_groups opt) -> step update opt st !! p = st !! p.
Proof.
  unfold step. generalize (param_groups opt) as ps. intros ps. revert st.
  induction ps as [|q ps IH]; intros st Hnot; [reflexivity|].
  cbn [fold_left]. rewrite IH by (intros Hin; apply Hnot; now right).
  destruct (st !! q) eqn:Hq; [|reflexivity].
  apply lookup_insert_ne. intros ->. apply Hnot. now left.
Qed.

Lemma steps_frame {F} (updates : list (param_id -> tensor F -> tensor F)) opt
    (st : store F) p :
  ~ In p (param_groups opt) -> steps updates opt st !! p = st !! p.
Proof.
  unfold steps. revert st.
  induction updates as [|u us IH]; intros st Hnot; [reflexivity|].
  cbn [fold_left]. rewrite IH by assumption. now apply step_frame.
Qed.

(** A step does update the parameters it was given. *)
Lemma step_updates {F} (update : param_id -> tensor F -> tensor F) lr
    (st : store F) p v :
  st !! p = Some v ->
  step update (Optimizer [p] lr) st !! p = Some (update p v).
Proof.
  intros Hp. unfold step. cbn. rewrite Hp. apply lookup_insert_eq.
Qed.

Lemma Adam_param_groups params lr opt :
  Adam params lr = Ok opt -> param_groups opt = params.
Proof.
  destruct params; [discriminate|]. intros [= <-]. reflexivity.
Qed.

Lemma map_snd_combine {A B} (l : list A) (l' : list B) :
  length l = length l' -> map snd (combine l l') = l'.
Proof.
  revert l'. induction l as [|a l IH]; intros [|b l'] Hlen; try discriminate.
  - reflexivity.
  - cbn. f_equal. apply IH. now injection Hlen.
Qed.

Lemma parameters_Layer cls weights args next :
  forall layer next',
    Layer cls weights args next = Ok (layer, next') ->
    parameters layer = seq next (length weights) /\
    next' = next + length weights /\
    ctor_args layer = Ok (cls, args).
Proof.
  intros layer next' [= <- <-]. cbn. rewrite app_nil_r.
  repeat split. rewrite map_snd_combine; [reflexivity|]. now rewrite length_seq.
Qed.

(** [n] layers of one class: their parameters are the next [n * k] fresh
    identifiers and they all keep the same constructor arguments. *)
Lemma comprehension_Layer cls weights args n :
  forall next, exists layers,
    comprehension n (Layer cls weights args) next
      = Ok (layers, next + n * length weights) /\
    length layers = n /\
    flat_map parameters layers = seq next (n * length weights) /\
    Forall (fun layer => ctor_args layer = Ok (cls, args)) layers.
Proof.
  induction n as [|n IH]; intros next.
  - exists []. cbn. unfold cret. rewrite Nat.add_0_r. repeat split. constructor.
  - destruct (IH (next + length weights)) as (layers & Hc & Hlen & Hps & Hargs).
    exists (Module_ cls (combine weights (seq next (length weights))) [] args
              :: layers).
    cbn [comprehension]. unfold cbind at 1. cbn [Layer].
    unfold cbind at 1. rewrite Hc. unfold cret. repeat split.
    + do 2 f_equal. lia.
    + cbn. now rewrite Hlen.
    + cbn [flat_map]. rewrite Hps. cbn [parameters]. rewrite app_nil_r.
      rewrite map_snd_combine by now rewrite length_seq.
      replace (S n * length weights) with (length weights + n * length weights) by lia.
      now rewrite seq_app.
    + constructor; [reflexivity|assumption].
Qed.

Lemma seq_disjoint a n p q :
  In p (seq a n) -> In q [a + n; S (a + n); S (S (a + n)); a + n + 3; a + n + 4; a + n + 5] ->
  p <> q.
Proof.
  intros Hp Hq. apply in_seq in Hp. cbn in Hq.
  repeat (destruct Hq as [<-|Hq]; [lia|]). contradiction.
Qed.

(** C4: SCoNeNN and CAN keep their message passing layers in a plain Python
    list, so [model.parameters()] yields the parameters of the final linear
    layers only, and no optimizer step of the training loop changes a
    parameter of a message passing layer. *)
Theorem plain_list_layers_not_trained weights :
  (forall channels n_layers next, exists self next',
      SCoNeNN_init weights channels n_layers next = Ok (self, next') /\
      trains_only self ["linear"]) /\
  (forall in_channels_0 in_channels_1 in_channels_2 num_classes n_layers att next,
    exists self next',
      CAN_init weights in_channels_0 in_channels_1 in_channels_2 num_classes
               n_layers att next = Ok (self, next') /\
      trains_only self ["lin_0"; "lin_1"; "lin_2"]).
Proof.
  split.
  - intros channels n_layers next.
    destruct (comprehension_Layer "SCoNeLayer" weights
                [("channels", PyInt channels)] n_layers next)
      as (layers & Hc & Hlen & Hps & _).
    do 2 eexists. split.
    + unfold SCoNeNN_init, SCoNeLayer, cbind. rewrite Hc. cbn. reflexivity.
    + unfold trains_only. cbn. split; [eauto|]. split; [reflexivity|].
      intros lr opt [= <-] F updates st layers' p [= <-] Hin.
      apply steps_frame. cbn. cbn in Hin. rewrite Hps in Hin.
      intros Hq. eapply (seq_disjoint _ _ p p Hin); [|reflexivity].
      cbn. tauto.
  - intros c0 c1 c2 num_classes n_layers att next.
    destruct (comprehension_Layer "CANLayer" weights
                [("channels", PyInt c1); ("att", PyBool att)] n_layers next)
      as (layers & Hc & Hlen & Hps & _).
    do 2 eexists. split.
    + unfold CAN_init, CANLayer, cbind. rewrite Hc. cbn. reflexivity.
    + unfold trains_only. cbn. split; [eauto|]. split; [reflexivity|].
      intros lr opt [= <-] F updates st layers' p [= <-] Hin.
      apply steps_frame. cbn. cbn in Hin. rewrite Hps in Hin.
      intros Hq. eapply (seq_disjoint _ _ p p Hin); [|reflexivity].
      cbn. replace (next + n_layers * length weights + 3)
        with (S (S (S (next + n_layers * length weights)))) by lia.
      replace (next + n_layers * length weights + 4)
        with (S (S (S (S (next + n_layers * length weights))))) by lia.
      replace (next + n_layers * length weights + 5)
        with (S (S (S (S (S (next + n_layers * length weights)))))) by lia.
      tauto.
Qed.

End TorchModuleFacts.

(* ===================================================================== *)
(** * The forward passes *)

Module ModelsFacts.
Import Torch TorchModule Floats Models TorchModuleFacts.

Lemma for_each_chain {A S} (body : A -> S -> outcome S) items s s' :
  for_each body items s = Ok s' <-> chain body items s s'.
Proof.
  revert s. induction items as [|a rest IH]; intros s; cbn [for_each].
  - split.
    + intros [= <-]. constructor.
    + intros Hc. inversion Hc. reflexivity.
  - split.
    + destruct (body a s) as [s1|] eqn:Ha; [|discriminate]. cbn [obind].
      intros Hr. econstructor; [eassumption|]. now apply IH.
    + intros Hc. inversion Hc as [|a' rest' s0 s1 s2 Ha Hr]; subst.
      rewrite Ha. cbn [obind]. now apply IH.
Qed.

Lemma for_each_ext {A S} (body body' : A -> S -> outcome S) items s :
  (forall a s, body a s = body' a s) ->
  for_each body items s = for_each body' items s.
Proof.
  intros Hext. revert s. induction items as [|a rest IH]; intros s; [reflexivity|].
  cbn [for_each]. rewrite Hext. destruct (body' a s); [|reflexivity].
  cbn [obind]. apply IH.
Qed.

(** A loop over the indices of a list calls its items in their order. *)
Lemma for_each_indices {A S} (call : A -> S -> outcome S) pre items s :
  for_each (fun i s => let* a := getitem (pre ++ items) i in call a s)
           (seq (length pre) (length items)) s
  = for_each call items s.
Proof.
  revert pre s. induction items as [|a rest IH]; intros pre s; [reflexivity|].
  cbn [length seq for_each]. unfold getitem at 1.
  rewrite nth_error_app2 by lia. rewrite Nat.sub_diag. cbn [nth_error obind].
  destruct (call a s) as [s1|]; [|reflexivity]. cbn [obind].
  specialize (IH (pre ++ [a]) s1). rewrite <- app_assoc in IH. cbn [app] in IH.
  rewrite length_app in IH. cbn [length] in IH. rewrite Nat.add_1_r in IH.
  exact IH.
Qed.

Lemma in_sequence_intro {S Y} self (call : pyobj -> S -> outcome S) s0
    (head : S -> outcome Y) items :
  layers_of self = Ok items ->
  in_sequence self call s0 head (let* h := for_each call items s0 in head h).
Proof.
  intros Hl y. split.
  - destruct (for_each call items s0) as [h|] eqn:Hf; [|discriminate].
    cbn [obind]. intros Hh. exists items, h. repeat split; try assumption.
    now apply for_each_chain.
  - intros (items' & h & Hl' & Hc & Hh). rewrite Hl in Hl'. injection Hl' as <-.
    apply for_each_chain in Hc. rewrite Hc. exact Hh.
Qed.

Lemma length_enumerate_keys {A} (l : list A) :
  length (map index_name (seq 0 (length l))) = length l.
Proof. now rewrite length_map, length_seq. Qed.

Lemma iter_ModuleList layers : iter (ModuleList layers) = Ok layers.
Proof.
  cbn. unfold enumerate. rewrite map_snd_combine; [reflexivity|].
  apply length_enumerate_keys.
Qed.

Lemma iter_Sequential layers : iter (Sequential layers) = Ok layers.
Proof.
  cbn. unfold enumerate. rewrite map_snd_combine; [reflexivity|].
  apply length_enumerate_keys.
Qed.

(** The linear layers of [to_hidden_linear] are constructed without error. *)
Lemma hidden_linears_constructed (h : list nat) :
  forall idx next,
    (forall i, In i idx -> i + 1 < length h) ->
    exists linears next',
      comprehension_over idx
        (fun i =>
           new a := lift (getitem h i) in
           new b := lift (getitem h (i + 1)) in
           Linear a b) next
      = Ok (linears, next').
Proof.
  induction idx as [|i idx IH]; intros next Hidx.
  - do 2 eexists. reflexivity.
  - assert (Hi : i + 1 < length h) by (apply Hidx; now left).
    destruct (nth_error h i) as [a|] eqn:Ha;
      [|apply nth_error_None in Ha; lia].
    destruct (nth_error h (i + 1)) as [b|] eqn:Hb;
      [|apply nth_error_None in Hb; lia].
    destruct (IH (S (S next))) as (linears & next' & Hc).
    { intros j Hj. apply Hidx. now right. }
    do 2 eexists. cbn [comprehension_over]. unfold cbind at 1.
    unfold cbind at 1. unfold lift at 1, getitem at 1. rewrite Ha.
    unfold cbind at 1. unfold lift at 1, getitem at 1. rewrite Hb.
    cbn [Linear]. unfold cbind at 1. rewrite Hc. reflexivity.
Qed.

(** C2: in every model class the message passing layers are a stack of
    layer objects of one class, each constructed from the same arguments,
    and the forward pass calls them in their order, each on what the layer
    before it returned, before the statements that apply the final linear
    layers. *)
Theorem layers_stacked_and_called_in_sequence :
  (forall weights channels n_layers next,
     constructs (SCoNeNN_init weights channels n_layers) next (fun self =>
       stack_of self "SCoNeLayer" [("channels", PyInt channels)] n_layers /\
       forall (arith : Scalar fl) (float32 : Float32)
              fwd st x_1 up_lap1 down_lap1 iden,
         in_sequence self
           (fun layer x_1 => fwd st layer x_1 up_lap1 down_lap1 iden) x_1
           (SCoNeNN_head st self)
           (SCoNeNN_forward fwd st self x_1 up_lap1 down_lap1 iden))) /\
  (forall weights c0 c1 c2 num_classes n_layers next,
     constructs (SCN2_init weights c0 c1 c2 num_classes n_layers) next (fun self =>
       stack_of self "SCN2Layer"
         [("in_channels_0", PyInt c0); ("in_channels_1", PyInt c1);
          ("in_channels_2", PyInt c2)] n_layers /\
       forall fwd st x_0 x_1 x_2 l0 l1 l2,
         in_sequence self
           (fun layer xs => fwd st layer xs l0 l1 l2) (x_0, x_1, x_2)
           (SCN2_head st self)
           (SCN2_forward fwd st self x_0 x_1 x_2 l0 l1 l2))) /\
  (forall weights c0 c1 c2 rest complex_dim num_classes n_layers att next,
     constructs (AMPSSCA_init weights (c0 :: c1 :: c2 :: rest) complex_dim
                   num_classes n_layers att) next (fun self =>
       stack_of self "SCACMPSLayer"
         [("channels_list", PyList (map PyInt (c0 :: c1 :: c2 :: rest)));
          ("complex_dim", PyInt complex_dim); ("att", PyBool att)] n_layers /\
       forall fwd st x_list down_lap_list incidencet_list,
         in_sequence self
           (fun layer x_list => fwd st layer x_list down_lap_list incidencet_list)
           x_list (AMPSSCA_head st self)
           (AMPSSCA_forward fwd st self x_list down_lap_list incidencet_list))) /\
  (forall weights c0 c1 c2 num_classes n_layers att next,
     constructs (CAN_init weights c0 c1 c2 num_classes n_layers att) next (fun self =>
       stack_of self "CANLayer" [("channels", PyInt c1); ("att", PyBool att)]
         n_layers /\
       forall fwd st x_0 x_1 x_2 down_laplacian up_laplacian,
         in_sequence self
           (fun layer x_1 => fwd st layer x_1 down_laplacian up_laplacian) x_1
           (CAN_head st self x_0 x_2)
           (CAN_forward fwd st self x_0 x_1 x_2 down_laplacian up_laplacian))) /\
  (forall weights in_features hidden_features num_classes n_layer r_adj r_upd next,
     constructs (HMPNN_init weights in_features hidden_features num_classes
                   n_layer r_adj r_upd) next (fun self =>
       stack_of self "HMPNNLayer"
         [("in_channels", PyInt (last (in_features :: hidden_features) in_features));
          ("adjacency_dropout", PyFloat r_adj);
          ("updating_dropout", PyFloat r_upd)] n_layer /\
       forall messages (st : store R) training x_0 x_1 incidence_1 g hidden h_0 h_1,
         getattr self "to_hidden_linear" = Ok hidden ->
         Sequential_forward st hidden x_0 = Ok h_0 ->
         Sequential_forward st hidden x_1 = Ok h_1 ->
         in_sequence self
           (HMPNN_call messages st training incidence_1) (h_0, h_1, g)
           (HMPNN_head st self)
           (HMPNN_forward messages st self training x_0 x_1 incidence_1 g))).
Proof.
  repeat split.
  - intros weights channels n_layers next.
    destruct (comprehension_Layer "SCoNeLayer" weights
                [("channels", PyInt channels)] n_layers next)
      as (layers & Hc & Hlen & Hps & Hargs).
    do 2 eexists. split.
    { unfold SCoNeNN_init, SCoNeLayer, cbind. rewrite Hc. cbn. reflexivity. }
    match goal with |- context [stack_of ?s] => set (self := s) end.
    assert (Hl : layers_of self = Ok layers) by reflexivity.
    split; [now exists layers|].
    intros. unfold SCoNeNN_forward. rewrite Hl. cbn [obind].
    now apply in_sequence_intro.
  - intros weights c0 c1 c2 num_classes n_layers next.
    destruct (comprehension_Layer "SCN2Layer" weights
                [("in_channels_0", PyInt c0); ("in_channels_1", PyInt c1);
                 ("in_channels_2", PyInt c2)] n_layers next)
      as (layers & Hc & Hlen & Hps & Hargs).
    do 2 eexists. split.
    { unfold SCN2_init, SCN2Layer, cbind. rewrite Hc. cbn. reflexivity. }
    match goal with |- context [stack_of ?s] => set (self := s) end.
    assert (Hl : layers_of self = Ok layers) by apply iter_ModuleList.
    split; [now exists layers|].
    intros. unfold SCN2_forward. rewrite Hl. cbn [obind].
    now apply in_sequence_intro.
  - intros weights c0 c1 c2 rest complex_dim num_classes n_layers att next.
    destruct (comprehension_Layer "SCACMPSLayer" weights
                [("channels_list", PyList (map PyInt (c0 :: c1 :: c2 :: rest)));
                 ("complex_dim", PyInt complex_dim); ("att", PyBool att)]
                n_layers next)
      as (layers & Hc & Hlen & Hps & Hargs).
    do 2 eexists. split.
    { unfold AMPSSCA_init, SCACMPSLayer, cbind. rewrite Hc. cbn. reflexivity. }
    match goal with |- context [stack_of ?s] => set (self := s) end.
    assert (Hl : layers_of self = Ok layers) by apply iter_ModuleList.
    split; [now exists layers|].
    intros. unfold AMPSSCA_forward.
    change (getattr self "n_layers") with (Ok (PyInt n_layers)).
    cbn [obind range].
    rewrite (for_each_ext _
               (fun i x_list =>
                  let* layer := getitem ([] ++ layers) i in
                  fwd st layer x_list down_lap_list incidencet_list))
      by (intros; now rewrite Hl).
    rewrite <- Hlen. change 0 with (length (@nil pyobj)).
    rewrite for_each_indices.
    now apply in_sequence_intro.
  - intros weights c0 c1 c2 num_classes n_layers att next.
    destruct (comprehension_Layer "CANLayer" weights
                [("channels", PyInt c1); ("att", PyBool att)] n_layers next)
      as (layers & Hc & Hlen & Hps & Hargs).
    do 2 eexists. split.
    { unfold CAN_init, CANLayer, cbind. rewrite Hc. cbn. reflexivity. }
    match goal with |- context [stack_of ?s] => set (self := s) end.
    assert (Hl : layers_of self = Ok layers) by reflexivity.
    split; [now exists layers|].
    intros. unfold CAN_forward. rewrite Hl. cbn [obind].
    now apply in_sequence_intro.
  - intros weights in_features hidden_features num_classes n_layer r_adj r_upd next.
    destruct (hidden_linears_constructed (in_features :: hidden_features)
                (seq 0 (length (in_features :: hidden_features) - 1)) next)
      as (linears & next1 & Hlin).
    { intros i Hi. apply in_seq in Hi. cbn [length] in *. lia. }
    destruct (comprehension_Layer "HMPNNLayer" weights
                [("in_channels",
                  PyInt (last (in_features :: hidden_features) in_features));
                 ("adjacency_dropout", PyFloat r_adj);
                 ("updating_dropout", PyFloat r_upd)] n_layer next1)
      as (layers & Hc & Hlen & Hps & Hargs).
    do 2 eexists. split.
    { unfold HMPNN_init, HMPNNLayer. unfold cbind at 1. rewrite Hlin.
      unfold cbind at 1. rewrite Hc. cbn. reflexivity. }
    match goal with |- context [stack_of ?s] => set (self := s) end.
    assert (Hl : layers_of self = Ok layers) by apply iter_ModuleList.
    split; [now exists layers|].
    intros messages st training x_0 x_1 incidence_1 g hidden h_0 h_1 Hh H0 H1.
    unfold HMPNN_forward. rewrite Hh. cbn [obind]. rewrite H0, H1, Hl.
    cbn [obind]. now apply in_sequence_intro.
Qed.

End ModelsFacts.

(* ===================================================================== *)
(** * Softmax *)

Module FloatsFacts.
Import Torch Floats Models.
#[local] Open Scope R_scope.

Section Rounded.
Context `{Float32Laws}.

(** A real between two floats is rounded to a float between them. *)
Lemma round_between lo hi r :
  round lo = Fin lo -> round hi = Fin hi -> lo <= r <= hi ->
  exists v, round r = Fin v /\ lo <= v <= hi.
Proof.
  intros Hlo Hhi [Hl Hh].
  pose proof (round_monotone lo r Hl) as H1.
  pose proof (round_monotone r hi Hh) as H2.
  rewrite Hlo in H1. rewrite Hhi in H2.
  destruct (round r) as [|[|]|v]; cbn in H1, H2; try contradiction.
  exists v. now split.
Qed.

(** A real that is not positive is rounded to minus infinity or to a float
    that is not positive: its exponential lies between 0 and 1. *)
Lemma exp_round_nonpos r :
  r <= 0 -> exists u, fl_exp (round r) = Fin u /\ 0 <= u <= 1.
Proof.
  intros Hr. pose proof (round_monotone r 0 Hr) as Hm. rewrite round_0 in Hm.
  destruct (round r) as [|[|]|v] eqn:E; cbn in Hm; try contradiction.
  - exists 0. cbn. split; [reflexivity|lra].
  - cbn. now apply exp32_unit.
Qed.

Lemma exp_round_0 : fl_exp (round 0) = Fin 1.
Proof. rewrite round_0. cbn. apply exp32_0. Qed.

(** The quotient of a number between 0 and 1 by a sum between 1 and 2 *)
Lemma div_unit u S :
  0 <= u <= 1 -> 1 <= S <= 2 ->
  exists p, fl_div (Fin u) (Fin S) = Fin p /\ 0 <= p <= 1.
Proof.
  intros Hu HS. cbn [fl_div]. destruct (Req_dec_T S 0) as [E|_]; [lra|].
  apply (round_between 0 1); [apply round_0|apply round_1|].
  assert (0 < / S) by (apply Rinv_0_lt_compat; lra).
  assert (/ S <= 1) by (rewrite <- Rinv_1; apply Rinv_le_contravar; lra).
  unfold Rdiv. split; nra.
Qed.

(** The quotient of 1 by a sum between 1 and 2 is at least 1/2. *)
Lemma div_one S :
  1 <= S <= 2 ->
  exists q, fl_div (Fin 1) (Fin S) = Fin q /\ 1 / 2 <= q <= 1.
Proof.
  intros HS. cbn [fl_div]. destruct (Req_dec_T S 0) as [E|_]; [lra|].
  apply (round_between (1 / 2) 1); [apply round_half|apply round_1|].
  assert (/ 2 <= / S) by (apply Rinv_le_contravar; lra).
  assert (/ S <= 1) by (rewrite <- Rinv_1; apply Rinv_le_contravar; lra).
  unfold Rdiv. rewrite !Rmult_1_l. lra.
Qed.

Lemma div_le u S :
  0 <= u <= 1 -> 1 <= S <= 2 ->
  forall p q, fl_div (Fin u) (Fin S) = Fin p -> fl_div (Fin 1) (Fin S) = Fin q ->
              p <= q.
Proof.
  intros Hu HS p q. cbn [fl_div]. destruct (Req_dec_T S 0) as [E|_]; [lra|].
  intros Hp Hq.
  assert (Hle : u / S <= 1 / S).
  { assert (0 < / S) by (apply Rinv_0_lt_compat; lra). unfold Rdiv. nra. }
  pose proof (round_monotone _ _ Hle) as Hm. rewrite Hp, Hq in Hm. exact Hm.
Qed.

(** The softmax of two finite logits, the second at least the first. *)
Lemma softmax_row_finite_le r s :
  r <= s ->
  exists p q,
    softmax_row [Fin r; Fin s] = [Fin p; Fin q] /\
    0 <= p <= 1 /\ 0 <= q <= 1 /\ p <= q /\
    (r = s -> p = 1 / 2 /\ q = 1 / 2).
Proof.
  intros Hrs. cbn [softmax_row fold_left map hd tl fl_max fl_sub].
  rewrite (Rmax_right r s Hrs).
  replace (s - s) with 0 by ring. rewrite exp_round_0.
  destruct (exp_round_nonpos (r - s)) as (u & Eu & Hu); [lra|]. rewrite Eu.
  cbn [fl_radd].
  destruct (round_between 1 2 (u + 1) round_1 round_2) as (S & HS & HS12); [lra|].
  rewrite HS.
  destruct (div_unit u S Hu HS12) as (p & Hp & Hp01).
  destruct (div_one S HS12) as (q & Hq & Hq01).
  exists p, q. rewrite Hp, Hq. split; [reflexivity|].
  split; [exact Hp01|]. split; [lra|].
  split; [exact (div_le u S Hu HS12 p q Hp Hq)|].
  intros ->. replace (s - s) with 0 in Eu by ring.
  rewrite exp_round_0 in Eu. injection Eu as <-.
  replace (1 + 1) with 2 in HS by ring. rewrite round_2 in HS.
  injection HS as <-. revert Hp Hq.
  cbn [fl_div]. destruct (Req_dec_T 2 0) as [E|_]; [lra|].
  rewrite round_half. now intros [= <-] [= <-].
Qed.

(** The softmax of two finite logits, the first at least the second. *)
Lemma softmax_row_finite_ge r s :
  s <= r ->
  exists p q,
    softmax_row [Fin r; Fin s] = [Fin p; Fin q] /\
    0 <= p <= 1 /\ 0 <= q <= 1 /\ q <= p /\
    (r = s -> p = 1 / 2 /\ q = 1 / 2).
Proof.
  intros Hrs. cbn [softmax_row fold_left map hd tl fl_max fl_sub].
  rewrite (Rmax_left r s Hrs).
  replace (r - r) with 0 by ring. rewrite exp_round_0.
  destruct (exp_round_nonpos (s - r)) as (u & Eu & Hu); [lra|]. rewrite Eu.
  cbn [fl_radd].
  destruct (round_between 1 2 (1 + u) round_1 round_2) as (S & HS & HS12); [lra|].
  rewrite HS.
  destruct (div_unit u S Hu HS12) as (q & Hq & Hq01).
  destruct (div_one S HS12) as (p & Hp & Hp01).
  exists p, q. rewrite Hp, Hq. split; [reflexivity|].
  split; [lra|]. split; [exact Hq01|].
  split; [exact (div_le u S Hu HS12 q p Hq Hp)|].
  intros <-. replace (r - r) with 0 in Eu by ring.
  rewrite exp_round_0 in Eu. injection Eu as <-.
  replace (1 + 1) with 2 in HS by ring. rewrite round_2 in HS.
  injection HS as <-. revert Hp Hq.
  cbn [fl_div]. destruct (Req_dec_T 2 0) as [E|_]; [lra|].
  rewrite round_half. now intros [= <-] [= <-].
Qed.

(** The softmax of the logits of a row of two entries *)
Lemma softmax_row_two a b : soft_row [a; b] (softmax_row [a; b]).
Proof.
  destruct a as [|[|]|r], b as [|[|]|s];
    try (apply soft_row_nan; unfold undefined_logits; tauto).
  - (* minus infinity and a number *)
    cbn [softmax_row fold_left map hd tl fl_max fl_sub negb fl_exp].
    replace (s - s) with 0 by ring. rewrite exp_round_0. cbn [fl_radd].
    rewrite Rplus_0_l, round_1. cbn [fl_div].
    destruct (Req_dec_T 1 0) as [E|_]; [lra|].
    replace (0 / 1) with 0 by field. replace (1 / 1) with 1 by field.
    rewrite round_0, round_1.
    apply soft_row_scores; try lra.
    + unfold undefined_logits. intros [E|[E|[E|[E|[_ E]]]]]; discriminate.
    + intros E. cbn in E. contradiction.
    + discriminate.
  - (* a number and minus infinity *)
    cbn [softmax_row fold_left map hd tl fl_max fl_sub negb fl_exp].
    replace (r - r) with 0 by ring. rewrite exp_round_0. cbn [fl_radd].
    rewrite Rplus_0_r, round_1. cbn [fl_div].
    destruct (Req_dec_T 1 0) as [E|_]; [lra|].
    replace (0 / 1) with 0 by field. replace (1 / 1) with 1 by field.
    rewrite round_0, round_1.
    apply soft_row_scores; try lra.
    + unfold undefined_logits. intros [E|[E|[E|[E|[E _]]]]]; discriminate.
    + intros E. cbn in E. contradiction.
    + discriminate.
  - (* two numbers *)
    assert (Hdef : ~ undefined_logits (Fin r) (Fin s)).
    { unfold undefined_logits. intros [E|[E|[E|[E|[E _]]]]]; discriminate. }
    destruct (Rle_lt_dec r s) as [Hle|Hlt].
    + destruct (softmax_row_finite_le r s Hle) as (p & q & -> & Hp & Hq & Hpq & He).
      apply soft_row_scores; try assumption.
      * intros _. exact Hpq.
      * cbn. intros Hsr. assert (Heq : r = s) by lra. destruct (He Heq). lra.
      * intros [= E]. now apply He.
    + destruct (softmax_row_finite_ge r s) as (p & q & -> & Hp & Hq & Hpq & He);
        [lra|].
      apply soft_row_scores; try assumption.
      * cbn. lra.
      * intros _. exact Hpq.
      * intros [= E]. now apply He.
Qed.

End Rounded.

Section Grid.
Context {f : Float32} {laws : Float32Laws f} {grid : Float32Grid f}.

(** The exponential of a rounded real that is not positive is a float
    between 0 and 1. *)
Lemma exp_round_float r :
  r <= 0 ->
  exists u, fl_exp (round r) = Fin u /\ 0 <= u <= 1 /\ round u = Fin u.
Proof.
  intros Hr. pose proof (round_monotone r 0 Hr) as Hm. rewrite round_0 in Hm.
  destruct (round r) as [|[|]|v] eqn:E; cbn in Hm; try contradiction.
  - exists 0. cbn. split; [reflexivity|]. split; [lra|apply round_0].
  - cbn. destruct (exp32_unit v Hm) as (u & Hu & Hu01).
    exists u. split; [exact Hu|]. split; [exact Hu01|].
    now apply (exp32_float v).
Qed.

(** The smaller of two exponentials over their rounded sum is at most 1/2. *)
Lemma div_smaller_half u S p :
  0 <= u <= 1 -> round u = Fin u ->
  round (u + 1) = Fin S ->
  fl_div (Fin u) (Fin S) = Fin p ->
  p <= 1 / 2.
Proof.
  intros Hu Hfloat HS Hp.
  assert (H2u : 2 * u <= S).
  { assert (Hle : 2 * u <= u + 1) by lra.
    pose proof (round_monotone _ _ Hle) as Hm.
    rewrite (round_double u Hfloat Hu), HS in Hm. exact Hm. }
  assert (H1S : 1 <= S).
  { assert (Hle : 1 <= u + 1) by lra.
    pose proof (round_monotone _ _ Hle) as Hm.
    rewrite round_1, HS in Hm. exact Hm. }
  revert Hp. cbn [fl_div]. destruct (Req_dec_T S 0) as [E|_]; [lra|].
  intros Hp.
  assert (Hle : u / S <= 1 / 2).
  { apply (Rmult_le_reg_r S); [lra|]. unfold Rdiv.
    rewrite Rmult_assoc, Rinv_l by lra. lra. }
  pose proof (round_monotone _ _ Hle) as Hm.
  rewrite Hp, round_half in Hm. exact Hm.
Qed.

Lemma softmax_row_le_half r s :
  r <= s ->
  forall p q, softmax_row [Fin r; Fin s] = [Fin p; Fin q] -> p <= 1 / 2.
Proof.
  intros Hrs p q. cbn [softmax_row fold_left map hd tl fl_max fl_sub].
  rewrite (Rmax_right r s Hrs).
  replace (s - s) with 0 by ring. rewrite exp_round_0.
  destruct (exp_round_float (r - s)) as (u & Eu & Hu & Hfloat); [lra|].
  rewrite Eu. cbn [fl_radd].
  destruct (round_between 1 2 (u + 1) round_1 round_2) as (S & HS & HS12); [lra|].
  rewrite HS. intros [= Hp _].
  exact (div_smaller_half u S p Hu Hfloat HS Hp).
Qed.

Lemma softmax_row_ge_half r s :
  s <= r ->
  forall p q, softmax_row [Fin r; Fin s] = [Fin p; Fin q] -> q <= 1 / 2.
Proof.
  intros Hrs p q. cbn [softmax_row fold_left map hd tl fl_max fl_sub].
  rewrite (Rmax_left r s Hrs).
  replace (r - r) with 0 by ring. rewrite exp_round_0.
  destruct (exp_round_float (s - r)) as (u & Eu & Hu & Hfloat); [lra|].
  rewrite Eu. cbn [fl_radd].
  destruct (round_between 1 2 (1 + u) round_1 round_2) as (S & HS & HS12); [lra|].
  rewrite HS. intros [= _ Hq].
  rewrite Rplus_comm in HS.
  exact (div_smaller_half u S q Hu Hfloat HS Hq).
Qed.

End Grid.

(** Exact arithmetic has what the proofs use of float32. *)
Lemma exact_laws : Float32Laws exact.
Proof.
  split; cbn; try reflexivity.
  - intros r s Hrs. exact Hrs.
  - intros r Hr. exists (exp r). split; [reflexivity|]. split.
    + left. apply exp_pos.
    + rewrite <- exp_0. destruct Hr as [Hr| ->]; [|lra].
      left. now apply exp_increasing.
  - now rewrite exp_0.
Qed.

(** The floats that overflow at the largest number of float32 have the laws
    too. *)
Lemma overflowing_laws : Float32Laws Examples.overflowing.
Proof.
  split; cbn [round exp32 Examples.overflowing].
  - intros r s Hrs.
    destruct (Rlt_dec Examples.largest r), (Rlt_dec Examples.largest s); cbn;
      try exact I; try (unfold Examples.largest in *; lra);
      destruct (Rlt_dec r (- Examples.largest)),
               (Rlt_dec s (- Examples.largest)); cbn;
      try exact I; try (unfold Examples.largest in *; lra).
  - destruct (Rlt_dec Examples.largest 0); [unfold Examples.largest in *; lra|].
    destruct (Rlt_dec 0 (- Examples.largest));
      [unfold Examples.largest in *; lra|reflexivity].
  - destruct (Rlt_dec Examples.largest (1 / 2));
      [unfold Examples.largest in *; lra|].
    destruct (Rlt_dec (1 / 2) (- Examples.largest));
      [unfold Examples.largest in *; lra|reflexivity].
  - destruct (Rlt_dec Examples.largest 1); [unfold Examples.largest in *; lra|].
    destruct (Rlt_dec 1 (- Examples.largest));
      [unfold Examples.largest in *; lra|reflexivity].
  - destruct (Rlt_dec Examples.largest 2); [unfold Examples.largest in *; lra|].
    destruct (Rlt_dec 2 (- Examples.largest));
      [unfold Examples.largest in *; lra|reflexivity].
  - intros r Hr.
    assert (Hexp : 0 < exp r <= 1).
    { split; [apply exp_pos|]. rewrite <- exp_0.
      destruct Hr as [Hr| ->]; [|lra]. left. now apply exp_increasing. }
    exists (exp r).
    destruct (Rlt_dec Examples.largest (exp r));
      [unfold Examples.largest in *; lra|].
    destruct (Rlt_dec (exp r) (- Examples.largest));
      [unfold Examples.largest in *; lra|].
    split; [reflexivity|lra].
  - rewrite exp_0.
    destruct (Rlt_dec Examples.largest 1); [unfold Examples.largest in *; lra|].
    destruct (Rlt_dec 1 (- Examples.largest));
      [unfold Examples.largest in *; lra|reflexivity].
Qed.

(** Both have what the proofs use of the grid of float32. *)
Lemma exact_grid : Float32Grid exact.
Proof. split; cbn; reflexivity. Qed.

Lemma overflowing_grid : Float32Grid Examples.overflowing.
Proof.
  split; cbn [round exp32 Examples.overflowing].
  - intros r v.
    destruct (Rlt_dec Examples.largest (exp r)); [discriminate|].
    destruct (Rlt_dec (exp r) (- Examples.largest)); [discriminate|].
    intros [= <-].
    destruct (Rlt_dec Examples.largest (exp r)); [contradiction|].
    destruct (Rlt_dec (exp r) (- Examples.largest));
      [contradiction|reflexivity].
  - intros v _ Hv.
    destruct (Rlt_dec Examples.largest (2 * v));
      [unfold Examples.largest in *; lra|].
    destruct (Rlt_dec (2 * v) (- Examples.largest));
      [unfold Examples.largest in *; lra|].
    reflexivity.
Qed.

(** In exact arithmetic the two entries of a row of numbers sum to 1. *)
Lemma softmax_row_exact_sum (f : Float32) a b :
  is_exact f -> sums_to_one (softmax_row [a; b]).
Proof.
  intros [Hround Hexp] p q.
  destruct a as [|[|]|r], b as [|[|]|s]; try discriminate;
    cbn [softmax_row fold_left map hd tl fl_max fl_sub negb fl_exp fl_radd
         Bool.eqb];
    rewrite ?Hround, ?Hexp; cbn [fl_exp fl_radd fl_div]; try discriminate;
    rewrite ?Hround, ?Hexp; cbn [fl_exp fl_radd fl_div]; try discriminate;
    rewrite ?Hround.
  - (* minus infinity and a number *)
    pose proof (exp_pos (s - s)).
    destruct (Req_dec_T (0 + exp (s - s)) 0) as [E|_]; [lra|].
    intros [= <- <-]. field. lra.
  - (* a number and minus infinity *)
    pose proof (exp_pos (r - r)).
    destruct (Req_dec_T (exp (r - r) + 0) 0) as [E|_]; [lra|].
    intros [= <- <-]. field. lra.
  - (* two numbers *)
    pose proof (exp_pos (r - Rmax r s)). pose proof (exp_pos (s - Rmax r s)).
    destruct (Req_dec_T (exp (r - Rmax r s) + exp (s - Rmax r s)) 0) as [E|_];
      [lra|].
    intros [= <- <-]. field. lra.
Qed.

(** In exact arithmetic the softmax of two numbers is their exponentials
    over the sum of the two. *)
Lemma softmax_row_exact (f : Float32) a b :
  is_exact f -> softmax_of [a; b] (softmax_row [a; b]).
Proof.
  intros [Hround Hexp] r s [= -> ->].
  cbn [softmax_row fold_left map hd tl fl_max fl_sub fl_exp fl_radd].
  rewrite !Hround. cbn [fl_exp]. rewrite !Hexp. cbn [fl_radd].
  rewrite Hround. cbn [fl_div].
  set (m := Rmax r s).
  pose proof (exp_pos r). pose proof (exp_pos s). pose proof (exp_pos m).
  assert (Er : exp (r - m) = exp r / exp m).
  { unfold Rminus. rewrite exp_plus, exp_Ropp. reflexivity. }
  assert (Es : exp (s - m) = exp s / exp m).
  { unfold Rminus. rewrite exp_plus, exp_Ropp. reflexivity. }
  rewrite Er, Es.
  assert (Hpos : 0 < exp r / exp m + exp s / exp m).
  { apply Rplus_lt_0_compat; apply Rdiv_lt_0_compat; assumption. }
  destruct (Req_dec_T (exp r / exp m + exp s / exp m) 0) as [E|_]; [lra|].
  rewrite !Hround.
  f_equal; [f_equal; field; lra|]. f_equal. f_equal. field. lra.
Qed.

End FloatsFacts.

(* ===================================================================== *)
(** * The output of SCoNeNN *)

Module SCoNeNNFacts.
Import Torch TorchModule Floats Models TorchModuleFacts ModelsFacts FloatsFacts.

(** What the constructor of SCoNeNN returns. *)
Lemma SCoNeNN_init_inv weights channels n_layers next self next' :
  SCoNeNN_init weights channels n_layers next = Ok (self, next') ->
  exists layers a,
    length layers = n_layers /\
    layers_of self = Ok layers /\
    getattr self "linear"
      = Ok (Module_ "Linear" [("weight", a); ("bias", S a)] []
              [("in_features", PyInt channels); ("out_features", PyInt 2)]).
Proof.
  destruct (comprehension_Layer "SCoNeLayer" weights
              [("channels", PyInt channels)] n_layers next)
    as (layers & Hc & Hlen & _ & _).
  unfold SCoNeNN_init, SCoNeLayer, cbind. rewrite Hc. cbn.
  intros [= <- <-]. exists layers. eexists.
  split; [assumption|]. split; reflexivity.
Qed.

(** Layers that keep the shape of the features keep it along the stack. *)
Lemma for_each_has_shape {F} (call : pyobj -> tensor F -> outcome (tensor F))
    n c layers :
  (forall layer x, has_shape x n c ->
     exists x', call layer x = Ok x' /\ has_shape x' n c) ->
  forall x, has_shape x n c ->
    exists h, for_each call layers x = Ok h /\ has_shape h n c.
Proof.
  intros Hcall. induction layers as [|l layers IH]; intros x Hx.
  - exists x. now split.
  - destruct (Hcall l x Hx) as (x' & Hx' & Hs). cbn [for_each]. rewrite Hx'.
    cbn [obind]. now apply IH.
Qed.

(** The linear layer maps [[n, in]] features to [[n, out]] features. *)
Lemma Linear_forward_shape {F} `{Scalar F} (st : store F) m x n c_in c_out :
  linear_has_shape st m c_in c_out ->
  has_shape x n c_in ->
  exists t,
    Linear_forward st m x = Ok (Mat t) /\
    size t = (n, c_out) /\
    length (data t) = n /\
    Forall (fun row => length row = c_out) (data t).
Proof.
  intros (w & b & Hw & Hb & Hsw & Hdw & Hlb) Hx.
  destruct x as [v|t]; [contradiction|]. destruct Hx as [Hst Hdt].
  unfold Linear_forward. rewrite Hw, Hb. cbn [obind linear].
  rewrite Hst, Hsw, Hlb. cbn [fst snd]. rewrite !Nat.eqb_refl. cbn [andb].
  eexists. split; [reflexivity|]. cbn [size data]. repeat split.
  - now rewrite length_map.
  - apply Forall_forall. intros row Hrow. apply in_map_iff in Hrow.
    destruct Hrow as (r & <- & _). rewrite length_map, length_combine.
    rewrite Hdw, Hlb. apply Nat.min_id.
Qed.

(** The logits of a forward pass of SCoNeNN and its output. *)
Lemma SCoNeNN_forward_logits (arith : Scalar fl) (f : Float32)
    weights channels n_layers next self next'
    (fwd : SCoNeLayer_call) st x_1 up_lap1 down_lap1 iden n_edges linear :
  SCoNeNN_init weights channels n_layers next = Ok (self, next') ->
  getattr self "linear" = Ok linear ->
  linear_has_shape st linear channels 2 ->
  (forall layer x, has_shape x n_edges channels ->
     exists x', fwd st layer x up_lap1 down_lap1 iden = Ok x' /\
                has_shape x' n_edges channels) ->
  has_shape x_1 n_edges channels ->
  exists layers h z,
    layers_of self = Ok layers /\
    for_each (fun layer x_1 => fwd st layer x_1 up_lap1 down_lap1 iden)
             layers x_1 = Ok h /\
    Linear_forward st linear h = Ok (Mat z) /\
    size z = (n_edges, 2) /\
    length (data z) = n_edges /\
    Forall (fun row => length row = 2) (data z) /\
    SCoNeNN_forward fwd st self x_1 up_lap1 down_lap1 iden
    = Ok (Mat (Tensor2 (size z) (map softmax_row (data z)))).
Proof.
  intros Hinit Hlin Hshape Hlayers Hx.
  destruct (SCoNeNN_init_inv _ _ _ _ _ _ Hinit) as (layers & a & _ & Hl & _).
  destruct (for_each_has_shape
              (fun layer x => fwd st layer x up_lap1 down_lap1 iden)
              n_edges channels layers Hlayers x_1 Hx) as (h & Hh & Hhs).
  destruct (Linear_forward_shape st linear h n_edges channels 2 Hshape Hhs)
    as (z & Hz & Hsz & Hdz & Hrows).
  exists layers, h, z. repeat (split; [assumption|]).
  unfold SCoNeNN_forward. rewrite Hl. cbn [obind]. rewrite Hh. cbn [obind].
  unfold SCoNeNN_head. rewrite Hlin. cbn [obind]. rewrite Hz. reflexivity.
Qed.

(** The softmax of rows of two logits, row by row. *)
Lemma softmax_rows `{Float32Laws} (rows : list (list fl)) :
  Forall (fun row => length row = 2) rows ->
  Forall2 soft_row rows (map softmax_row rows).
Proof.
  induction 1 as [|row rows Hrow _ IH]; cbn [map]; constructor; [|exact IH].
  destruct row as [|a [|b [|c row]]]; try discriminate. apply softmax_row_two.
Qed.

Lemma softmax_rows_exact (f : Float32) (rows : list (list fl)) :
  is_exact f ->
  Forall (fun row => length row = 2) rows ->
  Forall sums_to_one (map softmax_row rows).
Proof.
  intros Hf. induction 1 as [|row rows Hrow _ IH]; cbn [map]; constructor;
    [|exact IH].
  destruct row as [|a [|b [|c row]]]; try discriminate.
  now apply softmax_row_exact_sum.
Qed.

Lemma softmax_rows_softmax_of (f : Float32) (rows : list (list fl)) :
  is_exact f ->
  Forall (fun row => length row = 2) rows ->
  Forall2 softmax_of rows (map softmax_row rows).
Proof.
  intros Hf. induction 1 as [|row rows Hrow _ IH]; cbn [map]; constructor;
    [|exact IH].
  destruct row as [|a [|b [|c row]]]; try discriminate.
  now apply softmax_row_exact.
Qed.

(** C9, as the code has it: for every input with one row per edge,
    [SCoNeNN.forward] returns a tensor of shape [[n_edges, 2]], one row per
    edge, and each row is what the softmax makes of the two logits the
    linear layer gives the edge.  A row with a logit that is NaN or plus
    infinity, or with two logits minus infinity, is [[NaN, NaN]].  Any other
    row holds two numbers between 0 and 1, the larger for the larger logit
    and 1/2 each for equal logits: scores, not one-hot labels.  In exact
    arithmetic the row of the logits [a] and [b] is [exp a / (exp a + exp b)]
    and [exp b / (exp a + exp b)], and its two numbers sum to 1; float32
    rounds them. *)
Theorem SCoNeNN_forward_soft_rows (arith : Scalar fl) (f : Float32)
    (laws : Float32Laws f) weights channels n_layers next self next'
    (fwd : SCoNeLayer_call) st x_1 up_lap1 down_lap1 iden n_edges linear :
  SCoNeNN_init weights channels n_layers next = Ok (self, next') ->
  getattr self "linear" = Ok linear ->
  linear_has_shape st linear channels 2 ->
  (forall layer x, has_shape x n_edges channels ->
     exists x', fwd st layer x up_lap1 down_lap1 iden = Ok x' /\
                has_shape x' n_edges channels) ->
  has_shape x_1 n_edges channels ->
  exists t,
    SCoNeNN_output fwd st self x_1 up_lap1 down_lap1 iden n_edges t /\
    (is_exact f -> Forall sums_to_one (data t)).
Proof.
  intros Hinit Hlin Hshape Hlayers Hx.
  destruct (SCoNeNN_forward_logits arith f _ _ _ _ _ _ fwd st x_1 up_lap1
              down_lap1 iden n_edges linear Hinit Hlin Hshape Hlayers Hx)
    as (layers & h & z & Hl & Hh & Hz & Hsz & Hdz & Hrows & Hf).
  exists (Tensor2 (size z) (map softmax_row (data z))). split.
  - unfold SCoNeNN_output. cbn [size data]. split; [exact Hf|].
    split; [exact Hsz|]. split; [now rewrite length_map|].
    exists layers, h, linear, z. repeat (split; [assumption|]).
    split; [now apply softmax_rows|].
    intros Hf'. now apply softmax_rows_softmax_of.
  - intros Hf'. cbn [data]. now apply softmax_rows_exact.
Qed.

End SCoNeNNFacts.

(* ===================================================================== *)
(** * Pooling: [nanmean] and the replacement of NaN *)

Module PoolingFacts.
Import Torch TorchModule Floats Models ModelsFacts.

Lemma fl_add_0_l x : fl_add (Fin 0) x = x.
Proof. destruct x; cbn; try reflexivity. now rewrite Rplus_0_l. Qed.

Lemma fl_add_0_r x : fl_add x (Fin 0) = x.
Proof. destruct x; cbn; try reflexivity. now rewrite Rplus_0_r. Qed.

Lemma setitem_isnan_nan_free v :
  Forall (fun e => isnan e = false)
    (map (fun xb : fl * bool => if snd xb then Fin 0 else fst xb)
         (combine v (map isnan v))).
Proof.
  induction v as [|x v IH]; cbn; constructor; [|exact IH].
  destruct x; reflexivity.
Qed.

(** After the replacement, a mean holds no NaN. *)
Lemma cells_mean_nan_free x : nan_free (cells_mean x).
Proof.
  unfold cells_mean. destruct x as [v|t]; cbn.
  - constructor; [|constructor]. now destruct (nanmean_column v).
  - apply setitem_isnan_nan_free.
Qed.

Lemma cells_mean_is_vec x : exists v, cells_mean x = Vec v.
Proof. destruct x; cbn; eauto. Qed.

(** The mean over no cell is NaN in every column, hence replaced by 0. *)
Lemma cells_mean_no_row sz : zeros (cells_mean (Mat (Tensor2 sz []))).
Proof.
  unfold cells_mean. cbn. generalize (seq 0 (snd sz)) as js.
  induction js as [|j js IH]; cbn; constructor; [reflexivity|exact IH].
Qed.

(** A linear layer gives no row for no row. *)
Lemma Linear_forward_no_row (st : store fl) lin x z :
  empty_dimension x -> Linear_forward st lin x = Ok z ->
  exists sz, z = Mat (Tensor2 sz []).
Proof.
  intros Hx. unfold Linear_forward.
  destruct (get_parameter st lin "weight") as [w|]; [|discriminate].
  destruct (get_parameter st lin "bias") as [b|]; [|discriminate].
  cbn [obind]. destruct w as [|w]; [discriminate|].
  destruct b as [b|]; [|discriminate]. destruct x as [|t]; [contradiction|].
  cbn in Hx. cbn [linear]. destruct (_ && _); [|discriminate].
  intros [= <-]. rewrite Hx. cbn. eauto.
Qed.

Lemma pooled_safe st self name x m :
  pooled st self name x m ->
  nan_free m /\ (empty_dimension x -> zeros m).
Proof.
  intros (lin & z & _ & Hz & ->). split; [apply cells_mean_nan_free|].
  intros Hx. destruct (Linear_forward_no_row _ _ _ _ Hx Hz) as (sz & ->).
  apply cells_mean_no_row.
Qed.

Lemma map_add_zeros_l (z v : list fl) :
  length z = length v -> Forall (fun e => e = Fin 0) z ->
  map (fun xy : fl * fl => fl_add (fst xy) (snd xy)) (combine z v) = v.
Proof.
  revert v. induction z as [|a z IH]; intros [|b v] Hlen Hz; try discriminate.
  - reflexivity.
  - inversion Hz as [|? ? Ha Hz']; subst. cbn [combine map fst snd].
    rewrite fl_add_0_l. f_equal. apply IH; [now injection Hlen|assumption].
Qed.

Lemma map_add_zeros_r (v z : list fl) :
  length v = length z -> Forall (fun e => e = Fin 0) z ->
  map (fun xy : fl * fl => fl_add (fst xy) (snd xy)) (combine v z) = v.
Proof.
  revert z. induction v as [|b v IH]; intros [|a z] Hlen Hz; try discriminate.
  - reflexivity.
  - inversion Hz as [|? ? Ha Hz']; subst. cbn [combine map fst snd].
    rewrite fl_add_0_r. f_equal. apply IH; [now injection Hlen|assumption].
Qed.

(** Adding the zeros of an empty dimension changes nothing. *)
Lemma tensor_add_zeros_l z m s :
  zeros z -> tensor_add z m = Ok s -> s = m.
Proof.
  destruct z as [z|]; [|contradiction]. intros Hz.
  destruct m as [v|]; [|discriminate].
  cbn in *. destruct (length z =? length v) eqn:Hlen; [|discriminate].
  apply Nat.eqb_eq in Hlen. intros [= <-]. f_equal. now apply map_add_zeros_l.
Qed.

Lemma tensor_add_zeros_r m z s :
  zeros z -> tensor_add m z = Ok s -> s = m.
Proof.
  destruct z as [z|]; [|contradiction]. intros Hz.
  destruct m as [v|]; [|discriminate].
  cbn in *. destruct (length v =? length z) eqn:Hlen; [|discriminate].
  apply Nat.eqb_eq in Hlen. intros [= <-]. f_equal. now apply map_add_zeros_r.
Qed.

Lemma sum3_without_empty x_a x_b x_c m_a m_b m_c y :
  (empty_dimension x_a -> zeros m_a) ->
  (empty_dimension x_b -> zeros m_b) ->
  (empty_dimension x_c -> zeros m_c) ->
  sum3 m_a m_b m_c y ->
  summed_without_empty x_a x_b x_c m_a m_b m_c y.
Proof.
  intros Ha Hb Hc Hsum. split; [exact Hsum|].
  destruct Hsum as (s & Hs & Hy). repeat split; intros He.
  - apply (tensor_add_zeros_l _ _ _ (Ha He)) in Hs. now subst s.
  - apply (tensor_add_zeros_r _ _ _ (Hb He)) in Hs. now subst s.
  - apply (tensor_add_zeros_r _ _ _ (Hc He)) in Hy. now subst y.
Qed.

Lemma safe_means_intro st self n_0 n_1 n_2 x_0 x_1 x_2 m_0 m_1 m_2 :
  pooled st self n_0 x_0 m_0 -> pooled st self n_1 x_1 m_1 ->
  pooled st self n_2 x_2 m_2 ->
  safe_means x_0 x_1 x_2 m_0 m_1 m_2.
Proof.
  intros H0 H1 H2.
  destruct (pooled_safe _ _ _ _ _ H0), (pooled_safe _ _ _ _ _ H1),
    (pooled_safe _ _ _ _ _ H2).
  unfold safe_means. tauto.
Qed.

Lemma flatten_cells_mean z : flatten (cells_mean z) = cells_mean z.
Proof. destruct (cells_mean_is_vec z) as (v & ->). reflexivity. Qed.

(** The statements after the loop: the three means hold no NaN, the mean of
    a dimension without cells is a vector of zeros, and the output is then
    the sum of the other two means. *)
Lemma heads_replace_nan :
  (forall st self x_0 x_1 x_2 y,
     SCN2_head st self (x_0, x_1, x_2) = Ok y ->
     exists m_0 m_1 m_2,
       pooled st self "lin_0" x_0 m_0 /\ pooled st self "lin_1" x_1 m_1 /\
       pooled st self "lin_2" x_2 m_2 /\
       safe_means x_0 x_1 x_2 m_0 m_1 m_2 /\
       summed_without_empty x_2 x_1 x_0 m_2 m_1 m_0 y) /\
  (forall st self x_list y,
     AMPSSCA_head st self x_list = Ok y ->
     exists x_0 x_1 x_2 m_0 m_1 m_2,
       getitem x_list 0 = Ok x_0 /\ getitem x_list 1 = Ok x_1 /\
       getitem x_list 2 = Ok x_2 /\
       pooled st self "lin0" x_0 m_0 /\ pooled st self "lin1" x_1 m_1 /\
       pooled st self "lin2" x_2 m_2 /\
       safe_means x_0 x_1 x_2 m_0 m_1 m_2 /\
       summed_without_empty x_0 x_1 x_2 m_0 m_1 m_2 y) /\
  (forall st self x_0 x_1 x_2 y,
     CAN_head st self x_0 x_2 x_1 = Ok y ->
     exists m_0 m_1 m_2,
       pooled st self "lin_0" x_0 m_0 /\ pooled st self "lin_1" x_1 m_1 /\
       pooled st self "lin_2" x_2 m_2 /\
       safe_means x_0 x_1 x_2 m_0 m_1 m_2 /\
       summed_without_empty x_1 x_0 x_2 m_1 m_0 m_2 y).
Proof.
  split; [|split].
  - intros st self x_0 x_1 x_2 y. unfold SCN2_head.
    destruct (getattr self "lin_0") as [l0|] eqn:Hl0; [|discriminate]. cbn [obind].
    destruct (Linear_forward st l0 x_0) as [z0|] eqn:Hz0; [|discriminate]. cbn [obind].
    destruct (getattr self "lin_1") as [l1|] eqn:Hl1; [|discriminate]. cbn [obind].
    destruct (Linear_forward st l1 x_1) as [z1|] eqn:Hz1; [|discriminate]. cbn [obind].
    destruct (getattr self "lin_2") as [l2|] eqn:Hl2; [|discriminate]. cbn [obind].
    destruct (Linear_forward st l2 x_2) as [z2|] eqn:Hz2; [|discriminate]. cbn [obind].
    destruct (tensor_add (cells_mean z2) (cells_mean z1)) as [s|] eqn:Hs;
      [|discriminate]. cbn [obind]. intros Hy.
    assert (P0 : pooled st self "lin_0" x_0 (cells_mean z0)) by (exists l0, z0; auto).
    assert (P1 : pooled st self "lin_1" x_1 (cells_mean z1)) by (exists l1, z1; auto).
    assert (P2 : pooled st self "lin_2" x_2 (cells_mean z2)) by (exists l2, z2; auto).
    exists (cells_mean z0), (cells_mean z1), (cells_mean z2).
    repeat (split; [assumption|]).
    pose proof (safe_means_intro _ _ _ _ _ _ _ _ _ _ _ P0 P1 P2) as Hsafe.
    split; [exact Hsafe|].
    apply sum3_without_empty; try (unfold safe_means in Hsafe; tauto).
    now exists s.
  - intros st self x_list y. unfold AMPSSCA_head.
    destruct (getattr self "lin0") as [l0|] eqn:Hl0; [|discriminate]. cbn [obind].
    destruct (getitem x_list 0) as [x_0|] eqn:Hx0; [|discriminate]. cbn [obind].
    destruct (Linear_forward st l0 x_0) as [z0|] eqn:Hz0; [|discriminate]. cbn [obind].
    destruct (getattr self "lin1") as [l1|] eqn:Hl1; [|discriminate]. cbn [obind].
    destruct (getitem x_list 1) as [x_1|] eqn:Hx1; [|discriminate]. cbn [obind].
    destruct (Linear_forward st l1 x_1) as [z1|] eqn:Hz1; [|discriminate]. cbn [obind].
    destruct (getattr self "lin2") as [l2|] eqn:Hl2; [|discriminate]. cbn [obind].
    destruct (getitem x_list 2) as [x_2|] eqn:Hx2; [|discriminate]. cbn [obind].
    destruct (Linear_forward st l2 x_2) as [z2|] eqn:Hz2; [|discriminate]. cbn [obind].
    rewrite !flatten_cells_mean.
    destruct (tensor_add (cells_mean z0) (cells_mean z1)) as [s|] eqn:Hs;
      [|discriminate]. cbn [obind]. intros Hy.
    assert (P0 : pooled st self "lin0" x_0 (cells_mean z0)) by (exists l0, z0; auto).
    assert (P1 : pooled st self "lin1" x_1 (cells_mean z1)) by (exists l1, z1; auto).
    assert (P2 : pooled st self "lin2" x_2 (cells_mean z2)) by (exists l2, z2; auto).
    exists x_0, x_1, x_2, (cells_mean z0), (cells_mean z1), (cells_mean z2).
    repeat (split; [first [assumption | reflexivity]|]).
    pose proof (safe_means_intro _ _ _ _ _ _ _ _ _ _ _ P0 P1 P2) as Hsafe.
    split; [exact Hsafe|].
    apply sum3_without_empty; try (unfold safe_means in Hsafe; tauto).
    now exists s.
  - intros st self x_0 x_1 x_2 y. unfold CAN_head.
    destruct (getattr self "lin_0") as [l0|] eqn:Hl0; [|discriminate]. cbn [obind].
    destruct (Linear_forward st l0 x_0) as [z0|] eqn:Hz0; [|discriminate]. cbn [obind].
    destruct (getattr self "lin_1") as [l1|] eqn:Hl1; [|discriminate]. cbn [obind].
    destruct (Linear_forward st l1 x_1) as [z1|] eqn:Hz1; [|discriminate]. cbn [obind].
    destruct (getattr self "lin_2") as [l2|] eqn:Hl2; [|discriminate]. cbn [obind].
    destruct (Linear_forward st l2 x_2) as [z2|] eqn:Hz2; [|discriminate]. cbn [obind].
    destruct (tensor_add (cells_mean z1) (cells_mean z0)) as [s|] eqn:Hs;
      [|discriminate]. cbn [obind]. intros Hy.
    assert (P0 : pooled st self "lin_0" x_0 (cells_mean z0)) by (exists l0, z0; auto).
    assert (P1 : pooled st self "lin_1" x_1 (cells_mean z1)) by (exists l1, z1; auto).
    assert (P2 : pooled st self "lin_2" x_2 (cells_mean z2)) by (exists l2, z2; auto).
    exists (cells_mean z0), (cells_mean z1), (cells_mean z2).
    repeat (split; [assumption|]).
    pose proof (safe_means_intro _ _ _ _ _ _ _ _ _ _ _ P0 P1 P2) as Hsafe.
    split; [exact Hsafe|].
    apply sum3_without_empty; try (unfold safe_means in Hsafe; tauto).
    now exists s.
Qed.

(** What the loop of a forward pass returns comes out of the layers. *)
Lemma after_layers_intro {S} self (call : pyobj -> S -> outcome S) items s0 h :
  layers_of self = Ok items -> for_each call items s0 = Ok h ->
  after_layers self call s0 h.
Proof. intros Hl Hf. exists items. split; [exact Hl|]. now apply for_each_chain. Qed.

(** C10: in the forward passes of SCN2, AMPSSCA and CAN every NaN entry of a
    per-dimension mean is replaced by 0 before the three means are summed:
    the means of the features that come out of the layers hold no NaN, the
    mean of a dimension without cells is a vector of zeros, and the output
    is then the sum of the other two means. *)
Theorem nan_replaced_before_sum :
  (forall fwd st self x_0 x_1 x_2 l0 l1 l2 y,
     SCN2_forward fwd st self x_0 x_1 x_2 l0 l1 l2 = Ok y ->
     exists h_0 h_1 h_2 m_0 m_1 m_2,
       after_layers self (fun layer xs => fwd st layer xs l0 l1 l2)
         (x_0, x_1, x_2) (h_0, h_1, h_2) /\
       pooled st self "lin_0" h_0 m_0 /\ pooled st self "lin_1" h_1 m_1 /\
       pooled st self "lin_2" h_2 m_2 /\
       safe_means h_0 h_1 h_2 m_0 m_1 m_2 /\
       summed_without_empty h_2 h_1 h_0 m_2 m_1 m_0 y) /\
  (forall fwd st self x_0 x_1 x_2 down_laplacian up_laplacian y,
     CAN_forward fwd st self x_0 x_1 x_2 down_laplacian up_laplacian = Ok y ->
     exists h_1 m_0 m_1 m_2,
       after_layers self
         (fun layer x_1 => fwd st layer x_1 down_laplacian up_laplacian) x_1 h_1 /\
       pooled st self "lin_0" x_0 m_0 /\ pooled st self "lin_1" h_1 m_1 /\
       pooled st self "lin_2" x_2 m_2 /\
       safe_means x_0 h_1 x_2 m_0 m_1 m_2 /\
       summed_without_empty h_1 x_0 x_2 m_1 m_0 m_2 y) /\
  (forall fwd st self x_list down_lap_list incidencet_list y,
     AMPSSCA_forward fwd st self x_list down_lap_list incidencet_list = Ok y ->
     exists h_list h_0 h_1 h_2 m_0 m_1 m_2,
       getitem h_list 0 = Ok h_0 /\ getitem h_list 1 = Ok h_1 /\
       getitem h_list 2 = Ok h_2 /\
       pooled st self "lin0" h_0 m_0 /\ pooled st self "lin1" h_1 m_1 /\
       pooled st self "lin2" h_2 m_2 /\
       safe_means h_0 h_1 h_2 m_0 m_1 m_2 /\
       summed_without_empty h_0 h_1 h_2 m_0 m_1 m_2 y).
Proof.
  destruct heads_replace_nan as (Hscn2 & Hsca & Hcan).
  split; [|split].
  - intros fwd st self x_0 x_1 x_2 l0 l1 l2 y. unfold SCN2_forward.
    destruct (layers_of self) as [items|] eqn:Hl; [|discriminate]. cbn [obind].
    match goal with
    | |- context [for_each ?call items ?s0] =>
        destruct (for_each call items s0) as [[[h_0 h_1] h_2]|] eqn:Hf
    end; [|discriminate]. cbn [obind]. intros Hy.
    destruct (Hscn2 _ _ _ _ _ _ Hy) as (m_0 & m_1 & m_2 & Hp).
    exists h_0, h_1, h_2, m_0, m_1, m_2. split; [|exact Hp].
    now apply after_layers_intro with (items := items).
  - intros fwd st self x_0 x_1 x_2 down_laplacian up_laplacian y.
    unfold CAN_forward.
    destruct (layers_of self) as [items|] eqn:Hl; [|discriminate]. cbn [obind].
    match goal with
    | |- context [for_each ?call items ?s0] =>
        destruct (for_each call items s0) as [h_1|] eqn:Hf
    end; [|discriminate]. cbn [obind]. intros Hy.
    destruct (Hcan _ _ _ _ _ _ Hy) as (m_0 & m_1 & m_2 & Hp).
    exists h_1, m_0, m_1, m_2. split; [|exact Hp].
    now apply after_layers_intro with (items := items).
  - intros fwd st self x_list down_lap_list incidencet_list y.
    unfold AMPSSCA_forward.
    destruct (getattr self "n_layers") as [n|]; [|discriminate]. cbn [obind].
    destruct (range n) as [indices|]; [|discriminate]. cbn [obind].
    match goal with
    | |- context [for_each ?call indices ?s0] =>
        destruct (for_each call indices s0) as [h_list|]
    end; [|discriminate]. cbn [obind]. intros Hy.
    destruct (Hsca _ _ _ _ Hy) as (h_0 & h_1 & h_2 & m_0 & m_1 & m_2 & Hp).
    now exists h_list, h_0, h_1, h_2, m_0, m_1, m_2.
Qed.

End PoolingFacts.

(* ===================================================================== *)
(** * Forward passes and the state of the model *)

Module HMPNNFacts.
Import Torch TorchModule Floats Models ModelsFacts Examples.

(** In evaluation mode a layer draws nothing from the generator. *)
Lemma layer_dropout_eval {F} `{Scalar F} rate (x : tensor F) g r :
  layer_dropout false rate x g = Ok r ->
  r = (x, g) /\ forall g', layer_dropout false rate x g' = Ok (x, g').
Proof.
  unfold layer_dropout. destruct rate; try discriminate. cbn.
  intros [= <-]. split; reflexivity.
Qed.

(** Whatever the mode, dropout reads the generator from where it stands and
    leaves it further along the same sequence. *)
Lemma layer_dropout_advances {F} `{Scalar F} training rate (x : tensor F) g x' g' :
  layer_dropout training rate x g = Ok (x', g') ->
  tape g' = tape g /\ offset g <= offset g'.
Proof.
  unfold layer_dropout. destruct rate; try discriminate.
  destruct (training && negb (Qle_bool q 0)).
  - destruct x as [v|t]; cbn; intros [= _ <-]; cbn; split; (reflexivity || lia).
  - intros [= _ <-]. split; [reflexivity|lia].
Qed.

(** In evaluation mode the normalisation leaves its buffers as they are. *)
Lemma BatchNorm1d_eval {F} (messages : HMPNN_messages F) st layer name b x r :
  BatchNorm1d_forward messages st layer name false b x = Ok r -> snd r = b.
Proof. destruct x as [v|t]; cbn; [discriminate|]. now intros [= <-]. Qed.

(** In training mode it counts the batch. *)
Lemma BatchNorm1d_train {F} (messages : HMPNN_messages F) st layer name b x r :
  BatchNorm1d_forward messages st layer name true b x = Ok r ->
  num_batches_tracked (snd r) = S (num_batches_tracked b).
Proof.
  destruct x as [v|t]; cbn; [discriminate|].
  destruct (fst (size t) =? 1); [discriminate|]. now intros [= <-].
Qed.

(** A layer in evaluation mode: the generator and the buffers come back as
    they went in, and the features it returns do not depend on the
    generator. *)
Lemma HMPNNLayer_forward_eval {F} `{Scalar F} (messages : HMPNN_messages F)
    st layer x_0 x_1 inc g b r :
  HMPNNLayer_forward messages st layer false x_0 x_1 inc g b = Ok r ->
  exists y_0 y_1,
    r = (y_0, y_1, g, b) /\
    forall g', HMPNNLayer_forward messages st layer false x_0 x_1 inc g' b
               = Ok (y_0, y_1, g', b).
Proof.
  unfold HMPNNLayer_forward.
  destruct (getattr layer "adjacency_dropout") as [ra|]; [|discriminate].
  destruct (getattr layer "updating_dropout") as [ru|]; [|discriminate].
  cbn [obind].
  destruct (layer_dropout false ra inc g) as [ig|] eqn:Hi; [|discriminate].
  apply layer_dropout_eval in Hi. destruct Hi as [-> Hi]. cbn [obind fst snd].
  destruct (node_to_hyperedge messages st layer x_0 inc) as [nm|] eqn:Hn;
    [|discriminate].
  cbn [obind]. rewrite Hi. cbn [obind fst snd].
  destruct (hyperedge_to_node messages st layer x_1 inc (snd nm)) as [hm|] eqn:Hh;
    [|discriminate].
  cbn [obind].
  destruct (BatchNorm1d_forward messages st layer "node_batchnorm" false
              (node_batchnorm b) x_0) as [n|] eqn:Hbn; [|discriminate].
  pose proof (BatchNorm1d_eval _ _ _ _ _ _ _ Hbn) as Hn'. cbn [obind].
  destruct (layer_dropout false ru (fst n) g) as [xg0|] eqn:H0; [|discriminate].
  apply layer_dropout_eval in H0. destruct H0 as [-> H0]. cbn [obind fst snd].
  destruct (updating_func messages (fst n) hm) as [y_0|] eqn:Hu0; [|discriminate].
  cbn [obind].
  destruct (BatchNorm1d_forward messages st layer "hyperedge_batchnorm" false
              (hyperedge_batchnorm b) x_1) as [h|] eqn:Hbh; [|discriminate].
  pose proof (BatchNorm1d_eval _ _ _ _ _ _ _ Hbh) as Hh'. cbn [obind].
  destruct (layer_dropout false ru (fst h) g) as [xg1|] eqn:H1; [|discriminate].
  apply layer_dropout_eval in H1. destruct H1 as [-> H1]. cbn [obind fst snd].
  destruct (updating_func messages (fst h) (fst nm)) as [y_1|] eqn:Hu1;
    [|discriminate].
  cbn [obind]. intros [= <-]. exists y_0, y_1. rewrite Hn', Hh'.
  destruct b as [bn bh]. cbn [node_batchnorm hyperedge_batchnorm].
  split; [reflexivity|].
  intros g'. cbn [node_batchnorm hyperedge_batchnorm] in *.
  do 8 (rewrite ?Hi, ?Hn, ?Hh, ?Hbn, ?H0, ?Hu0, ?Hbh, ?H1, ?Hu1;
        cbn [obind fst snd]).
  reflexivity.
Qed.

Lemma HMPNN_call_eval {F} `{Scalar F} (messages : HMPNN_messages F) st inc
    layer x_0 x_1 rt r :
  HMPNN_call messages st false inc layer (x_0, x_1, rt) = Ok r ->
  exists y_0 y_1,
    r = (y_0, y_1, Runtime (rng rt) (buffers rt) (S (position rt))) /\
    forall g,
      HMPNN_call messages st false inc layer
        (x_0, x_1, Runtime g (buffers rt) (position rt))
      = Ok (y_0, y_1, Runtime g (buffers rt) (S (position rt))).
Proof.
  unfold HMPNN_call. cbn [buffers position rng].
  destruct (buffers rt !! position rt) as [b|] eqn:Hb; [|discriminate].
  destruct (HMPNNLayer_forward messages st layer false x_0 x_1 inc (rng rt) b)
    as [r1|] eqn:Hf; [|discriminate].
  apply HMPNNLayer_forward_eval in Hf. destruct Hf as (y_0 & y_1 & -> & Hf).
  cbn [obind]. intros [= <-]. exists y_0, y_1.
  rewrite (list_insert_id _ _ _ Hb). split; [reflexivity|].
  intros g. rewrite Hf. cbn [obind]. now rewrite (list_insert_id _ _ _ Hb).
Qed.

Lemma for_each_HMPNN_eval {F} `{Scalar F} (messages : HMPNN_messages F) st inc
    layers :
  forall x_0 x_1 rt r,
    for_each (HMPNN_call messages st false inc) layers (x_0, x_1, rt) = Ok r ->
    exists y_0 y_1,
      r = (y_0, y_1,
           Runtime (rng rt) (buffers rt) (position rt + length layers)) /\
      forall g,
        for_each (HMPNN_call messages st false inc) layers
          (x_0, x_1, Runtime g (buffers rt) (position rt))
        = Ok (y_0, y_1, Runtime g (buffers rt) (position rt + length layers)).
Proof.
  induction layers as [|l layers IH]; intros x_0 x_1 rt r.
  - cbn [for_each length]. rewrite Nat.add_0_r. intros [= <-].
    exists x_0, x_1. destruct rt. split; reflexivity.
  - cbn [for_each length].
    destruct (HMPNN_call messages st false inc l (x_0, x_1, rt)) as [r1|] eqn:Hc;
      [|discriminate].
    apply HMPNN_call_eval in Hc. destruct Hc as (z_0 & z_1 & -> & Hc).
    cbn [obind]. intros Hr. apply IH in Hr.
    destruct Hr as (y_0 & y_1 & -> & Hr). cbn [rng buffers position] in *.
    rewrite Nat.add_succ_r. exists y_0, y_1. split; [reflexivity|].
    intros g. rewrite Hc. cbn [obind]. apply Hr.
Qed.

(** In evaluation mode a pass of HMPNN is stateless. *)
Lemma HMPNN_eval_stateless {F} `{Scalar F} (messages : HMPNN_messages F)
    st self x_0 x_1 incidence_1 :
  stateless messages st self false x_0 x_1 incidence_1.
Proof.
  assert (Hgen : forall rt y rt',
             position rt = 0 ->
             HMPNN_forward messages st self false x_0 x_1 incidence_1 rt
               = Ok (y, rt') ->
             rt' = rt /\
             forall g, HMPNN_forward messages st self false x_0 x_1 incidence_1
                         (Runtime g (buffers rt) 0)
                       = Ok (y, Runtime g (buffers rt) 0)).
  { intros rt y rt' Hpos. unfold HMPNN_forward.
    destruct (getattr self "to_hidden_linear") as [hid|]; [|discriminate].
    cbn [obind].
    destruct (Sequential_forward st hid x_0) as [h_0|]; [|discriminate].
    cbn [obind].
    destruct (Sequential_forward st hid x_1) as [h_1|]; [|discriminate].
    cbn [obind].
    destruct (layers_of self) as [layers|]; [|discriminate]. cbn [obind].
    destruct (for_each (HMPNN_call messages st false incidence_1) layers
                (h_0, h_1, rt)) as [r|] eqn:Hf; [|discriminate].
    apply for_each_HMPNN_eval in Hf. destruct Hf as (y_0 & y_1 & -> & Hf).
    cbn [obind]. unfold HMPNN_head.
    destruct (getattr self "to_categories_linear") as [lin|]; [|discriminate].
    cbn [obind].
    destruct (Linear_forward st lin y_0) as [z|] eqn:Hz; [|discriminate].
    cbn [obind rng buffers]. intros [= <- <-]. split.
    - destruct rt as [g bs p]. cbn in Hpos. now subst.
    - intros g. rewrite Hpos in Hf. rewrite Hf. cbn [obind]. rewrite Hz.
      reflexivity. }
  intros rt y rt' [Hpos _] Hy. destruct (Hgen _ _ _ Hpos Hy) as [-> Hall].
  repeat split; [exact Hall|exact Hy].
Qed.

(** A layer in training mode counts the batch in both its normalisations,
    and leaves the generator further along the same sequence. *)
Lemma HMPNNLayer_forward_train {F} `{Scalar F} (messages : HMPNN_messages F)
    st layer x_0 x_1 inc g b y_0 y_1 g' b' :
  HMPNNLayer_forward messages st layer true x_0 x_1 inc g b
    = Ok (y_0, y_1, g', b') ->
  counted b b' /\ tape g' = tape g /\ offset g <= offset g'.
Proof.
  unfold HMPNNLayer_forward.
  destruct (getattr layer "adjacency_dropout") as [ra|]; [|discriminate].
  destruct (getattr layer "updating_dropout") as [ru|]; [|discriminate].
  cbn [obind].
  destruct (layer_dropout true ra inc g) as [[i1 g1]|] eqn:Hi1; [|discriminate].
  apply layer_dropout_advances in Hi1. cbn [obind fst snd].
  destruct (node_to_hyperedge messages st layer x_0 i1) as [nm|]; [|discriminate].
  cbn [obind].
  destruct (layer_dropout true ra inc g1) as [[i2 g2]|] eqn:Hi2; [|discriminate].
  apply layer_dropout_advances in Hi2. cbn [obind fst snd].
  destruct (hyperedge_to_node messages st layer x_1 i2 (snd nm)) as [hm|];
    [|discriminate].
  cbn [obind].
  destruct (BatchNorm1d_forward messages st layer "node_batchnorm" true
              (node_batchnorm b) x_0) as [n|] eqn:Hbn; [|discriminate].
  apply BatchNorm1d_train in Hbn. cbn [obind].
  destruct (layer_dropout true ru (fst n) g2) as [[d0 g3]|] eqn:H0; [|discriminate].
  apply layer_dropout_advances in H0. cbn [obind fst snd].
  destruct (updating_func messages d0 hm) as [z_0|]; [|discriminate].
  cbn [obind].
  destruct (BatchNorm1d_forward messages st layer "hyperedge_batchnorm" true
              (hyperedge_batchnorm b) x_1) as [h|] eqn:Hbh; [|discriminate].
  apply BatchNorm1d_train in Hbh. cbn [obind].
  destruct (layer_dropout true ru (fst h) g3) as [[d1 g4]|] eqn:H1; [|discriminate].
  apply layer_dropout_advances in H1. cbn [obind fst snd].
  destruct (updating_func messages d1 (fst nm)) as [z_1|]; [|discriminate].
  cbn [obind]. intros [= <- <- <- <-].
  destruct Hi1 as [T1 O1], Hi2 as [T2 O2], H0 as [T3 O3], H1 as [T4 O4].
  split; [split; assumption|]. split; [congruence|lia].
Qed.

Lemma HMPNN_call_train {F} `{Scalar F} (messages : HMPNN_messages F) st inc
    layer x_0 x_1 rt y_0 y_1 rt' :
  HMPNN_call messages st true inc layer (x_0, x_1, rt) = Ok (y_0, y_1, rt') ->
  advanced 1 rt rt'.
Proof.
  unfold HMPNN_call.
  destruct (buffers rt !! position rt) as [b|] eqn:Hb; [|discriminate].
  destruct (HMPNNLayer_forward messages st layer true x_0 x_1 inc (rng rt) b)
    as [[[[z_0 z_1] g'] b']|] eqn:Hf; [|discriminate].
  apply HMPNNLayer_forward_train in Hf. destruct Hf as (Hc & Ht & Ho).
  cbn [obind]. intros [= <- <- <-]. unfold advanced. cbn [position buffers rng].
  split; [lia|]. split; [apply length_insert|]. split; [exact Ht|].
  split; [exact Ho|].
  intros i. split.
  - intros Hi b0 Hb0. assert (i = position rt) as -> by lia.
    rewrite Hb in Hb0. injection Hb0 as <-. exists b'. split; [|exact Hc].
    apply list_lookup_insert_eq. now apply lookup_lt_Some in Hb.
  - intros Hi. apply list_lookup_insert_ne. lia.
Qed.

Lemma advanced_trans {F} n m (rt rt1 rt2 : runtime F) :
  advanced n rt rt1 -> advanced m rt1 rt2 -> advanced (n + m) rt rt2.
Proof.
  intros (P1 & L1 & T1 & O1 & B1) (P2 & L2 & T2 & O2 & B2). unfold advanced.
  split; [lia|]. split; [congruence|]. split; [congruence|]. split; [lia|].
  intros i. split.
  - intros Hi b Hb.
    destruct (Nat.lt_ge_cases i (position rt + n)) as [Hlt|Hge].
    + destruct (proj1 (B1 i) ltac:(lia) b Hb) as (b' & Hb' & Hc).
      exists b'. split; [|exact Hc]. rewrite (proj2 (B2 i)) by lia. exact Hb'.
    + rewrite <- (proj2 (B1 i)) in Hb by lia.
      apply (proj1 (B2 i)); [lia|exact Hb].
  - intros Hi. rewrite (proj2 (B2 i)) by lia. apply (proj2 (B1 i)). lia.
Qed.

Lemma for_each_HMPNN_train {F} `{Scalar F} (messages : HMPNN_messages F) st inc
    layers :
  forall x_0 x_1 rt y_0 y_1 rt',
    for_each (HMPNN_call messages st true inc) layers (x_0, x_1, rt)
      = Ok (y_0, y_1, rt') ->
    advanced (length layers) rt rt'.
Proof.
  induction layers as [|l layers IH]; intros x_0 x_1 rt y_0 y_1 rt'.
  - cbn [for_each length]. intros [= <- <- <-]. unfold advanced.
    repeat split; lia.
  - cbn [for_each length].
    destruct (HMPNN_call messages st true inc l (x_0, x_1, rt))
      as [[[z_0 z_1] rt1]|] eqn:Hc; [|discriminate].
    apply HMPNN_call_train in Hc. cbn [obind]. intros Hr. apply IH in Hr.
    apply (advanced_trans 1 (length layers) rt rt1 rt' Hc Hr).
Qed.

(** In training mode a pass of HMPNN writes the state it runs in. *)
Lemma HMPNN_train_writes_state {F} `{Scalar F} (messages : HMPNN_messages F)
    st self x_0 x_1 incidence_1 :
  writes_state messages st self x_0 x_1 incidence_1.
Proof.
  intros rt y rt' (Hpos & layers & Hl & Hlen). unfold HMPNN_forward.
  destruct (getattr self "to_hidden_linear") as [hid|]; [|discriminate].
  cbn [obind].
  destruct (Sequential_forward st hid x_0) as [h_0|]; [|discriminate].
  cbn [obind].
  destruct (Sequential_forward st hid x_1) as [h_1|]; [|discriminate].
  cbn [obind]. rewrite Hl. cbn [obind].
  destruct (for_each (HMPNN_call messages st true incidence_1) layers
              (h_0, h_1, rt)) as [[[y_0 y_1] rt1]|] eqn:Hf; [|discriminate].
  apply for_each_HMPNN_train in Hf. destruct Hf as (P1 & L1 & T1 & O1 & B1).
  cbn [obind]. unfold HMPNN_head.
  destruct (getattr self "to_categories_linear") as [lin|]; [|discriminate].
  cbn [obind].
  destruct (Linear_forward st lin y_0) as [z|]; [|discriminate].
  cbn [obind]. intros [= <- <-]. cbn [rng buffers position].
  split; [exact T1|].
  split; [exact O1|]. split; [reflexivity|].
  apply Forall2_same_length_lookup_2; [now symmetry|].
  intros i b b' Hb Hb'.
  destruct (proj1 (B1 i)) with (b := b) as (b'' & Hb'' & Hc); [|exact Hb|].
  - apply lookup_lt_Some in Hb. lia.
  - rewrite Hb' in Hb''. now injection Hb'' as <-.
Qed.

(** ** What the forward passes read *)

Lemma agree_on_app_r {F} (st st' : store F) ids ids' :
  agree_on st st' (ids ++ ids') -> agree_on st st' ids'.
Proof. intros Ha p Hp. apply Ha. apply in_or_app. now right. Qed.

Lemma agree_on_app_l {F} (st st' : store F) ids ids' :
  agree_on st st' (ids ++ ids') -> agree_on st st' ids.
Proof. intros Ha p Hp. apply Ha. apply in_or_app. now left. Qed.

(** A linear layer reads its weight and its bias. *)
Lemma Linear_forward_agree {F} `{Scalar F} (st st' : store F) m x :
  agree_on st st' (linear_ids m) ->
  Linear_forward st m x = Linear_forward st' m x.
Proof.
  intros Ha.
  assert (Hp : forall name, In name ["weight"; "bias"] ->
                 get_parameter st m name = get_parameter st' m name).
  { intros name Hname. unfold get_parameter.
    destruct (getattr m name) as [[| | | | |id|]|] eqn:Hg; try reflexivity.
    cbn [obind]. rewrite (Ha id); [reflexivity|].
    unfold linear_ids. apply in_flat_map. exists name. split; [exact Hname|].
    rewrite Hg. now left. }
  unfold Linear_forward. rewrite (Hp "weight") by (now left).
  destruct (get_parameter st' m "weight"); [|reflexivity]. cbn [obind].
  rewrite (Hp "bias") by (right; now left). reflexivity.
Qed.

(** The linear layer [self.name] reads parameters that are among those of
    the linear layers of [self]. *)
Lemma head_linear_agree {F} `{Scalar F} (st st' : store F) self names name m x :
  agree_on st st' (head_ids self names) ->
  In name names ->
  getattr self name = Ok m ->
  Linear_forward st m x = Linear_forward st' m x.
Proof.
  intros Ha Hname Hm. apply Linear_forward_agree. intros p Hp. apply Ha.
  unfold head_ids. apply in_flat_map. exists name. split; [exact Hname|].
  now rewrite Hm.
Qed.

Ltac same_linear Ha :=
  match goal with
  | |- context [getattr ?self ?name] =>
      let m := fresh "m" in
      let Hm := fresh "Hm" in
      destruct (getattr self name) as [m|] eqn:Hm; [|reflexivity];
      cbn [obind];
      match goal with
      | |- context [Linear_forward ?st m ?x] =>
          rewrite (head_linear_agree st _ self _ name m x Ha
                     ltac:(cbn; tauto) Hm)
      end;
      match goal with
      | |- context [Linear_forward ?st' m ?x] =>
          destruct (Linear_forward st' m x); [|reflexivity]
      end;
      cbn [obind]
  end.

Lemma SCN2_head_agree st st' self xs :
  agree_on st st' (head_ids self ["lin_0"; "lin_1"; "lin_2"]) ->
  SCN2_head st self xs = SCN2_head st' self xs.
Proof.
  intros Ha. destruct xs as [[x_0 x_1] x_2]. unfold SCN2_head.
  same_linear Ha. same_linear Ha. same_linear Ha. reflexivity.
Qed.

Lemma CAN_head_agree st st' self x_0 x_2 x_1 :
  agree_on st st' (head_ids self ["lin_0"; "lin_1"; "lin_2"]) ->
  CAN_head st self x_0 x_2 x_1 = CAN_head st' self x_0 x_2 x_1.
Proof.
  intros Ha. unfold CAN_head.
  same_linear Ha. same_linear Ha. same_linear Ha. reflexivity.
Qed.

Lemma SCoNeNN_head_agree (arith : Scalar fl) (float32 : Float32) st st' self x :
  agree_on st st' (head_ids self ["linear"]) ->
  SCoNeNN_head st self x = SCoNeNN_head st' self x.
Proof.
  intros Ha. unfold SCoNeNN_head. same_linear Ha. reflexivity.
Qed.

Lemma AMPSSCA_head_agree st st' self x_list :
  agree_on st st' (head_ids self ["lin0"; "lin1"; "lin2"]) ->
  AMPSSCA_head st self x_list = AMPSSCA_head st' self x_list.
Proof.
  intros Ha. unfold AMPSSCA_head.
  destruct (getattr self "lin0") as [m0|] eqn:H0; [|reflexivity]. cbn [obind].
  destruct (getitem x_list 0) as [x0|]; [|reflexivity]. cbn [obind].
  rewrite (head_linear_agree st st' self _ "lin0" m0 x0 Ha ltac:(cbn; tauto) H0).
  destruct (Linear_forward st' m0 x0); [|reflexivity]. cbn [obind].
  destruct (getattr self "lin1") as [m1|] eqn:H1; [|reflexivity]. cbn [obind].
  destruct (getitem x_list 1) as [x1|]; [|reflexivity]. cbn [obind].
  rewrite (head_linear_agree st st' self _ "lin1" m1 x1 Ha ltac:(cbn; tauto) H1).
  destruct (Linear_forward st' m1 x1); [|reflexivity]. cbn [obind].
  destruct (getattr self "lin2") as [m2|] eqn:H2; [|reflexivity]. cbn [obind].
  destruct (getitem x_list 2) as [x2|]; [|reflexivity]. cbn [obind].
  rewrite (head_linear_agree st st' self _ "lin2" m2 x2 Ha ltac:(cbn; tauto) H2).
  reflexivity.
Qed.

(** The forward pass of SCoNeNN reads the parameters of [linear], and what
    its layers read. *)
Lemma SCoNeNN_forward_reads (arith : Scalar fl) (float32 : Float32) self
    x_1 up_lap1 down_lap1 iden :
  reads_only
    (fun fwd st => SCoNeNN_forward fwd st self x_1 up_lap1 down_lap1 iden)
    (fun fwd st st' => forall layer x,
       fwd st layer x up_lap1 down_lap1 iden = fwd st' layer x up_lap1 down_lap1 iden)
    (head_ids self ["linear"]).
Proof.
  intros fwd layer_ids Hfwd st st' Ha. unfold SCoNeNN_forward.
  destruct (layers_of self) as [layers|]; [|reflexivity]. cbn [obind].
  rewrite (for_each_ext
             (fun layer x => fwd st layer x up_lap1 down_lap1 iden)
             (fun layer x => fwd st' layer x up_lap1 down_lap1 iden))
    by (intros; apply Hfwd; eapply agree_on_app_l; exact Ha).
  match goal with
  | |- context [for_each ?body layers ?s] => destruct (for_each body layers s)
  end; [|reflexivity]. cbn [obind].
  apply SCoNeNN_head_agree. eapply agree_on_app_r; exact Ha.
Qed.

(** The forward pass of SCN2 reads the parameters of its three linear
    layers, and what its layers read. *)
Lemma SCN2_forward_reads self x_0 x_1 x_2 laplacian_0 laplacian_1 laplacian_2 :
  reads_only
    (fun fwd st =>
       SCN2_forward fwd st self x_0 x_1 x_2 laplacian_0 laplacian_1 laplacian_2)
    (fun fwd st st' => forall layer xs,
       fwd st layer xs laplacian_0 laplacian_1 laplacian_2
       = fwd st' layer xs laplacian_0 laplacian_1 laplacian_2)
    (head_ids self ["lin_0"; "lin_1"; "lin_2"]).
Proof.
  intros fwd layer_ids Hfwd st st' Ha. unfold SCN2_forward.
  destruct (layers_of self) as [layers|]; [|reflexivity]. cbn [obind].
  rewrite (for_each_ext
             (fun layer xs =>
                fwd st layer xs laplacian_0 laplacian_1 laplacian_2)
             (fun layer xs =>
                fwd st' layer xs laplacian_0 laplacian_1 laplacian_2))
    by (intros; apply Hfwd; eapply agree_on_app_l; exact Ha).
  match goal with
  | |- context [for_each ?body layers ?s] => destruct (for_each body layers s)
  end; [|reflexivity]. cbn [obind].
  apply SCN2_head_agree. eapply agree_on_app_r; exact Ha.
Qed.

(** The forward pass of AMPSSCA reads the parameters of its three linear
    layers, and what its layers read. *)
Lemma AMPSSCA_forward_reads self x_list down_lap_list incidencet_list :
  reads_only
    (fun fwd st =>
       AMPSSCA_forward fwd st self x_list down_lap_list incidencet_list)
    (fun fwd st st' => forall layer xs,
       fwd st layer xs down_lap_list incidencet_list
       = fwd st' layer xs down_lap_list incidencet_list)
    (head_ids self ["lin0"; "lin1"; "lin2"]).
Proof.
  intros fwd layer_ids Hfwd st st' Ha. unfold AMPSSCA_forward.
  destruct (getattr self "n_layers") as [n|]; [|reflexivity]. cbn [obind].
  destruct (range n) as [indices|]; [|reflexivity]. cbn [obind].
  rewrite (for_each_ext
             (fun i xs =>
                let* layers := layers_of self in
                let* layer := getitem layers i in
                fwd st layer xs down_lap_list incidencet_list)
             (fun i xs =>
                let* layers := layers_of self in
                let* layer := getitem layers i in
                fwd st' layer xs down_lap_list incidencet_list)).
  2:{ intros i xs. destruct (layers_of self) as [layers|]; [|reflexivity].
      cbn [obind]. destruct (getitem layers i); [|reflexivity]. cbn [obind].
      apply Hfwd. eapply agree_on_app_l; exact Ha. }
  match goal with
  | |- context [for_each ?body indices ?s] => destruct (for_each body indices s)
  end; [|reflexivity]. cbn [obind].
  apply AMPSSCA_head_agree. eapply agree_on_app_r; exact Ha.
Qed.

(** The forward pass of CAN reads the parameters of its three linear layers,
    and what its layers read. *)
Lemma CAN_forward_reads self x_0 x_1 x_2 down_laplacian up_laplacian :
  reads_only
    (fun fwd st => CAN_forward fwd st self x_0 x_1 x_2 down_laplacian up_laplacian)
    (fun fwd st st' => forall layer x,
       fwd st layer x down_laplacian up_laplacian
       = fwd st' layer x down_laplacian up_laplacian)
    (head_ids self ["lin_0"; "lin_1"; "lin_2"]).
Proof.
  intros fwd layer_ids Hfwd st st' Ha. unfold CAN_forward.
  destruct (layers_of self) as [layers|]; [|reflexivity]. cbn [obind].
  rewrite (for_each_ext
             (fun layer x => fwd st layer x down_laplacian up_laplacian)
             (fun layer x => fwd st' layer x down_laplacian up_laplacian))
    by (intros; apply Hfwd; eapply agree_on_app_l; exact Ha).
  match goal with
  | |- context [for_each ?body layers ?s] => destruct (for_each body layers s)
  end; [|reflexivity]. cbn [obind].
  apply CAN_head_agree. eapply agree_on_app_r; exact Ha.
Qed.


End HMPNNFacts.

(* ===================================================================== *)
(** * Notebook runs *)

Module NotebookFacts.
Import Notebook.

Lemma bind_Ok {A B} (m : script A) (k : A -> script B) tr b :
  bind m k = (tr, Ok b) ->
  exists t a t', m = (t, Ok a) /\ k a = (t', Ok b) /\ tr = t ++ t'.
Proof.
  destruct m as [t [a|e]]; cbn; [|discriminate].
  destruct (k a) as [t' r] eqn:Hk. intros [= <- ->]. now exists t, a, t'.
Qed.

Lemma fst_bind {A B} (m : script A) (k : A -> script B) :
  fst (bind m k) =
  fst m ++ match snd m with Ok a => fst (k a) | Raise _ => [] end.
Proof.
  destruct m as [t [a|e]]; cbn.
  - now destruct (k a).
  - now rewrite app_nil_r.
Qed.

(** ** Errors are not caught *)

Lemma uncaught_no_failure {A} tr (r : outcome A) :
  no_failure tr -> uncaught (tr, r).
Proof.
  intros Hno before c e after Heq. cbn in Heq. exfalso.
  apply (Hno c e). rewrite Heq. apply in_elt.
Qed.

Lemma uncaught_ret {A} (a : A) : uncaught (ret a).
Proof. apply uncaught_no_failure. intros c e []. Qed.

Lemma uncaught_raise {A} e : uncaught (@raise A e).
Proof. apply uncaught_no_failure. intros c e' []. Qed.

Lemma uncaught_emit ev :
  (forall c e, ev <> Failed c e) -> uncaught (emit ev).
Proof.
  intros Hev. apply uncaught_no_failure. intros c e [H|[]]. now apply (Hev c e).
Qed.

Lemma uncaught_wrote paths : uncaught (emit_all (map Wrote paths)).
Proof.
  apply uncaught_no_failure. intros c e Hin. apply in_map_iff in Hin.
  now destruct Hin as (p & Hp & _).
Qed.

Lemma uncaught_call {A} c (o : outcome A) : uncaught (call_lib c o).
Proof.
  destruct o as [a|e]; cbn.
  - apply uncaught_no_failure. intros c' e' [H|[]]. discriminate.
  - intros before c' e' after Heq. cbn in Heq.
    destruct before as [|x before]; cbn in Heq.
    + injection Heq as <- <- <-. now split.
    + injection Heq as _ Heq. now destruct before.
Qed.

(** A script that returned made no failed call. *)
Lemma uncaught_Ok {A} (m : script A) t a :
  uncaught m -> m = (t, Ok a) -> no_failure t.
Proof.
  intros Hm -> c e Hin. apply in_split in Hin. destruct Hin as (l1 & l2 & ->).
  destruct (Hm l1 c e l2 eq_refl) as [_ Habs]. discriminate.
Qed.

(** Sequencing catches nothing. *)
Lemma uncaught_bind {A B} (m : script A) (k : A -> script B) :
  uncaught m -> (forall a, uncaught (k a)) -> uncaught (bind m k).
Proof.
  intros Hm Hk. destruct m as [t [a|e0]] eqn:Em; cbn.
  2:{ intros before c e after Heq. destruct (Hm _ _ _ _ Heq) as [-> Hr].
      cbn in *. split; [reflexivity|]. now injection Hr as ->. }
  destruct (k a) as [t' r] eqn:Ek.
  intros before c e after Heq. cbn in Heq.
  pose proof (uncaught_Ok _ t a Hm eq_refl) as Hno.
  apply app_eq_app in Heq. destruct Heq as (l & [[-> Hl]|[-> Hl]]).
  - destruct l as [|x l]; cbn in Hl.
    + rewrite app_nil_r in Hno. specialize (Hk a). rewrite Ek in Hk.
      apply (Hk [] c e after). cbn. now rewrite <- Hl.
    + injection Hl as <- ->. exfalso. apply (Hno c e).
      apply in_or_app. right. now left.
  - specialize (Hk a). rewrite Ek in Hk. apply (Hk l c e after). exact Hl.
Qed.

Ltac uncaught_step :=
  first
    [ apply uncaught_ret
    | apply uncaught_raise
    | apply uncaught_call
    | apply uncaught_wrote
    | apply uncaught_emit; intros; discriminate
    | apply uncaught_bind; [|intros] ].

Section LoopsUncaught.
Context {Data Model Sample : Type} (lib : library Data Model Sample).

Lemma uncaught_train_pass epoch samples :
  forall idx model epoch_loss,
    uncaught (train_pass lib epoch samples idx model epoch_loss).
Proof.
  induction samples as [|x rest IH]; intros; cbn [train_pass].
  - apply uncaught_ret.
  - repeat uncaught_step. apply IH.
Qed.

Lemma uncaught_test_pass epoch samples :
  forall idx model test_loss,
    uncaught (test_pass lib epoch samples idx model test_loss).
Proof.
  induction samples as [|x rest IH]; intros; cbn [test_pass].
  - apply uncaught_ret.
  - repeat uncaught_step. apply IH.
Qed.

Lemma uncaught_maybe_test test_interval epoch test model test_loss :
  uncaught (maybe_test lib test_interval epoch test model test_loss).
Proof.
  unfold maybe_test. destruct (test_interval =? 0); [apply uncaught_raise|].
  destruct (epoch mod test_interval =? 0); [|apply uncaught_ret].
  apply uncaught_bind; [apply uncaught_test_pass|].
  intros [v|]; repeat uncaught_step.
Qed.

Lemma uncaught_epochs test_interval numbers train test :
  forall model test_loss,
    uncaught (epochs lib test_interval numbers train test model test_loss).
Proof.
  induction numbers as [|epoch rest IH]; intros; cbn [epochs].
  - apply uncaught_ret.
  - apply uncaught_bind; [apply uncaught_train_pass|]. intros.
    apply uncaught_bind; [repeat uncaught_step|]. intros.
    apply uncaught_bind; [apply uncaught_maybe_test|]. intros. apply IH.
Qed.

Lemma uncaught_load_cell fs : uncaught (load_cell lib fs).
Proof. unfold load_cell. repeat uncaught_step. Qed.

End LoopsUncaught.

Lemma uncaught_hmpnn_epochs {Data Model Sample}
    (blib : batch_library Data Model Sample) numbers train val :
  forall model, uncaught (hmpnn_epochs blib numbers train val model).
Proof.
  induction numbers as [|epoch rest IH]; intros; cbn [hmpnn_epochs].
  - apply uncaught_ret.
  - repeat uncaught_step. apply IH.
Qed.

(** ** Where a run stops *)

Lemma bind_assoc {A B C} (m : script A) (f : A -> script B) (g : B -> script C) :
  bind (bind m f) g = bind m (fun a => bind (f a) g).
Proof.
  destruct m as [t [a|e]]; cbn; [|reflexivity].
  destruct (f a) as [t' [b|e]]; cbn; [|reflexivity].
  destruct (g b) as [t'' r]. now rewrite app_assoc.
Qed.

Lemma bind_ret_l {A B} (a : A) (k : A -> script B) : bind (ret a) k = k a.
Proof. cbn. now destruct (k a). Qed.

Lemma no_failure_app t t' : no_failure t -> no_failure t' -> no_failure (t ++ t').
Proof.
  intros H H' c e Hin. apply in_app_or in Hin.
  destruct Hin as [Hin|Hin]; [now apply (H c e)|now apply (H' c e)].
Qed.

Lemma stops_at_call {A} c e : stops_at (@call_lib A c (Raise e)) c e.
Proof. split; [reflexivity|]. exists []. split; [reflexivity|]. intros c' e' []. Qed.

(** A run that stops at a call stops there whatever was to follow. *)
Lemma stops_at_bind_l {A B} (m : script A) (k : A -> script B) c e :
  stops_at m c e -> stops_at (bind m k) c e.
Proof.
  destruct m as [t r]. intros [Hr (tr & Ht & Hno)]. cbn in Hr, Ht. subst.
  cbn. split; [reflexivity|]. now exists tr.
Qed.

(** What follows a part that returned without a failed call decides where
    the run stops. *)
Lemma stops_at_bind_r {A B} (m : script A) (k : A -> script B) t a c e :
  m = (t, Ok a) -> no_failure t -> stops_at (k a) c e -> stops_at (bind m k) c e.
Proof.
  intros -> Hno [Hr (tr & Ht & Hno')]. cbn.
  destruct (k a) as [t' r]. cbn in *. subst. split; [reflexivity|].
  exists (t ++ tr). split; [now rewrite app_assoc|]. now apply no_failure_app.
Qed.

Lemma stops_at_returned {A B} c (a : A) (k : A -> script B) c' e :
  stops_at (k a) c' e -> stops_at (bind (call_lib c (Ok a)) k) c' e.
Proof.
  apply stops_at_bind_r with (t := [Returned c]); [reflexivity|].
  intros c0 e0 [H|[]]. discriminate.
Qed.

Lemma stops_at_emit {B} ev (k : unit -> script B) c e :
  (forall c0 e0, ev <> Failed c0 e0) ->
  stops_at (k tt) c e -> stops_at (bind (emit ev) k) c e.
Proof.
  intros Hev. apply stops_at_bind_r with (t := [ev]); [reflexivity|].
  intros c0 e0 [H|[]]. now apply (Hev c0 e0).
Qed.

Lemma nth_error_split_firstn {A} (l : list A) k x :
  nth_error l k = Some x -> l = firstn k l ++ x :: skipn (S k) l /\ length (firstn k l) = k.
Proof.
  revert k. induction l as [|a l IH]; intros [|k] H; try discriminate.
  - injection H as ->. now split.
  - cbn in H. destruct (IH k H) as [Heq Hlen]. cbn [firstn skipn length app].
    split; [now f_equal|now f_equal].
Qed.

Lemma bind_congr {A B} t (a : A) (k k' : A -> script B) :
  k a = k' a -> bind (t, Ok a) k = bind (t, Ok a) k'.
Proof. cbn. now intros ->. Qed.

Section LoopsStop.
Context {Data Model Sample : Type} (lib : library Data Model Sample).

Lemma train_pass_app epoch pre post :
  forall idx model epoch_loss,
    train_pass lib epoch (pre ++ post) idx model epoch_loss =
    run r := train_pass lib epoch pre idx model epoch_loss in
    train_pass lib epoch post (idx + length pre) (fst r) (snd r).
Proof.
  induction pre as [|x pre IH]; intros idx model epoch_loss.
  - cbn [app train_pass length]. rewrite bind_ret_l, Nat.add_0_r. reflexivity.
  - cbn [app train_pass length]. rewrite bind_assoc.
    destruct (train_step lib model x) as [r|e]; [|reflexivity].
    apply bind_congr. rewrite bind_assoc. apply bind_congr.
    rewrite IH. now rewrite Nat.add_succ_r.
Qed.

Lemma test_pass_app epoch pre post :
  forall idx model test_loss,
    test_pass lib epoch (pre ++ post) idx model test_loss =
    run test_loss' := test_pass lib epoch pre idx model test_loss in
    test_pass lib epoch post (idx + length pre) model test_loss'.
Proof.
  induction pre as [|x pre IH]; intros idx model test_loss.
  - cbn [app test_pass length]. rewrite bind_ret_l, Nat.add_0_r. reflexivity.
  - cbn [app test_pass length]. rewrite bind_assoc.
    destruct (evaluate lib model x) as [v|e]; [|reflexivity].
    apply bind_congr. rewrite IH. now rewrite Nat.add_succ_r.
Qed.

Lemma epochs_app test_interval pre post train test :
  forall model test_loss,
    epochs lib test_interval (pre ++ post) train test model test_loss =
    run r := epochs lib test_interval pre train test model test_loss in
    epochs lib test_interval post train test (fst r) (snd r).
Proof.
  induction pre as [|epoch pre IH]; intros model test_loss.
  - cbn [app epochs]. now rewrite bind_ret_l.
  - cbn [app epochs]. rewrite bind_assoc.
    destruct (train_pass lib epoch train 0 model []) as [t1 [r1|e1]];
      [|reflexivity].
    apply bind_congr. rewrite bind_assoc. apply bind_congr. rewrite bind_assoc.
    destruct (maybe_test lib test_interval epoch test (fst r1) test_loss)
      as [t2 [tl|e2]]; [|reflexivity].
    apply bind_congr. apply IH.
Qed.

(** The pass stops at the training step in which the library raises. *)
Lemma train_pass_stops epoch train model k e :
  train_step_raises lib epoch train model k e ->
  stops_at (train_pass lib epoch train 0 model []) (TrainStep epoch k) e.
Proof.
  intros (x & t & m & el & Hx & Hpre & He).
  destruct (nth_error_split_firstn _ _ _ Hx) as [Heq Hlen].
  rewrite Heq, train_pass_app, Hlen.
  eapply stops_at_bind_r; [exact Hpre| |].
  - eapply uncaught_Ok; [|exact Hpre]. apply uncaught_train_pass.
  - cbn [fst snd train_pass Nat.add]. rewrite He.
    apply stops_at_bind_l, stops_at_call.
Qed.

(** The evaluations stop at the one in which the library raises. *)
Lemma test_pass_stops epoch test model test_loss k e :
  evaluation_raises lib epoch test model test_loss k e ->
  stops_at (test_pass lib epoch test 0 model test_loss) (Test epoch k) e.
Proof.
  intros (x & t & tl & Hx & Hpre & He).
  destruct (nth_error_split_firstn _ _ _ Hx) as [Heq Hlen].
  rewrite Heq, test_pass_app, Hlen.
  eapply stops_at_bind_r; [exact Hpre| |].
  - eapply uncaught_Ok; [|exact Hpre]. apply uncaught_test_pass.
  - cbn [test_pass Nat.add]. rewrite He.
    apply stops_at_bind_l, stops_at_call.
Qed.

(** A training loop stops at the call in which the library raises. *)
Lemma epochs_stop test_interval numbers train test model test_loss c e :
  loop_call_raises lib test_interval numbers train test model test_loss c e ->
  stops_at (epochs lib test_interval numbers train test model test_loss) c e.
Proof.
  intros (i & epoch & t & m & tl & Hi & Hpre & Hc).
  destruct (nth_error_split_firstn _ _ _ Hi) as [Heq _].
  rewrite Heq, epochs_app.
  eapply stops_at_bind_r; [exact Hpre| |].
  { eapply uncaught_Ok; [|exact Hpre]. apply uncaught_epochs. }
  cbn [fst snd epochs].
  destruct Hc as [(k & -> & Hk)|(k & t1 & m1 & el & -> & Ht & Hti & Hmod & Hk)].
  - apply stops_at_bind_l. now apply train_pass_stops.
  - eapply stops_at_bind_r; [exact Ht| |].
    { eapply uncaught_Ok; [|exact Ht]. apply uncaught_train_pass. }
    apply stops_at_emit; [discriminate|].
    apply stops_at_bind_l. unfold maybe_test.
    apply Nat.eqb_neq in Hti. rewrite Hti.
    apply Nat.eqb_eq in Hmod. rewrite Hmod.
    apply stops_at_bind_l. now apply test_pass_stops.
Qed.

End LoopsStop.

Lemma hmpnn_epochs_app {Data Model Sample}
    (blib : batch_library Data Model Sample) pre post train val :
  forall model,
    hmpnn_epochs blib (pre ++ post) train val model =
    run m := hmpnn_epochs blib pre train val model in
    hmpnn_epochs blib post train val m.
Proof.
  induction pre as [|epoch pre IH]; intros model.
  - cbn [app hmpnn_epochs]. now rewrite bind_ret_l.
  - cbn [app hmpnn_epochs]. rewrite bind_assoc.
    destruct (train_batch blib model train) as [r|e]; [|reflexivity].
    apply bind_congr. rewrite bind_assoc. apply bind_congr. rewrite bind_assoc.
    destruct (evaluate_batch blib (snd r) val) as [v|e]; [|reflexivity].
    apply bind_congr. rewrite bind_assoc. apply bind_congr. apply IH.
Qed.

Lemma hmpnn_epochs_stop {Data Model Sample}
    (blib : batch_library Data Model Sample) numbers train val model c e :
  hmpnn_call_raises blib numbers train val model c e ->
  stops_at (hmpnn_epochs blib numbers train val model) c e.
Proof.
  intros (i & epoch & t & m & Hi & Hpre & Hc).
  destruct (nth_error_split_firstn _ _ _ Hi) as [Heq _].
  rewrite Heq, hmpnn_epochs_app.
  eapply stops_at_bind_r; [exact Hpre| |].
  { eapply uncaught_Ok; [|exact Hpre]. apply uncaught_hmpnn_epochs. }
  cbn [hmpnn_epochs].
  destruct Hc as [[-> He]|(r & -> & Hr & He)].
  - rewrite He. apply stops_at_bind_l, stops_at_call.
  - rewrite Hr. apply stops_at_returned. apply stops_at_emit; [discriminate|].
    rewrite He. apply stops_at_bind_l, stops_at_call.
Qed.

(** ** The cells of a notebook *)

(** A cell whose call raises stops the run; after a cell whose call returned,
    the run stops where the cells after it stop. *)
Lemma at_cell_intro {A B C} (nb : script C) c (o : outcome A)
    (k : A -> script B) (rest : A -> Prop) :
  (forall c' e', stops_at (bind (call_lib c o) k) c' e' -> stops_at nb c' e') ->
  (forall a, o = Ok a ->
     (forall c' e', stops_at (k a) c' e' -> stops_at nb c' e') -> rest a) ->
  at_cell nb c o rest.
Proof.
  intros Hnb Hrest. destruct o as [a|e]; cbn [at_cell].
  - apply (Hrest a eq_refl). intros c' e' H. apply Hnb.
    now apply stops_at_returned.
  - apply Hnb. apply stops_at_bind_l, stops_at_call.
Qed.

(** The first cell: the files of the loader are no failed call. *)
Lemma load_cell_intro {Data Model Sample B} (lib : library Data Model Sample)
    fs (k : Data -> script B) (rest : Data -> Prop) :
  (forall a, load_dataset lib = Ok a ->
     (forall c' e', stops_at (k a) c' e' ->
                    stops_at (bind (load_cell lib fs) k) c' e') -> rest a) ->
  at_cell (bind (load_cell lib fs) k) Load (load_dataset lib) rest.
Proof.
  assert (E : bind (load_cell lib fs) k =
              (emit_all (map Wrote (loader_files lib fs)) ;;
               bind (call_lib Load (load_dataset lib)) k))
    by (unfold load_cell; apply bind_assoc).
  rewrite E. intros Hrest.
  apply at_cell_intro with (k := k); [|exact Hrest].
  intros c' e' H.
  eapply stops_at_bind_r; [reflexivity| |exact H].
  intros c0 e0 Hin. apply in_map_iff in Hin. now destruct Hin as (p & Hp & _).
Qed.

Ltac next_cell Hnb :=
  let a := fresh "a" in
  let Ha := fresh "Ha" in
  let Hk := fresh "Hk" in
  eapply at_cell_intro;
  [ exact Hnb
  | intros a Ha Hk; clear Hnb; rename Hk into Hnb ].

(** C6: no notebook catches an error.  At every call into a library that a
    run makes, if the call raises, the run stops there: the error the call
    raised is the result of the run and the failed call is its last event.
    This holds at the calls of the first cells, one after the other, and at
    every training step and every evaluation of the loops, whatever returned
    before.  And a failed call in a trace is always its last event. *)
Theorem errors_propagate {Data Model Sample}
    (lib : library Data Model Sample) (blib : batch_library Data Model Sample)
    (fs : list string) :
  (scone_errors blib fs /\ uncaught (scone_notebook blib fs)) /\
  (scn2_errors lib fs /\ uncaught (scn2_notebook lib fs)) /\
  (sca_errors lib fs /\ uncaught (sca_notebook lib fs)) /\
  (can_errors lib fs /\ uncaught (can_notebook lib fs)) /\
  (hmpnn_errors blib fs /\ uncaught (hmpnn_notebook blib fs)).
Proof.
  split; [|split; [|split; [|split]]]; split.
  - unfold scone_errors. cbv zeta. unfold scone_notebook.
    apply (load_cell_intro (on_batches blib)). intros dataset _ Hnb.
    next_cell Hnb. next_cell Hnb. next_cell Hnb.
    intros c e H. apply Hnb. now apply epochs_stop.
  - unfold scone_notebook.
    repeat (apply uncaught_bind;
            [first [apply uncaught_load_cell | apply uncaught_call]|intros]).
    apply uncaught_epochs.
  - unfold scn2_errors. cbv zeta. unfold scn2_notebook.
    apply load_cell_intro. intros dataset _ Hnb.
    next_cell Hnb. next_cell Hnb. next_cell Hnb.
    intros c e H. apply Hnb. now apply epochs_stop.
  - unfold scn2_notebook.
    repeat (apply uncaught_bind;
            [first [apply uncaught_load_cell | apply uncaught_call]|intros]).
    apply uncaught_epochs.
  - unfold sca_errors. cbv zeta. unfold sca_notebook.
    apply load_cell_intro. intros dataset _ Hnb.
    next_cell Hnb. next_cell Hnb. next_cell Hnb.
    intros c e H. apply Hnb. now apply epochs_stop.
  - unfold sca_notebook.
    repeat (apply uncaught_bind;
            [first [apply uncaught_load_cell | apply uncaught_call]|intros]).
    apply uncaught_epochs.
  - unfold can_errors. cbv zeta. unfold can_notebook.
    apply load_cell_intro. intros dataset _ Hnb.
    next_cell Hnb. next_cell Hnb. next_cell Hnb. next_cell Hnb.
    split.
    + intros c e H. apply Hnb. apply stops_at_bind_l. now apply epochs_stop.
    + intros t trained Ht.
      assert (Hnb' : forall c' e',
                 stops_at (run model := call_lib Instantiate (instantiate lib true a0) in
                           epochs lib 2 (seq 1 10) (fst a2) (snd a2) model (snd trained))
                   c' e' -> stops_at (can_notebook lib fs) c' e').
      { intros c' e' H. apply Hnb.
        eapply stops_at_bind_r; [exact Ht| |exact H].
        eapply uncaught_Ok; [|exact Ht]. apply uncaught_epochs. }
      clear Hnb. next_cell Hnb'.
      intros c e H. apply Hnb'. now apply epochs_stop.
  - unfold can_notebook.
    repeat (apply uncaught_bind;
            [first [apply uncaught_load_cell | apply uncaught_call
                   | apply uncaught_epochs]|intros]).
    apply uncaught_epochs.
  - unfold hmpnn_errors. cbv zeta. unfold hmpnn_notebook.
    apply load_cell_intro. intros dataset _ Hnb.
    next_cell Hnb. next_cell Hnb.
    destruct (planetoid_masks blib a) as [[train val] test]. split.
    + intros c e H. apply Hnb. apply stops_at_bind_l. now apply hmpnn_epochs_stop.
    + intros t trained Ht.
      eapply at_cell_intro with (k := fun test_loss => emit (PrintTest 100 test_loss) ;; ret trained);
        [|intros; exact I].
      intros c' e' H. apply Hnb.
      eapply stops_at_bind_r; [exact Ht| |exact H].
      eapply uncaught_Ok; [|exact Ht]. apply uncaught_hmpnn_epochs.
  - unfold hmpnn_notebook.
    repeat (apply uncaught_bind;
            [first [apply uncaught_load_cell | apply uncaught_call]|intros]).
    destruct (planetoid_masks blib _) as [[train val] test].
    apply uncaught_bind; [apply uncaught_hmpnn_epochs|intros].
    repeat uncaught_step.
Qed.

(** The SCN2 notebook on a library whose sixth training step raises: the
    run stops at the second step of epoch 3. *)
Lemma errors_propagate_witness :
  stops_at (scn2_notebook Examples.sixth_step_raises [])
    (TrainStep 3 1)
    (RuntimeError "mat1 and mat2 shapes cannot be multiplied").
Proof.
  apply (proj1 (proj1 (proj2 (errors_propagate Examples.sixth_step_raises
                                Examples.recorded_run [])))).
  exists 2, 3. do 3 eexists. split; [reflexivity|].
  split; [vm_compute; reflexivity|].
  left. exists 1. split; [reflexivity|].
  exists tt. do 3 eexists. split; [reflexivity|].
  split; [vm_compute; reflexivity|]. reflexivity.
Defined.

(** ** The order of the calls of a run *)

Lemma calls_app t t' : calls (t ++ t') = calls t ++ calls t'.
Proof. unfold calls. apply flat_map_app. Qed.

Lemma calls_wrote paths : calls (map Wrote paths) = [].
Proof. induction paths as [|p paths IH]; [reflexivity|exact IH]. Qed.

Lemma call_lib_Ok {A} c (o : outcome A) t a :
  call_lib c o = (t, Ok a) -> o = Ok a /\ t = [Returned c].
Proof. destruct o; cbn; [|discriminate]. intros [= <- <-]. now split. Qed.

Lemma emit_Ok ev t u : emit ev = (t, Ok u) -> t = [ev].
Proof. now intros [= <-]. Qed.

(** Open a script that returned into the steps it is made of. *)
Ltac open_script H :=
  repeat match type of H with
         | bind _ _ = (_, Ok _) =>
             let t := fresh "t" in
             let a := fresh "a" in
             let t' := fresh "t" in
             let Hm := fresh "Hm" in
             apply bind_Ok in H; destruct H as (t & a & t' & Hm & H & ->)
         end.

Section LoopsCalls.
Context {Data Model Sample : Type} (lib : library Data Model Sample).

Lemma train_pass_calls epoch samples :
  forall idx model epoch_loss tr r,
    train_pass lib epoch samples idx model epoch_loss = (tr, Ok r) ->
    calls tr = map (TrainStep epoch) (seq idx (length samples)).
Proof.
  induction samples as [|x rest IH]; intros idx model epoch_loss tr r H.
  - cbn in H. now injection H as <- _.
  - cbn [train_pass] in H. open_script H.
    apply call_lib_Ok in Hm. destruct Hm as [_ ->].
    apply emit_Ok in Hm0. subst. apply IH in H.
    rewrite !calls_app, H. reflexivity.
Qed.

Lemma test_pass_calls epoch samples :
  forall idx model test_loss tr r,
    test_pass lib epoch samples idx model test_loss = (tr, Ok r) ->
    calls tr = map (Test epoch) (seq idx (length samples)).
Proof.
  induction samples as [|x rest IH]; intros idx model test_loss tr r H.
  - cbn in H. now injection H as <- _.
  - cbn [test_pass] in H. open_script H.
    apply call_lib_Ok in Hm. destruct Hm as [_ ->].
    apply IH in H. rewrite calls_app, H. reflexivity.
Qed.

Lemma maybe_test_calls test_interval epoch test model test_loss tr r :
  maybe_test lib test_interval epoch test model test_loss = (tr, Ok r) ->
  calls tr =
    if epoch mod test_interval =? 0 then map (Test epoch) (seq 0 (length test))
    else [].
Proof.
  unfold maybe_test. destruct (test_interval =? 0); [discriminate|].
  destruct (epoch mod test_interval =? 0).
  - intros H. open_script H. apply test_pass_calls in Hm.
    destruct a as [v|]; [|discriminate]. open_script H.
    apply emit_Ok in Hm0. injection H as <- _. subst.
    rewrite !calls_app, Hm. cbn. now rewrite app_nil_r.
  - now intros [= <- _].
Qed.

(** The calls of a training loop that ran to its end. *)
Lemma epochs_calls test_interval numbers train test :
  forall model test_loss tr r,
    epochs lib test_interval numbers train test model test_loss = (tr, Ok r) ->
    calls tr =
      flat_map (epoch_schedule test_interval (length train) (length test)) numbers.
Proof.
  induction numbers as [|epoch rest IH]; intros model test_loss tr r H.
  - cbn in H. now injection H as <- _.
  - cbn [epochs] in H. open_script H.
    apply train_pass_calls in Hm. apply emit_Ok in Hm0.
    apply maybe_test_calls in Hm1. apply IH in H. subst.
    rewrite !calls_app, Hm, Hm1, H. cbn [flat_map calls]. unfold epoch_schedule.
    cbn. now rewrite <- !app_assoc.
Qed.

Lemma load_cell_calls fs tr r :
  load_cell lib fs = (tr, Ok r) -> calls tr = [Load].
Proof.
  unfold load_cell. intros H. open_script H.
  apply call_lib_Ok in H. destruct H as [_ ->].
  injection Hm as <-. rewrite calls_app, calls_wrote. reflexivity.
Qed.

End LoopsCalls.

Lemma hmpnn_epochs_calls {Data Model Sample}
    (blib : batch_library Data Model Sample) numbers train val :
  forall model tr r,
    hmpnn_epochs blib numbers train val model = (tr, Ok r) ->
    calls tr =
      flat_map (fun epoch => [TrainStep epoch 0; Validate epoch]) numbers.
Proof.
  induction numbers as [|epoch rest IH]; intros model tr r H.
  - cbn in H. now injection H as <- _.
  - cbn [hmpnn_epochs] in H. open_script H.
    apply call_lib_Ok in Hm. destruct Hm as [_ ->].
    apply emit_Ok in Hm0. apply call_lib_Ok in Hm1. destruct Hm1 as [_ ->].
    apply emit_Ok in Hm2. apply IH in H. subst.
    rewrite !calls_app, H. reflexivity.
Qed.




(** ** The losses a run reports *)

Lemma losses_of_PrintLoss e epoch v tr :
  losses_of e (PrintLoss epoch v :: tr) = losses_of e tr.
Proof. reflexivity. Qed.

Lemma losses_of_app epoch t t' :
  losses_of epoch (t ++ t') = losses_of epoch t ++ losses_of epoch t'.
Proof. unfold losses_of. apply flat_map_app. Qed.

Lemma silent_call {A} c (o : outcome A) : silent_trace (fst (call_lib c o)).
Proof.
  destruct o; split; cbn; try reflexivity; intros e' v' [Hev|[]]; discriminate.
Qed.

Lemma silent_bind {A B} (m : script A) (k : A -> script B) :
  silent_trace (fst m) -> (forall a, silent_trace (fst (k a))) ->
  silent_trace (fst (bind m k)).
Proof.
  intros [Hp Hl] Hk. rewrite fst_bind. split.
  - intros e v Hin. apply in_app_or in Hin. destruct Hin as [Hin|Hin].
    + now apply (Hp e v).
    + destruct (snd m) as [a|]; [|contradiction]. now apply (proj1 (Hk a) e v).
  - intros e. rewrite losses_of_app, Hl. destruct (snd m) as [a|]; [|reflexivity].
    apply (proj2 (Hk a)).
Qed.

Section LoopsLosses.
Context {Data Model Sample : Type} (lib : library Data Model Sample).

(** A pass over the training samples appends its losses to [epoch_loss],
    records them under its epoch, and prints nothing. *)
Lemma train_pass_losses epoch samples :
  forall idx model epoch_loss,
    let s := train_pass lib epoch samples idx model epoch_loss in
    (forall e v, ~ In (PrintLoss e v) (fst s)) /\
    (forall e, e <> epoch -> losses_of e (fst s) = []) /\
    (forall model' epoch_loss',
        snd s = Ok (model', epoch_loss') ->
        epoch_loss' = epoch_loss ++ losses_of epoch (fst s)).
Proof.
  induction samples as [|x rest IH]; intros idx model epoch_loss; cbn zeta.
  - cbn. repeat split; try tauto.
    intros model' epoch_loss' [= _ <-]. now rewrite app_nil_r.
  - cbn [train_pass]. unfold call_lib.
    destruct (train_step lib model x) as [[l model1]|e0]; cbn [bind fst snd].
    2:{ repeat split; try discriminate. intros e v [H|[]]. discriminate. }
    specialize (IH (S idx) model1 (epoch_loss ++ [l])). cbn zeta in IH.
    destruct IH as (IHp & IHl & IHr).
    destruct (train_pass lib epoch rest (S idx) model1 (epoch_loss ++ [l]))
      as [t r] eqn:Et. cbn [fst snd] in *. repeat split.
    + intros e v [H|[H|H]]; try discriminate. now apply (IHp e v).
    + intros e He. cbn. fold (losses_of e t). rewrite (IHl e He), app_nil_r.
      destruct (epoch =? e) eqn:E; [|reflexivity].
      apply Nat.eqb_eq in E. congruence.
    + intros model' epoch_loss' Hr. apply IHr in Hr. rewrite Hr. cbn.
      rewrite Nat.eqb_refl. cbn. now rewrite <- app_assoc.
Qed.

Lemma silent_test_pass epoch samples :
  forall idx model test_loss,
    silent_trace (fst (test_pass lib epoch samples idx model test_loss)).
Proof.
  induction samples as [|x rest IH]; intros; cbn [test_pass].
  - split; [intros ? ? []|reflexivity].
  - apply silent_bind; [apply silent_call|]. intros. apply IH.
Qed.

Lemma silent_maybe_test test_interval epoch test model test_loss :
  silent_trace (fst (maybe_test lib test_interval epoch test model test_loss)).
Proof.
  unfold maybe_test.
  destruct (test_interval =? 0); [split; [intros ? ? []|reflexivity]|].
  destruct (epoch mod test_interval =? 0); [|split; [intros ? ? []|reflexivity]].
  apply silent_bind; [apply silent_test_pass|].
  intros [v|]; split; cbn; try reflexivity.
  - intros e' v' [Hev|[]]. discriminate.
  - intros e' v' [].
Qed.

(** In a loop over distinct epoch numbers, the loss printed for an epoch is
    the mean of the losses of the training steps of that epoch. *)
Lemma epochs_losses test_interval numbers train test :
  NoDup numbers ->
  forall model test_loss,
    let tr := fst (epochs lib test_interval numbers train test model test_loss) in
    (forall e, ~ In e numbers -> losses_of e tr = []) /\
    (forall e v, In (PrintLoss e v) tr ->
                 In e numbers /\ v = np_mean (losses_of e tr)).
Proof.
  induction numbers as [|epoch rest IH]; intros Hnd model test_loss; cbn zeta.
  - cbn. split; [reflexivity|]. intros e v [].
  - inversion Hnd as [|? ? Hnotin Hnd']; subst. cbn [epochs].
    destruct (train_pass_losses epoch train 0 model []) as (Tp & Tl & Tr).
    cbn zeta in Tp, Tl, Tr.
    destruct (train_pass lib epoch train 0 model []) as [t1 [[model1 el]|e1]]
      eqn:Et; cbn [bind fst snd] in *.
    2:{ split.
        - intros e He. apply Tl. intros ->. apply He. now left.
        - intros e v Hin. now apply Tp in Hin. }
    specialize (Tr model1 el eq_refl). cbn [app] in Tr.
    pose proof (silent_maybe_test test_interval epoch test model1 test_loss)
      as [Mp Ml].
    destruct (maybe_test lib test_interval epoch test model1 test_loss)
      as [t2 [tl|e2]] eqn:Em; cbn [bind fst snd emit app] in *.
    + specialize (IH Hnd' model1 tl). cbn zeta in IH. destruct IH as [IHl IHp].
      destruct (epochs lib test_interval rest train test model1 tl) as [t3 r3]
        eqn:Ee. cbn [bind fst snd emit app] in *. split.
      * intros e He. rewrite losses_of_app, losses_of_PrintLoss, losses_of_app.
        rewrite Tl by (intros ->; apply He; now left).
        rewrite Ml, IHl by (intros Hin; apply He; now right). reflexivity.
      * intros e v Hin. apply in_app_or in Hin. destruct Hin as [Hin|Hin];
          [now apply Tp in Hin|].
        cbn in Hin. destruct Hin as [Hin|Hin].
        -- injection Hin as <- <-. split; [now left|].
           rewrite losses_of_app, losses_of_PrintLoss, losses_of_app.
           rewrite Ml, (IHl epoch Hnotin), <- Tr. now rewrite !app_nil_r.
        -- apply in_app_or in Hin. destruct Hin as [Hin|Hin];
             [now apply Mp in Hin|].
           destruct (IHp e v Hin) as [Hine ->]. split; [now right|].
           rewrite losses_of_app, losses_of_PrintLoss, losses_of_app.
           rewrite Tl by (intros ->; contradiction). now rewrite Ml.
    + split.
      * intros e He. rewrite losses_of_app, losses_of_PrintLoss.
        rewrite Tl by (intros ->; apply He; now left). now rewrite Ml.
      * intros e v Hin. apply in_app_or in Hin. destruct Hin as [Hin|Hin];
          [now apply Tp in Hin|].
        cbn in Hin. destruct Hin as [Hin|Hin]; [|now apply Mp in Hin].
        injection Hin as <- <-. split; [now left|].
        rewrite losses_of_app, losses_of_PrintLoss.
        rewrite Ml, <- Tr. now rewrite !app_nil_r.
Qed.

End LoopsLosses.


Lemma hmpnn_epochs_losses {Data Model Sample}
    (blib : batch_library Data Model Sample) numbers train val :
  NoDup numbers ->
  forall model,
    let tr := fst (hmpnn_epochs blib numbers train val model) in
    (forall e, ~ In e numbers -> losses_of e tr = []) /\
    (forall e v, In (PrintLoss e v) tr ->
                 In e numbers /\ exists l, losses_of e tr = [l] /\ v = Some l).
Proof.
  induction numbers as [|epoch rest IH]; intros Hnd model; cbn zeta.
  - cbn. split; [reflexivity|]. intros e v [].
  - inversion Hnd as [|? ? Hnotin Hnd']; subst. cbn [hmpnn_epochs].
    unfold call_lib.
    destruct (train_batch blib model train) as [[l model1]|e1];
      cbn [bind fst snd emit app].
    2:{ split; [reflexivity|]. intros e v [Hev|[]]. discriminate. }
    destruct (evaluate_batch blib model1 val) as [vl|e2];
      cbn [bind fst snd emit app].
    2:{ split.
        - intros e He. cbn. destruct (epoch =? e) eqn:E; [|reflexivity].
          apply Nat.eqb_eq in E. subst. exfalso. apply He. now left.
        - intros e v [Hev|[Hev|[Hev|[]]]]; discriminate. }
    specialize (IH Hnd' model1). cbn zeta in IH. destruct IH as [IHl IHp].
    destruct (hmpnn_epochs blib rest train val model1) as [t3 r3] eqn:Ee.
    cbn [fst snd] in *. split.
    + intros e He. cbn. fold (losses_of e t3).
      rewrite IHl by (intros Hin; apply He; now right).
      destruct (epoch =? e) eqn:E; [|reflexivity].
      apply Nat.eqb_eq in E. subst. exfalso. apply He. now left.
    + intros e v [Hev|[Hev|[Hev|[Hev|Hin]]]]; try discriminate.
      * injection Hev as <- <-. split; [now left|]. exists l. split; [|reflexivity].
        cbn. fold (losses_of epoch t3). rewrite Nat.eqb_refl, (IHl epoch Hnotin).
        reflexivity.
      * destruct (IHp e v Hin) as (Hine & l' & Hl' & ->). split; [now right|].
        exists l'. split; [|reflexivity]. cbn. fold (losses_of e t3).
        destruct (epoch =? e) eqn:E; [|exact Hl'].
        apply Nat.eqb_eq in E. subst. contradiction.
Qed.

(** C5, as the code has it: in every training loop the loss printed for an
    epoch is the mean of the losses of the training steps of that epoch (in
    the HMPNN notebook, the loss of its one step); nothing orders the losses
    of consecutive epochs. *)
Theorem reported_loss_is_epoch_mean {Data Model Sample Data' Model' Sample'}
    (lib : library Data Model Sample) (blib : batch_library Data' Model' Sample')
    test_interval num_epochs train test model btrain bval bmodel epoch v :
  (In (PrintLoss epoch v)
      (fst (training_loop lib test_interval num_epochs train test model)) ->
   v = np_mean (losses_of epoch
                  (fst (training_loop lib test_interval num_epochs train test model)))) /\
  (In (PrintLoss epoch v)
      (fst (hmpnn_epochs blib (seq 1 num_epochs) btrain bval bmodel)) ->
   exists l,
     losses_of epoch (fst (hmpnn_epochs blib (seq 1 num_epochs) btrain bval bmodel))
       = [l] /\
     v = Some l).
Proof.
  split.
  - intros Hin. unfold training_loop in *.
    now apply (epochs_losses lib test_interval (seq 1 num_epochs) train test
                 (seq_NoDup _ _) model None).
  - intros Hin.
    now apply (hmpnn_epochs_losses blib (seq 1 num_epochs) btrain bval
                 (seq_NoDup _ _) bmodel).
Qed.

(** The loop of the SCoNe notebook on the recorded run: the loss printed for
    epoch 2 is the mean of the one loss of that epoch. *)
Lemma reported_loss_witness :
  np_mean [0.7185%Q]
  = np_mean (losses_of 2
               (fst (training_loop (on_batches Examples.recorded_run) 2 6
                       [[tt]] [[tt]] 0))).
Proof.
  apply (proj1 (reported_loss_is_epoch_mean (on_batches Examples.recorded_run)
                  Examples.recorded_run 2 6 [[tt]] [[tt]] 0 [] [] 0 2
                  (np_mean [0.7185%Q]))).
  vm_compute. repeat (first [left; reflexivity | right]).
Defined.

(** C5 fails as stated: in the recorded run of the SCoNe notebook the
    reported loss rises from 0.7185 in epoch 2 to 0.7205 in epoch 3. *)
Lemma recorded_loss_rises :
  ~ loss_decreases
      (reported_losses (fst (scone_notebook Examples.recorded_run []))).
Proof.
  intros H. pose proof (H 1 _ _ eq_refl eq_refl) as Hlt.
  vm_compute in Hlt. discriminate.
Qed.

End NotebookFacts.

(* ===================================================================== *)
(** * The properties on small instances *)

Module Instances.
Import Torch TorchModule Floats Models TorchModuleFacts ModelsFacts FloatsFacts.
Import SCoNeNNFacts PoolingFacts HMPNNFacts Examples.

(** SCoNeNN with ten layers, as the notebook instantiates it. *)
Lemma plain_list_layers_not_trained_witness :
  exists self next',
    SCoNeNN_init ["weight"] 1 10 0 = Ok (self, next') /\
    trains_only self ["linear"].
Proof. exact (proj1 (plain_list_layers_not_trained ["weight"]) 1 10 0). Defined.

(** The stack of the ten layers of the SCoNe notebook. *)
Lemma layers_stacked_witness :
  constructs (SCoNeNN_init ["weight"] 1 10) 0 (fun self =>
    stack_of self "SCoNeLayer" [("channels", PyInt 1)] 10 /\
    forall (arith : Scalar fl) (float32 : Float32)
           fwd st x_1 up_lap1 down_lap1 iden,
      in_sequence self
        (fun layer x_1 => fwd st layer x_1 up_lap1 down_lap1 iden) x_1
        (SCoNeNN_head st self)
        (SCoNeNN_forward fwd st self x_1 up_lap1 down_lap1 iden)).
Proof. exact (proj1 layers_stacked_and_called_in_sequence ["weight"] 1 10 0). Defined.

(** A forward pass of SCoNeNN on one edge: on floats that overflow as float32
    does, and in exact arithmetic, where the row sums to 1. *)
Lemma SCoNeNN_forward_soft_rows_witness :
  (exists t,
     @SCoNeNN_output (@Scalar_float32 overflowing) overflowing layer_identity
       scone_store scone_model
       (fl_one_by_one (Fin 0)) (fl_one_by_one (Fin 0)) (fl_one_by_one (Fin 0))
       (fl_one_by_one (Fin 1)) 1 t) /\
  (exists t,
     @SCoNeNN_output Scalar_fl exact layer_identity scone_store scone_model
       (fl_one_by_one (Fin 0)) (fl_one_by_one (Fin 0)) (fl_one_by_one (Fin 0))
       (fl_one_by_one (Fin 1)) 1 t /\
     Forall sums_to_one (data t)).
Proof.
  split.
  - destruct (SCoNeNN_forward_soft_rows (@Scalar_float32 overflowing)
                overflowing overflowing_laws ["weight"] 1 2 0
                scone_model 4 layer_identity scone_store (fl_one_by_one (Fin 0))
                (fl_one_by_one (Fin 0)) (fl_one_by_one (Fin 0))
                (fl_one_by_one (Fin 1)) 1
                (Module_ "Linear" [("weight", 2); ("bias", 3)] []
                   [("in_features", PyInt 1); ("out_features", PyInt 2)]))
      as (t & Ht & _).
    + vm_compute. reflexivity.
    + vm_compute. reflexivity.
    + do 2 eexists. repeat split; try (vm_compute; reflexivity).
    + intros layer x Hx. exists x. now split.
    + split; reflexivity.
    + now exists t.
  - destruct (SCoNeNN_forward_soft_rows Scalar_fl exact exact_laws
                ["weight"] 1 2 0
                scone_model 4 layer_identity scone_store (fl_one_by_one (Fin 0))
                (fl_one_by_one (Fin 0)) (fl_one_by_one (Fin 0))
                (fl_one_by_one (Fin 1)) 1
                (Module_ "Linear" [("weight", 2); ("bias", 3)] []
                   [("in_features", PyInt 1); ("out_features", PyInt 2)]))
      as (t & Ht & Hsum).
    + vm_compute. reflexivity.
    + vm_compute. reflexivity.
    + do 2 eexists. repeat split; try (vm_compute; reflexivity).
    + intros layer x Hx. exists x. now split.
    + split; reflexivity.
    + exists t. split; [exact Ht|]. apply Hsum. split; reflexivity.
Defined.

(** The parameters the forward pass of [scone_linear_only] reads. *)
Lemma scone_linear_only_forward (arith : Scalar fl) (float32 : Float32) x_1
    up_lap1 down_lap1 iden :
  SCoNeNN_forward layer_identity scone_doubling_store scone_linear_only
    x_1 up_lap1 down_lap1 iden
  = let* z := linear (Mat (Tensor2 (2, 1) [[Fin 2]; [Fin (-2)]]))
                     (Vec [Fin 0; Fin 0]) x_1 in
    Ok (softmax z).
Proof.
  unfold SCoNeNN_forward.
  change (layers_of scone_linear_only) with (@Ok (list pyobj) []).
  cbn [obind for_each]. unfold SCoNeNN_head.
  match goal with |- context [getattr scone_linear_only "linear"] =>
    let v := eval vm_compute in (getattr scone_linear_only "linear") in
    change (getattr scone_linear_only "linear") with v end.
  cbn [obind]. unfold Linear_forward.
  match goal with |- context [get_parameter ?st ?m "weight"] =>
    change (get_parameter st m "weight")
      with (@Ok (tensor fl) (Mat (Tensor2 (2, 1) [[Fin 2]; [Fin (-2)]]))) end.
  cbn [obind].
  match goal with |- context [get_parameter ?st ?m "bias"] =>
    change (get_parameter st m "bias")
      with (@Ok (tensor fl) (Vec [Fin 0; Fin 0])) end.
  reflexivity.
Qed.

(** C9 fails as stated: [SCoNeNN(channels=1, n_layers=0)] with the weights 2
    and -2 returns the row [[NaN, NaN]], which is no row of probabilities,
    on an edge whose feature is NaN, and on an edge whose feature is the
    number 3e38, whose products with the weights overflow to plus and minus
    infinity. *)
Lemma softmax_rows_can_be_nan :
  @SCoNeNN_forward (@Scalar_float32 overflowing) overflowing layer_identity
    scone_doubling_store scone_linear_only (fl_one_by_one NaN)
    (fl_one_by_one (Fin 0)) (fl_one_by_one (Fin 0)) (fl_one_by_one (Fin 1))
  = Ok (Mat (Tensor2 (1, 2) [[NaN; NaN]])) /\
  @SCoNeNN_forward (@Scalar_float32 overflowing) overflowing layer_identity
    scone_doubling_store scone_linear_only
    (fl_one_by_one (Fin 300000000000000000000000000000000000000))
    (fl_one_by_one (Fin 0)) (fl_one_by_one (Fin 0)) (fl_one_by_one (Fin 1))
  = Ok (Mat (Tensor2 (1, 2) [[NaN; NaN]])) /\
  ~ probabilities [NaN; NaN].
Proof.
  split; [|split].
  - rewrite scone_linear_only_forward. reflexivity.
  - rewrite scone_linear_only_forward. unfold linear, fl_one_by_one. cbn.
    destruct (Rlt_dec largest (300000000000000000000000000000000000000 * 2))
      as [_|H]; [|exfalso; apply H; unfold largest; lra].
    destruct (Rlt_dec largest (300000000000000000000000000000000000000 * -2))
      as [H|_]; [exfalso; unfold largest in H; lra|].
    destruct (Rlt_dec (300000000000000000000000000000000000000 * -2)
                      (- largest))
      as [_|H]; [|exfalso; apply H; unfold largest; lra].
    reflexivity.
  - intros (ps & Hps & _). destruct ps as [|p ps]; discriminate.
Qed.

(** A forward pass of SCN2 on a complex without faces. *)
Lemma nan_replaced_witness :
  exists y,
    SCN2_forward scn2_layer scn2_store scn2_model
      (fl_one_by_one (Fin 1)) (fl_one_by_one (Fin 1)) no_face
      (fl_one_by_one (Fin 1)) (fl_one_by_one (Fin 1)) no_face = Ok y /\
    exists h_0 h_1 h_2 m_0 m_1 m_2,
      after_layers scn2_model
        (fun layer xs =>
           scn2_layer scn2_store layer xs
             (fl_one_by_one (Fin 1)) (fl_one_by_one (Fin 1)) no_face)
        (fl_one_by_one (Fin 1), fl_one_by_one (Fin 1), no_face) (h_0, h_1, h_2) /\
      pooled scn2_store scn2_model "lin_0" h_0 m_0 /\
      pooled scn2_store scn2_model "lin_1" h_1 m_1 /\
      pooled scn2_store scn2_model "lin_2" h_2 m_2 /\
      safe_means h_0 h_1 h_2 m_0 m_1 m_2 /\
      summed_without_empty h_2 h_1 h_0 m_2 m_1 m_0 y.
Proof.
  eexists. split.
  - vm_compute. reflexivity.
  - apply (proj1 nan_replaced_before_sum). vm_compute. reflexivity.
Defined.

(** A [ModuleList], unlike a plain list, registers the parameters of its
    layers: in SCN2 they are among [model.parameters()]. *)
Example ModuleList_registers_layers :
  match SCN2_init ["weight"] 6 10 7 1 2 0 with
  | Ok (self, _) => parameters self
  | Raise _ => []
  end = [0; 1; 2; 3; 4; 5; 6; 7].
Proof. reflexivity. Qed.



End Instances.

(* ===================================================================== *)
(** * The cells before the model *)

Module PreprocessingFacts.
Import Numpy Torch Complexes TorchModule Models Preprocessing.

Lemma appended_values {K F} (edge_feat : list (K * list F)) acc :
  fold_left (fun xy kv => xy ++ [snd kv]) edge_feat acc = acc ++ map snd edge_feat.
Proof.
  revert acc. induction edge_feat as [|kv rest IH]; intros acc; cbn.
  - now rewrite app_nil_r.
  - rewrite IH, <- app_assoc. reflexivity.
Qed.

Lemma forallb_same_length {A} (l : list (list A)) w :
  Forall (fun a => length a = w) l ->
  forallb (fun a => length a =? w) l = true.
Proof.
  intros H. apply forallb_forall. intros a Ha.
  rewrite Forall_forall in H. apply Nat.eqb_eq. now apply H.
Qed.

Lemma np_stack_same_length {A} (l : list (list A)) w :
  l <> [] -> Forall (fun a => length a = w) l ->
  np_stack l = Ok (Tensor2 (length l, w) l).
Proof.
  destruct l as [|first rest]; [congruence|]. intros _ H.
  assert (Hw : length first = w) by now inversion H.
  cbn [np_stack]. rewrite Hw, forallb_same_length by assumption. reflexivity.
Qed.

(** One label per pair, in the order of the pairs. *)
Lemma label_pairs {F} (positive : F -> bool) (pairs : list (list F)) w :
  2 <= w -> Forall (fun pair => length pair = w) pairs ->
  forall x_1 y, exists xs ys,
    for_each (label_pair positive) pairs (x_1, y) = Ok (x_1 ++ xs, y ++ ys) /\
    Forall2 (fun pair row => exists a b rest, pair = a :: b :: rest /\ row = [a])
            pairs xs /\
    Forall2 (fun pair label =>
               exists a b rest, pair = a :: b :: rest /\
                 label = if positive b then [1; 0]%Z else [0; 1]%Z)
            pairs ys.
Proof.
  intros Hw. induction 1 as [|pair pairs Hpair _ IH]; intros x_1 y.
  - exists [], []. rewrite !app_nil_r. repeat split; constructor.
  - destruct pair as [|a [|b rest]]; cbn in Hpair; try lia.
    cbn [for_each label_pair getitem nth_error obind].
    destruct (positive b) eqn:Hb; cbn [obind].
    + destruct (IH (x_1 ++ [[a]]) (y ++ [[1; 0]%Z])) as (xs & ys & Hf & Hx & Hy).
      exists ([a] :: xs), ([1; 0]%Z :: ys). rewrite Hf, <- !app_assoc.
      repeat split; constructor; try assumption.
      * exists a, b, rest. now split.
      * exists a, b, rest. rewrite Hb. now split.
    + destruct (IH (x_1 ++ [[a]]) (y ++ [[0; 1]%Z])) as (xs & ys & Hf & Hx & Hy).
      exists ([a] :: xs), ([0; 1]%Z :: ys). rewrite Hf, <- !app_assoc.
      repeat split; constructor; try assumption.
      * exists a, b, rest. now split.
      * exists a, b, rest. rewrite Hb. now split.
Qed.

Lemma Forall2_map_l {A B C} (f : A -> B) (P : B -> C -> Prop) l l' :
  Forall2 P (map f l) l' -> Forall2 (fun a c => P (f a) c) l l'.
Proof.
  revert l'. induction l as [|a l IH]; intros l' H; inversion H; subst;
    constructor; auto.
Qed.

(** X1: the label cell of the SCoNe notebook, on features of at least two
    entries per edge: [x_1] has one row of one entry per edge, the first
    feature; [y] has one row of two entries per edge, [[1, 0]] when the
    second feature is positive and [[0, 1]] otherwise, so that every label
    is one-hot. *)
Theorem edge_labels_one_hot {K F} (positive : F -> bool)
    (edge_feat : list (K * list F)) w :
  edge_feat <> [] -> 2 <= w ->
  Forall (fun kv => length (snd kv) = w) edge_feat ->
  exists tx ty,
    edge_labels positive edge_feat = Ok (Mat tx, Mat ty) /\
    size tx = (length edge_feat, 1) /\
    size ty = (length edge_feat, 2) /\
    Forall2 (fun kv row => exists a b rest, snd kv = a :: b :: rest /\ row = [a])
            edge_feat (data tx) /\
    Forall2 (fun kv label =>
               exists a b rest, snd kv = a :: b :: rest /\
                 label = if positive b then [1; 0]%Z else [0; 1]%Z)
            edge_feat (data ty) /\
    Forall one_hot (data ty).
Proof.
  intros Hne Hw Hall. unfold edge_labels. rewrite appended_values. cbn [app].
  assert (Hvals : Forall (fun a : list F => length a = w) (map snd edge_feat))
    by now apply Forall_map.
  rewrite (np_stack_same_length _ w); [|now destruct edge_feat|assumption].
  cbn [obind data].
  destruct (label_pairs positive (map snd edge_feat) w Hw Hvals [] [])
    as (xs & ys & Hf & Hx & Hy).
  rewrite Hf. cbn [obind fst snd app].
  assert (Hlx : length xs = length edge_feat).
  { apply Forall2_length in Hx. now rewrite length_map in Hx. }
  assert (Hly : length ys = length edge_feat).
  { apply Forall2_length in Hy. now rewrite length_map in Hy. }
  assert (Hxs1 : Forall (fun row : list F => length row = 1) xs).
  { clear -Hx. induction Hx as [|? ? ? ? (a & b & rest & _ & ->)];
      constructor; auto. }
  assert (Hys2 : Forall (fun row : list Z => length row = 2) ys).
  { clear -Hy. induction Hy as [|? ? ? ? (a & b & rest & _ & ->)];
      constructor; auto. now destruct (positive b). }
  assert (Hxne : xs <> []).
  { destruct xs; [|discriminate]. destruct edge_feat; [congruence|discriminate]. }
  rewrite (np_stack_same_length _ 1) by assumption. cbn [obind].
  destruct ys as [|y0 ys]; [destruct edge_feat; [congruence|discriminate]|].
  assert (Hy0 : length y0 = 2) by now inversion Hys2.
  cbn [torch_tensor]. rewrite Hy0, forallb_same_length by assumption.
  cbn [obind]. do 2 eexists. split; [reflexivity|]. cbn [size data].
  rewrite Hlx, Hly. repeat split.
  - now apply Forall2_map_l in Hx.
  - now apply Forall2_map_l in Hy.
  - clear -Hy. remember (y0 :: ys) as labels. clear Heqlabels.
    induction Hy as [|? ? ? ? (a & b & rest & _ & ->)]; constructor; auto.
    unfold one_hot. destruct (positive b); auto.
Qed.

(** X2: when the label cell fails: no edge feature ([np.stack] refuses an empty
    list), features of different lengths, and features of fewer than two
    entries, which the indexing [pair[0]] or [pair[1]] refuses. *)
Theorem edge_labels_errors {K F} (positive : F -> bool)
    (edge_feat : list (K * list F)) :
  (edge_feat = [] ->
   exists msg, edge_labels positive edge_feat = Raise (ValueError msg)) /\
  (~ (exists w, Forall (fun kv => length (snd kv) = w) edge_feat) ->
   exists msg, edge_labels positive edge_feat = Raise (ValueError msg)) /\
  (forall w, edge_feat <> [] -> w < 2 ->
     Forall (fun kv => length (snd kv) = w) edge_feat ->
     exists msg, edge_labels positive edge_feat = Raise (IndexError msg)).
Proof.
  split; [|split].
  - intros ->. eexists. reflexivity.
  - intros Hragged. unfold edge_labels. rewrite appended_values. cbn [app].
    destruct edge_feat as [|[k v] rest]; [exfalso; apply Hragged; now exists 0|].
    cbn [map snd np_stack].
    destruct (forallb _ _) eqn:Hall; [|eexists; reflexivity].
    exfalso. apply Hragged. exists (length v).
    rewrite forallb_forall in Hall. apply Forall_forall. intros kv Hkv.
    apply Nat.eqb_eq. apply (Hall (snd kv)).
    change (v :: map snd rest) with (map snd ((k, v) :: rest)).
    now apply in_map.
  - intros w Hne Hw Hall. unfold edge_labels. rewrite appended_values. cbn [app].
    assert (Hvals : Forall (fun a : list F => length a = w) (map snd edge_feat))
      by now apply Forall_map.
    rewrite (np_stack_same_length _ w); [|now destruct edge_feat|assumption].
    cbn [obind data].
    destruct edge_feat as [|[k v] rest]; [congruence|].
    cbn [map snd for_each label_pair].
    inversion Hall as [|? ? Hv _]; subst. cbn [snd] in *.
    destruct v as [|a [|b v]]; cbn in Hw; try lia; cbn; eexists; reflexivity.
Qed.

(** Two edges, with the features (3, -1) and (2, 5). *)
Lemma edge_labels_one_hot_witness :
  exists tx ty,
    edge_labels (fun v => 0 <? v)%Z [(0, [3; -1]%Z); (1, [2; 5]%Z)]
    = Ok (Mat tx, Mat ty) /\
    data tx = [[3]; [2]]%Z /\
    data ty = [[0; 1]; [1; 0]]%Z /\
    Forall one_hot (data ty).
Proof.
  destruct (edge_labels_one_hot (fun v => 0 <? v)%Z
              [(0, [3; -1]%Z); (1, [2; 5]%Z)] 2)
    as (tx & ty & Hrun & _ & _ & _ & _ & Hone).
  - discriminate.
  - lia.
  - repeat constructor.
  - exists tx, ty. split; [exact Hrun|].
    cbn in Hrun. injection Hrun as <- <-. cbn in *. auto.
Defined.

(** One edge with a single feature. *)
Lemma edge_labels_errors_witness :
  exists msg,
    edge_labels (fun v => 0 <? v)%Z [(0, [3]%Z)] = Raise (IndexError msg).
Proof.
  apply (proj2 (proj2 (edge_labels_errors (fun v => 0 <? v)%Z [(0, [3]%Z)])) 1).
  - discriminate.
  - lia.
  - repeat constructor.
Defined.

End PreprocessingFacts.

Module NeighborhoodsFacts.
Import Numpy Torch Complexes Models Neighborhoods ComplexesFacts.

(** ** The lists of the SCA notebook *)

Lemma sca_neighborhoods_of_shapes sc acc :
  2 <= dim sc ->
  exists a b c d,
    sca_neighborhoods_of sc acc
    = Ok (ScaLists (down_lap1_list acc ++ [a]) (down_lap2_list acc ++ [b])
                   (incidence1_t_list acc ++ [c]) (incidence2_t_list acc ++ [d])) /\
    size a = (n_cells sc 1, n_cells sc 1) /\
    size b = (n_cells sc 2, n_cells sc 2) /\
    size c = (n_cells sc 1, n_cells sc 0) /\
    size d = (n_cells sc 2, n_cells sc 1).
Proof.
  intros Hdim. unfold sca_neighborhoods_of.
  destruct (down_laplacian_total sc 1 ltac:(lia)) as (L1 & HL1).
  destruct (down_laplacian_total sc 2 ltac:(lia)) as (L2 & HL2).
  rewrite HL1, HL2. cbn [obind].
  apply down_laplacian_shape in HL1, HL2.
  unfold incidence_matrix.
  replace (dim sc <? 1) with false by (symmetry; apply Nat.ltb_ge; lia).
  replace (dim sc <? 2) with false by (symmetry; apply Nat.ltb_ge; lia).
  cbn [obind]. do 4 eexists. split; [reflexivity|].
  repeat split; try (apply to_torch_rows; assumption); reflexivity.
Qed.

Lemma sca_neighborhoods_from scs :
  Forall (fun sc => 2 <= dim sc) scs ->
  forall acc, exists l1 l2 i1 i2,
    for_each sca_neighborhoods_of scs acc
    = Ok (ScaLists (down_lap1_list acc ++ l1) (down_lap2_list acc ++ l2)
                   (incidence1_t_list acc ++ i1) (incidence2_t_list acc ++ i2)) /\
    Forall2 (fun sc a => size a = (n_cells sc 1, n_cells sc 1)) scs l1 /\
    Forall2 (fun sc a => size a = (n_cells sc 2, n_cells sc 2)) scs l2 /\
    Forall2 (fun sc a => size a = (n_cells sc 1, n_cells sc 0)) scs i1 /\
    Forall2 (fun sc a => size a = (n_cells sc 2, n_cells sc 1)) scs i2.
Proof.
  induction 1 as [|sc scs Hsc _ IH]; intros acc.
  - exists [], [], [], []. cbn [for_each]. rewrite !app_nil_r.
    destruct acc. repeat split; constructor.
  - destruct (sca_neighborhoods_of_shapes sc acc Hsc)
      as (a & b & c & d & Hstep & Ha & Hb & Hc & Hd).
    cbn [for_each]. rewrite Hstep. cbn [obind].
    destruct (IH (ScaLists (down_lap1_list acc ++ [a]) (down_lap2_list acc ++ [b])
                           (incidence1_t_list acc ++ [c])
                           (incidence2_t_list acc ++ [d])))
      as (l1 & l2 & i1 & i2 & Hrest & H1 & H2 & H3 & H4).
    exists (a :: l1), (b :: l2), (c :: i1), (d :: i2).
    rewrite Hrest. cbn [down_lap1_list down_lap2_list incidence1_t_list
                          incidence2_t_list].
    rewrite <- !app_assoc. cbn [app].
    repeat split; constructor; assumption.
Qed.

Lemma sca_neighborhoods_of_low sc acc :
  dim sc < 2 ->
  exists msg, sca_neighborhoods_of sc acc = Raise (ValueError msg).
Proof.
  intros Hdim. unfold sca_neighborhoods_of.
  destruct (down_laplacian_matrix sc 1) as [L1|e] eqn:HL1.
  - cbn [obind]. unfold down_laplacian_matrix.
    replace ((0 <? 2) && (2 <=? dim sc)) with false
      by (symmetry; apply andb_false_iff; right; apply Nat.leb_gt; lia).
    eexists. reflexivity.
  - unfold down_laplacian_matrix in HL1.
    destruct ((0 <? 1) && (1 <=? dim sc)) eqn:Hr.
    + exfalso. apply andb_true_iff in Hr. destruct Hr as [_ Hr].
      apply Nat.leb_le in Hr. unfold incidence_matrix in HL1.
      replace (dim sc <? 1) with false in HL1
        by (symmetry; apply Nat.ltb_ge; lia).
      cbn [obind] in HL1. unfold matmul in HL1. cbn in HL1.
      rewrite Nat.eqb_refl in HL1. discriminate.
    + injection HL1 as <-. eexists. reflexivity.
Qed.

(** X15: the cell of the SCA notebook that builds the neighborhood matrices
    returns four lists with one entry per complex, in the order of the
    complexes, of the shapes [[n_1, n_1]], [[n_2, n_2]], [[n_1, n_0]] and
    [[n_2, n_1]]; a complex without faces stops it with [ValueError]. *)
Theorem sca_lists_follow_the_complexes (scs : list complex) :
  (Forall (fun sc => 2 <= dim sc) scs ->
   exists ls,
     sca_neighborhoods scs = Ok ls /\
     Forall2 (fun sc a => size a = (n_cells sc 1, n_cells sc 1))
             scs (down_lap1_list ls) /\
     Forall2 (fun sc a => size a = (n_cells sc 2, n_cells sc 2))
             scs (down_lap2_list ls) /\
     Forall2 (fun sc a => size a = (n_cells sc 1, n_cells sc 0))
             scs (incidence1_t_list ls) /\
     Forall2 (fun sc a => size a = (n_cells sc 2, n_cells sc 1))
             scs (incidence2_t_list ls)) /\
  (forall before sc after,
     scs = before ++ sc :: after ->
     Forall (fun sc => 2 <= dim sc) before -> dim sc < 2 ->
     exists msg, sca_neighborhoods scs = Raise (ValueError msg)).
Proof.
  split.
  - intros Hall.
    destruct (sca_neighborhoods_from scs Hall (ScaLists [] [] [] []))
      as (l1 & l2 & i1 & i2 & Hrun & H1 & H2 & H3 & H4).
    eexists. split; [exact Hrun|]. cbn. auto.
  - intros before sc after -> Hbefore Hlow. unfold sca_neighborhoods.
    generalize (ScaLists [] [] [] []) as acc.
    induction Hbefore as [|sc0 before Hsc0 _ IH]; intros acc; cbn [app for_each].
    + destruct (sca_neighborhoods_of_low sc acc Hlow) as (msg & ->).
      exists msg. reflexivity.
    + destruct (sca_neighborhoods_of_shapes sc0 acc Hsc0)
        as (a & b & c & d & -> & _). cbn [obind]. apply IH.
Qed.

(** The lists for one filled triangle. *)
Lemma sca_lists_witness :
  exists ls,
    sca_neighborhoods [triangle] = Ok ls /\
    Forall2 (fun sc a => size a = (n_cells sc 1, n_cells sc 1))
            [triangle] (down_lap1_list ls) /\
    Forall2 (fun sc a => size a = (n_cells sc 2, n_cells sc 2))
            [triangle] (down_lap2_list ls) /\
    Forall2 (fun sc a => size a = (n_cells sc 1, n_cells sc 0))
            [triangle] (incidence1_t_list ls) /\
    Forall2 (fun sc a => size a = (n_cells sc 2, n_cells sc 1))
            [triangle] (incidence2_t_list ls).
Proof.
  apply (proj1 (sca_lists_follow_the_complexes [triangle])).
  repeat constructor.
Defined.

(** ** The incidence matrix of the HMPNN notebook *)

Lemma sum_of_ones (edges : edge_index) i j :
  forall ones : list Z,
    ones = repeat 1%Z (length edges) ->
    fold_right Z.add 0%Z
      (map snd (filter (fun ev : (nat * nat) * Z => edge_eqb (fst ev) (i, j))
                       (combine edges ones)))
    = Z.of_nat (multiplicity edges i j).
Proof.
  unfold multiplicity. induction edges as [|e edges IH]; intros ones ->.
  - reflexivity.
  - cbn [length repeat combine filter fst].
    destruct (edge_eqb e (i, j)).
    + cbn [map snd fold_right length]. rewrite (IH _ eq_refl). lia.
    + apply (IH _ eq_refl).
Qed.

Lemma edge_eqb_eq e e' : edge_eqb e e' = true <-> e = e'.
Proof.
  destruct e as [a b], e' as [a' b']. unfold edge_eqb. cbn [fst snd].
  rewrite andb_true_iff, !Nat.eqb_eq. split; [intros [-> ->]|intros [= -> ->]]; auto.
Qed.

Lemma multiplicity_pos edges i j :
  0 < multiplicity edges i j <-> In (i, j) edges.
Proof.
  unfold multiplicity. split.
  - intros Hpos. destruct (filter _ edges) as [|e l] eqn:Hf; [cbn in Hpos; lia|].
    assert (Hin : In e (filter (fun e => edge_eqb e (i, j)) edges))
      by (rewrite Hf; now left).
    apply filter_In in Hin. destruct Hin as [Hin Heq].
    apply edge_eqb_eq in Heq. now subst.
  - intros Hin.
    assert (Hf : In (i, j) (filter (fun e => edge_eqb e (i, j)) edges)).
    { apply filter_In. split; [assumption|]. now apply edge_eqb_eq. }
    destruct (filter _ edges); [contradiction|cbn; lia].
Qed.

Lemma max_bound {A} (f : A -> nat) (l : list A) x :
  In x l -> f x <= fold_right Nat.max 0 (map f l).
Proof.
  induction l as [|a l IH]; [contradiction|]. cbn [map fold_right].
  intros [->|Hin]; [lia|]. specialize (IH Hin). lia.
Qed.

Lemma max_least {A} (f : A -> nat) (l : list A) b :
  (forall x, In x l -> f x <= b) -> fold_right Nat.max 0 (map f l) <= b.
Proof.
  induction l as [|a l IH]; intros Hb; cbn [map fold_right]; [lia|].
  assert (f a <= b) by (apply Hb; now left).
  assert (fold_right Nat.max 0 (map f l) <= b)
    by (apply IH; intros x Hx; apply Hb; now right).
  lia.
Qed.

Lemma nth_map_seq {A} (f : nat -> A) n i d :
  i < n -> nth i (map f (seq 0 n)) d = f i.
Proof.
  intros Hi. apply nth_error_nth. rewrite nth_error_map.
  rewrite (nth_error_nth' _ 0) by now rewrite length_seq.
  now rewrite seq_nth.
Qed.

Lemma entry_at_multiplicity edges i j :
  entry_at (hmpnn_incidence edges) i j = Z.of_nat (multiplicity edges i j).
Proof.
  unfold entry_at, hmpnn_incidence, sparse_coo_tensor. cbn [data].
  set (n_rows := fold_right Nat.max 0 (map (fun e => S (fst e)) edges)).
  set (n_cols := fold_right Nat.max 0 (map (fun e => S (snd e)) edges)).
  destruct (Nat.lt_ge_cases i n_rows) as [Hi|Hi];
    [destruct (Nat.lt_ge_cases j n_cols) as [Hj|Hj]|].
  - rewrite (nth_map_seq _ n_rows i) by assumption.
    rewrite (nth_map_seq _ n_cols j) by assumption.
    now apply sum_of_ones.
  - assert (Hzero : multiplicity edges i j = 0).
    { destruct (multiplicity edges i j) eqn:Hm; [reflexivity|exfalso].
      assert (Hin : In (i, j) edges) by (apply multiplicity_pos; lia).
      pose proof (max_bound (fun e => S (snd e)) edges (i, j) Hin) as Hb.
      cbn [snd] in Hb. fold n_cols in Hb. lia. }
    rewrite Hzero. rewrite (nth_map_seq _ n_rows i) by assumption.
    apply nth_overflow. now rewrite length_map, length_seq.
  - assert (Hzero : multiplicity edges i j = 0).
    { destruct (multiplicity edges i j) eqn:Hm; [reflexivity|exfalso].
      assert (Hin : In (i, j) edges) by (apply multiplicity_pos; lia).
      pose proof (max_bound (fun e => S (fst e)) edges (i, j) Hin) as Hb.
      cbn [fst] in Hb. fold n_rows in Hb. lia. }
    rewrite Hzero. rewrite (nth_overflow _ []);
      [now destruct j|now rewrite length_map, length_seq].
Qed.

(** The largest index listed, plus one, is above exactly the indices that
    some listed entry reaches. *)
Lemma below_max {A} (f : A -> nat) (l : list A) i :
  i < fold_right Nat.max 0 (map (fun e => S (f e)) l) <->
  exists e, In e l /\ i <= f e.
Proof.
  induction l as [|a l IH]; cbn [map fold_right].
  - split; [lia|]. now intros (e & [] & _).
  - split.
    + intros Hi. destruct (Nat.le_gt_cases i (f a)) as [Ha|Ha].
      * exists a. split; [now left|assumption].
      * destruct (proj1 IH) as (e & He & Hie); [lia|].
        exists e. split; [now right|assumption].
    + intros (e & [<-|He] & Hie); [lia|].
      assert (i < fold_right Nat.max 0 (map (fun e => S (f e)) l))
        by (apply IH; now exists e).
      lia.
Qed.

(** X16: the matrix the HMPNN notebook passes as [incidence_1] is the adjacency
    matrix of the listed edges: its entry at [(i, j)] is the number of times
    the edge from [i] to [j] is listed.  Its size is inferred from the list:
    it has a row [i] exactly when some listed edge has a source of index [i]
    or above, and a column [j] exactly when some listed edge has a target of
    index [j] or above; so the nodes numbered above every listed endpoint
    have no row and no column.  For an edge list that holds every edge in
    both directions the matrix is square and symmetric. *)
Theorem hmpnn_incidence_is_adjacency (edges : edge_index) :
  (forall i j,
     entry_at (hmpnn_incidence edges) i j = Z.of_nat (multiplicity edges i j)) /\
  (forall i,
     i < fst (size (hmpnn_incidence edges)) <->
     exists e, In e edges /\ i <= fst e) /\
  (forall j,
     j < snd (size (hmpnn_incidence edges)) <->
     exists e, In e edges /\ j <= snd e) /\
  length (data (hmpnn_incidence edges)) = fst (size (hmpnn_incidence edges)) /\
  Forall (fun row => length row = snd (size (hmpnn_incidence edges)))
         (data (hmpnn_incidence edges)) /\
  ((forall i j, multiplicity edges i j = multiplicity edges j i) ->
   fst (size (hmpnn_incidence edges)) = snd (size (hmpnn_incidence edges)) /\
   forall i j,
     entry_at (hmpnn_incidence edges) i j = entry_at (hmpnn_incidence edges) j i).
Proof.
  split; [apply entry_at_multiplicity|].
  split; [intros i; apply (below_max fst)|].
  split; [intros j; apply (below_max snd)|].
  split.
  { unfold hmpnn_incidence, sparse_coo_tensor. cbn [size data fst].
    now rewrite length_map, length_seq. }
  split.
  { unfold hmpnn_incidence, sparse_coo_tensor. cbn [size data snd].
    apply Forall_forall. intros row Hrow. apply in_map_iff in Hrow.
    destruct Hrow as (i & <- & _). now rewrite length_map, length_seq. }
  intros Hsym. split.
  - unfold hmpnn_incidence, sparse_coo_tensor. cbn [size fst snd].
    apply Nat.le_antisymm; apply max_least; intros [i j] Hin; cbn [fst snd].
    + assert (Hrev : In (j, i) edges).
      { apply multiplicity_pos. rewrite <- Hsym. now apply multiplicity_pos. }
      apply (max_bound (fun e => S (snd e)) edges (j, i) Hrev).
    + assert (Hrev : In (j, i) edges).
      { apply multiplicity_pos. rewrite <- Hsym. now apply multiplicity_pos. }
      apply (max_bound (fun e => S (fst e)) edges (j, i) Hrev).
  - intros i j. rewrite !entry_at_multiplicity. now rewrite Hsym.
Qed.

(** A path on three nodes, every edge listed in both directions. *)
Lemma hmpnn_incidence_witness :
  fst (size (hmpnn_incidence [(0, 1); (1, 0); (1, 2); (2, 1)]))
  = snd (size (hmpnn_incidence [(0, 1); (1, 0); (1, 2); (2, 1)])) /\
  forall i j,
    entry_at (hmpnn_incidence [(0, 1); (1, 0); (1, 2); (2, 1)]) i j
    = entry_at (hmpnn_incidence [(0, 1); (1, 0); (1, 2); (2, 1)]) j i.
Proof.
  apply (proj2 (proj2 (proj2 (proj2 (proj2
           (hmpnn_incidence_is_adjacency [(0, 1); (1, 0); (1, 2); (2, 1)])))))).
  intros i j. unfold multiplicity, edge_eqb. cbn [filter fst snd].
  destruct i as [|[|[|i]]], j as [|[|[|j]]]; reflexivity.
Defined.

(** A graph of three nodes whose last node ends no edge: the matrix has two
    rows and two columns, none for the last node. *)
Example isolated_last_node_has_no_column :
  size (hmpnn_incidence [(0, 1); (1, 0)]) = (2, 2).
Proof. reflexivity. Qed.

End NeighborhoodsFacts.

(* ===================================================================== *)
(** * Predictions and accuracy *)

Module MetricsFacts.
Import Torch TorchModule Floats Models Preprocessing Metrics.
Import FloatsFacts SCoNeNNFacts.
#[local] Open Scope R_scope.

(** ** Indexing and comparing rows *)

Lemma traverse_getitem {A} (l : list A) indices :
  Forall (fun i => (i < length l)%nat) indices ->
  exists sel,
    traverse (getitem l) indices = Ok sel /\
    Forall2 (fun i a => nth_error l i = Some a) indices sel.
Proof.
  induction 1 as [|i indices Hi _ (sel & Hsel & Hall)].
  - exists []. split; [reflexivity|constructor].
  - destruct (nth_error l i) as [a|] eqn:Ha; [|apply nth_error_None in Ha; lia].
    exists (a :: sel). cbn [traverse]. unfold getitem at 1. rewrite Ha.
    cbn [obind]. rewrite Hsel. split; [reflexivity|now constructor].
Qed.

Lemma traverse_getitem_map {A B} (f : A -> B) (l : list A) indices sel :
  traverse (getitem l) indices = Ok sel ->
  traverse (getitem (map f l)) indices = Ok (map f sel).
Proof.
  revert sel. induction indices as [|i indices IH]; intros sel; cbn [traverse].
  - intros [= <-]. reflexivity.
  - unfold getitem at 1 3. rewrite nth_error_map.
    destruct (nth_error l i) as [a|]; [|discriminate]. cbn [obind option_map].
    destruct (traverse (getitem l) indices) as [rest|]; [|discriminate].
    cbn [obind]. intros [= <-]. now rewrite (IH rest eq_refl).
Qed.

Lemma Forall2_selected {A} (P : A -> Prop) (l : list A) indices sel :
  Forall P l ->
  Forall2 (fun i a => nth_error l i = Some a) indices sel ->
  Forall P sel.
Proof.
  intros HP. induction 1 as [|i a indices sel Hi _ IH]; constructor; auto.
  rewrite Forall_forall in HP. apply HP. eapply nth_error_In. eassumption.
Qed.

Lemma expand_same {A} (l : list A) n : length l = n -> expand n l = l.
Proof.
  destruct l as [|x [|y l]]; intros <-; reflexivity.
Qed.

Lemma broadcast_dim_same n : broadcast_dim n n = Ok n.
Proof. unfold broadcast_dim. now rewrite Nat.eqb_refl. Qed.

(** ** Rows of two probabilities *)

Lemma two_probabilities (row : list R) :
  length row = 2%nat -> is_distribution row ->
  exists p q, row = [p; q] /\ 0 <= p /\ 0 <= q /\ p + q = 1.
Proof.
  destruct row as [|p [|q [|r row]]]; try discriminate. intros _ [Hall Hsum].
  exists p, q. inversion Hall as [|? ? Hp Hq]; subst.
  inversion Hq as [|? ? Hq' _]; subst. unfold rsum in Hsum. cbn in Hsum.
  repeat split; lra.
Qed.

(** A row is counted as equal to its label exactly when the probability of
    the labelled class is above one half. *)
Lemma row_equal_confident (probs : list R) (label : list Z) :
  length probs = 2%nat -> is_distribution probs -> one_hot label ->
  forallb (fun b : bool => b)
    (map (fun xy : Z * Z => Z.eqb (fst xy) (snd xy))
         (combine (map (fun p : R => if Rlt_dec (1 / 2) p then 1%Z else 0%Z) probs)
                  label))
  = confident probs label.
Proof.
  intros Hlen Hdist Hlabel.
  destruct (two_probabilities probs Hlen Hdist) as (p & q & -> & Hp & Hq & Hsum).
  unfold confident. destruct Hlabel as [-> | ->]; cbn;
    destruct (Rlt_dec (1 / 2) p), (Rlt_dec (1 / 2) q); cbn; try reflexivity; lra.
Qed.

Lemma mean_of_bounds (v : list R) :
  Forall (fun x => 0 <= x <= 1) v ->
  match mean_of v with
  | Fin a => v <> [] /\ 0 <= a <= 1
  | NaN => v = []
  | Inf _ => False
  end.
Proof.
  intros Hall. destruct v as [|x v]; [reflexivity|].
  unfold mean_of. split; [discriminate|].
  assert (Hsum : 0 <= rsum (x :: v) <= INR (length (x :: v))).
  { clear -Hall. induction Hall as [|y w Hy _ IH].
    - unfold rsum. cbn. lra.
    - change (rsum (y :: w)) with (y + rsum w). cbn [length]. rewrite S_INR. lra. }
  assert (Hn : 0 < INR (length (x :: v))) by (apply lt_0_INR; cbn; lia).
  split.
  - apply Rmult_le_reg_r with (INR (length (x :: v))); [assumption|].
    unfold Rdiv. rewrite Rmult_assoc, Rinv_l by lra. lra.
  - apply Rmult_le_reg_r with (INR (length (x :: v))); [assumption|].
    unfold Rdiv. rewrite Rmult_assoc, Rinv_l by lra. lra.
Qed.

(** ** The predictions of the SCoNe notebook *)

Section Grid.
Context {f : Float32} {laws : Float32Laws f} {grid : Float32Grid f}.

(** The prediction of a row of two logits *)
Lemma prediction_row a b :
  marks [a; b]
    (map (fun p => if fl_gtb (1 / 2) p then 1%Z else 0%Z) (softmax_row [a; b])).
Proof.
  exists a, b. split; [reflexivity|].
  pose proof (softmax_row_two a b) as Hsoft.
  remember (softmax_row [a; b]) as row eqn:Erow.
  inversion Hsoft as [a' b' Hundef|a' b' p q Hdef Hp Hq Hab Hba Heq]; subst.
  - (* undefined logits *)
    cbn [map fl_gtb]. split; [now left|]. split; reflexivity.
  - cbn [map fl_gtb].
    match goal with H : [Fin p; Fin q] = softmax_row _ |- _ =>
      rename H into Erow; symmetry in Erow end.
    assert (Hnot : ~ (1 / 2 < p /\ 1 / 2 < q)).
    { intros [Hp2 Hq2].
      destruct a as [|[|]|r], b as [|[|]|s];
        try (apply Hdef; unfold undefined_logits; tauto).
      - (* minus infinity and a number *)
        revert Erow.
        cbn [softmax_row fold_left map hd tl fl_max fl_sub negb fl_exp].
        replace (s - s) with 0 by ring. rewrite exp_round_0. cbn [fl_radd].
        rewrite Rplus_0_l, round_1. cbn [fl_div].
        destruct (Req_dec_T 1 0) as [E|_]; [lra|].
        replace (0 / 1) with 0 by field. rewrite round_0.
        intros [= <- _]. lra.
      - (* a number and minus infinity *)
        revert Erow.
        cbn [softmax_row fold_left map hd tl fl_max fl_sub negb fl_exp].
        replace (r - r) with 0 by ring. rewrite exp_round_0. cbn [fl_radd].
        rewrite Rplus_0_r, round_1. cbn [fl_div].
        destruct (Req_dec_T 1 0) as [E|_]; [lra|].
        replace (0 / 1) with 0 by field. rewrite round_0.
        intros [= _ <-]. lra.
      - (* two numbers *)
        destruct (Rle_lt_dec r s) as [Hle|Hlt].
        + pose proof (softmax_row_le_half r s Hle p q Erow). lra.
        + assert (Hge : s <= r) by lra.
          pose proof (softmax_row_ge_half r s Hge p q Erow). lra. }
    destruct (Rlt_dec (1 / 2) p) as [Hp2|Hp2], (Rlt_dec (1 / 2) q) as [Hq2|Hq2].
    + exfalso. apply Hnot. now split.
    + (* the first class *)
      assert (Hnab : ~ fl_le a b) by (intros H; specialize (Hab H); lra).
      split.
      * right. left. split; [reflexivity|]. split; [|exact Hnab].
        destruct a as [|[|]|r], b as [|[|]|s]; cbn in *;
          try tauto; try (exfalso; apply Hdef; unfold undefined_logits; tauto).
        lra.
      * split; [intros H; contradiction|].
        intros ->. destruct (Heq eq_refl). lra.
    + (* the second class *)
      assert (Hnba : ~ fl_le b a) by (intros H; specialize (Hba H); lra).
      split.
      * right. right. split; [reflexivity|]. split; [|exact Hnba].
        destruct a as [|[|]|r], b as [|[|]|s]; cbn in *;
          try tauto; try (exfalso; apply Hdef; unfold undefined_logits; tauto).
        lra.
      * split; [intros H; contradiction|].
        intros ->. destruct (Heq eq_refl). lra.
    + split; [now left|]. split; reflexivity.
Qed.

End Grid.

Lemma prediction_rows (f : Float32) (laws : Float32Laws f) (grid : Float32Grid f)
    (rows : list (list fl)) :
  Forall (fun row => length row = 2%nat) rows ->
  Forall2 marks rows
    (map (map (fun p => if fl_gtb (1 / 2) p then 1%Z else 0%Z))
         (map softmax_row rows)).
Proof.
  induction 1 as [|row rows Hrow _ IH]; cbn [map]; constructor; [|exact IH].
  destruct row as [|a [|b [|c row]]]; try discriminate. apply prediction_row.
Qed.

(** X4: the prediction of the SCoNe notebook, [torch.where(y_hat > 0.5, 1, 0)]
    on the output of the model, never marks both classes of an edge: a row
    of the prediction is [[0, 0]], or it marks the one class whose logit is
    above the other.  It is [[0, 0]] when the logits are undefined, where the
    output row is NaN, and when they are equal, where the output row is 1/2
    and 1/2. *)
Theorem predictions_mark_one_class (arith : Scalar fl) (f : Float32)
    (laws : Float32Laws f) (grid : Float32Grid f)
    weights channels n_layers next self next'
    (fwd : SCoNeLayer_call) st x_1 up_lap1 down_lap1 iden n_edges linear :
  SCoNeNN_init weights channels n_layers next = Ok (self, next') ->
  getattr self "linear" = Ok linear ->
  linear_has_shape st linear channels 2 ->
  (forall layer x, has_shape x n_edges channels ->
     exists x', fwd st layer x up_lap1 down_lap1 iden = Ok x' /\
                has_shape x' n_edges channels) ->
  has_shape x_1 n_edges channels ->
  exists y_hat layers h z y_pred,
    SCoNeNN_forward fwd st self x_1 up_lap1 down_lap1 iden = Ok y_hat /\
    layers_of self = Ok layers /\
    for_each (fun layer x_1 => fwd st layer x_1 up_lap1 down_lap1 iden)
             layers x_1 = Ok h /\
    Linear_forward st linear h = Ok (Mat z) /\
    where_gt_fl (1 / 2) y_hat = Mat y_pred /\
    size y_pred = (n_edges, 2%nat) /\
    Forall2 marks (data z) (data y_pred).
Proof.
  intros Hinit Hlin Hshape Hlayers Hx.
  destruct (SCoNeNN_forward_logits arith f _ _ _ _ _ _ fwd st x_1 up_lap1
              down_lap1 iden n_edges linear Hinit Hlin Hshape Hlayers Hx)
    as (layers & h & z & Hl & Hh & Hz & Hsz & Hdz & Hrows & Hf).
  eexists. exists layers, h, z. eexists.
  split; [exact Hf|]. repeat (split; [assumption|]).
  cbn [where_gt_fl size data]. split; [reflexivity|].
  cbn [size data]. split; [exact Hsz|].
  now apply prediction_rows.
Qed.

(** A forward pass on one edge with equal logits, and its prediction. *)
Lemma predictions_mark_one_class_witness :
  exists y_hat layers h z y_pred,
    @SCoNeNN_forward (@Scalar_float32 Examples.overflowing)
      Examples.overflowing Examples.layer_identity
      Examples.scone_store Examples.scone_model
      (Examples.fl_one_by_one (Fin 0)) (Examples.fl_one_by_one (Fin 0))
      (Examples.fl_one_by_one (Fin 0)) (Examples.fl_one_by_one (Fin 1))
    = Ok y_hat /\
    layers_of Examples.scone_model = Ok layers /\
    for_each (fun layer x_1 =>
                Examples.layer_identity Examples.scone_store layer x_1
                  (Examples.fl_one_by_one (Fin 0))
                  (Examples.fl_one_by_one (Fin 0))
                  (Examples.fl_one_by_one (Fin 1)))
             layers (Examples.fl_one_by_one (Fin 0)) = Ok h /\
    @Linear_forward fl (@Scalar_float32 Examples.overflowing)
      Examples.scone_store
      (Module_ "Linear" [("weight", 2%nat); ("bias", 3%nat)] []
         [("in_features", PyInt 1); ("out_features", PyInt 2)]) h
    = Ok (Mat z) /\
    where_gt_fl (1 / 2) y_hat = Mat y_pred /\
    size y_pred = (1%nat, 2%nat) /\
    Forall2 marks (data z) (data y_pred).
Proof.
  eapply (predictions_mark_one_class
            (@Scalar_float32 Examples.overflowing) Examples.overflowing
            overflowing_laws overflowing_grid
            ["weight"] 1 2 0%nat Examples.scone_model 4%nat
            Examples.layer_identity Examples.scone_store
            (Examples.fl_one_by_one (Fin 0)) (Examples.fl_one_by_one (Fin 0))
            (Examples.fl_one_by_one (Fin 0)) (Examples.fl_one_by_one (Fin 1))
            1%nat).
  - vm_compute. reflexivity.
  - vm_compute. reflexivity.
  - do 2 eexists. repeat split; try (vm_compute; reflexivity).
  - intros layer x Hx. exists x. now split.
  - split; reflexivity.
Defined.

(** ** Accuracy *)

Lemma Forall2_combine_confident (sel : list (list R)) (labels : list (list Z)) :
  Forall (fun row => length row = 2%nat /\ is_distribution row) sel ->
  Forall one_hot labels ->
  map (fun ab : list Z * list Z =>
         map (fun xy : Z * Z => Z.eqb (fst xy) (snd xy))
             (combine (expand 2 (fst ab)) (expand 2 (snd ab))))
      (combine (map (map (fun p : R => if Rlt_dec (1 / 2) p then 1%Z else 0%Z)) sel)
               labels)
  = map (fun ab : list Z * list Z =>
           map (fun xy : Z * Z => Z.eqb (fst xy) (snd xy))
               (combine (fst ab) (snd ab)))
        (combine (map (map (fun p : R => if Rlt_dec (1 / 2) p then 1%Z else 0%Z)) sel)
                 labels).
Proof.
  intros Hsel. revert labels.
  induction Hsel as [|row sel [Hlen _] _ IH]; intros labels Hlab; [reflexivity|].
  destruct Hlab as [|label labels Hone Hlab]; [reflexivity|].
  cbn [map combine fst snd]. rewrite IH by assumption. f_equal.
  rewrite !expand_same; [reflexivity| |now rewrite length_map].
  destruct Hone as [-> | ->]; reflexivity.
Qed.



End MetricsFacts.

(* ===================================================================== *)
(** * Train and test sets *)

Module SklearnFacts.
Import Torch TorchModule Models Metrics Sklearn MetricsFacts.

Lemma ceiling_fifth (n : nat) :
  Z.to_nat (Qceiling ((2 # 10) * inject_Z (Z.of_nat n))) = (n + 4) / 5.
Proof.
  unfold Qceiling, Qfloor, Qopp, Qmult, inject_Z. cbn [Qnum Qden].
  rewrite Pos.mul_1_r.
  apply Nat2Z.inj. rewrite Z2Nat.id.
  - rewrite Nat2Z.inj_div, Nat2Z.inj_add. cbn.
    Z.to_euclidean_division_equations. lia.
  - Z.to_euclidean_division_equations. lia.
Qed.

Lemma validate_fifth (n : nat) :
  2 <= n ->
  validate_shuffle_split n (2 # 10) = Ok (n - (n + 4) / 5, (n + 4) / 5) /\
  0 < n - (n + 4) / 5 /\ 0 < (n + 4) / 5 /\ (n + 4) / 5 <= n.
Proof.
  intros Hn. unfold validate_shuffle_split.
  change (Qle_bool (2 # 10) 0 || Qle_bool 1 (2 # 10)) with false. cbv iota.
  rewrite ceiling_fifth.
  assert (H : 0 < n - (n + 4) / 5 /\ 0 < (n + 4) / 5 /\ (n + 4) / 5 <= n).
  { pose proof (Nat.div_mod_eq (n + 4) 5).
    pose proof (Nat.mod_upper_bound (n + 4) 5). lia. }
  destruct (n - (n + 4) / 5 =? 0) eqn:Hz; [apply Nat.eqb_eq in Hz; lia|].
  split; [reflexivity|assumption].
Qed.

Lemma validate_too_few (n : nat) :
  n < 2 -> exists msg, validate_shuffle_split n (2 # 10) = Raise (ValueError msg).
Proof.
  intros Hn. destruct n as [|[|n]]; [| |lia]; eexists; reflexivity.
Qed.

Lemma skipn_nth_error {A} (a : list A) :
  forall s x, nth_error a s = Some x -> skipn s a = x :: skipn (S s) a.
Proof.
  induction a as [|a0 a IH]; intros [|s] x; cbn [nth_error]; try discriminate.
  - now intros [= ->].
  - intros Hx. apply IH in Hx. exact Hx.
Qed.

Lemma traverse_getitem_seq {A} (a : list A) :
  forall k s, s + k <= length a ->
    traverse (getitem a) (seq s k) = Ok (firstn k (skipn s a)).
Proof.
  induction k as [|k IH]; intros s Hs; [reflexivity|].
  cbn [seq traverse]. unfold getitem at 1.
  destruct (nth_error a s) as [x|] eqn:Hx; [|apply nth_error_None in Hx; lia].
  cbn [obind]. rewrite IH by lia. cbn [obind].
  now rewrite (skipn_nth_error a s x Hx).
Qed.

Lemma train_test_split_ordered_eq {A} (a : list A) :
  2 <= length a ->
  train_test_split a (2 # 10) None
  = Ok (firstn (length a - (length a + 4) / 5) a,
        skipn (length a - (length a + 4) / 5) a).
Proof.
  intros Hn. destruct (validate_fifth (length a) Hn) as (Hv & Htrain & Htest & Hle).
  unfold train_test_split, split_indices. rewrite Hv. cbn [obind fst snd].
  rewrite !traverse_getitem_seq by lia. cbn [obind skipn].
  do 2 f_equal. apply firstn_all2. rewrite length_skipn. lia.
Qed.

(** X7: with [shuffle=False] and [test_size=0.2] the two sets are the list cut in
    two, in its order: nothing is lost, the test set holds a fifth of the
    samples, rounded up, and neither set is empty; a list of fewer than two
    samples is refused. *)
Theorem train_test_split_cuts_in_order {A} (a : list A) :
  (2 <= length a ->
   exists train test,
     train_test_split a (2 # 10) None = Ok (train, test) /\
     train ++ test = a /\
     length test = (length a + 4) / 5 /\
     train <> [] /\ test <> []) /\
  (length a < 2 ->
   exists msg, train_test_split a (2 # 10) None = Raise (ValueError msg)).
Proof.
  split.
  - intros Hn. destruct (validate_fifth (length a) Hn) as (_ & Htrain & Htest & Hle).
    do 2 eexists. split; [now apply train_test_split_ordered_eq|].
    split; [apply firstn_skipn|]. split; [rewrite length_skipn; lia|].
    split; intros Hnil; apply (f_equal (@length A)) in Hnil;
      rewrite ?length_firstn, ?length_skipn in Hnil; cbn [length] in Hnil; lia.
  - intros Hn. destruct (validate_too_few _ Hn) as (msg & Hv).
    exists msg. unfold train_test_split, split_indices. now rewrite Hv.
Qed.

(** Ten samples: eight for training, two for testing. *)
Lemma train_test_split_witness :
  exists train test,
    train_test_split (seq 0 10) (2 # 10) None = Ok (train, test) /\
    train ++ test = seq 0 10 /\
    length test = 2 /\
    train <> [] /\ test <> [].
Proof.
  apply (proj1 (train_test_split_cuts_in_order (seq 0 10))). cbn. lia.
Defined.

(** ** The samples of the loops *)

Lemma skipn_1_firstn {V} k (l : list V) :
  skipn 1 (firstn (S k) l) = firstn k (skipn 1 l).
Proof. destruct l; cbn [firstn skipn]; [now destruct k|reflexivity]. Qed.

Lemma zip_upto_firstn {V} :
  forall k n (lists : list (list V)),
    Forall (fun l => length l = n) lists -> k <= n ->
    zip_upto k (map (firstn k) lists) = firstn k (zip_upto n lists).
Proof.
  induction k as [|k IH]; intros n lists Hall Hk; [reflexivity|].
  destruct n as [|n]; [lia|]. cbn [zip_upto].
  assert (Hne : forallb (fun l : list V => negb (length l =? 0)) lists = true).
  { apply forallb_forall. intros l Hl. rewrite Forall_forall in Hall.
    rewrite (Hall l Hl). reflexivity. }
  assert (Hne' : forallb (fun l : list V => negb (length l =? 0))
                         (map (firstn (S k)) lists) = true).
  { apply forallb_forall. intros l Hl. apply in_map_iff in Hl.
    destruct Hl as (l0 & <- & Hl0). rewrite Forall_forall in Hall.
    rewrite length_firstn, (Hall l0 Hl0). reflexivity. }
  rewrite Hne, Hne'. cbn [firstn]. f_equal.
  - clear. induction lists as [|l lists IHl]; [reflexivity|].
    cbn [map flat_map]. rewrite IHl. f_equal. now destruct l.
  - rewrite map_map.
    rewrite (map_ext _ (fun l => firstn k (skipn 1 l)))
      by (intros l; apply skipn_1_firstn).
    rewrite <- (map_map (skipn 1) (firstn k)). apply (IH n); [|lia].
    apply Forall_map. eapply Forall_impl; [|exact Hall].
    intros l Hl. cbn beta in *. rewrite length_skipn. lia.
Qed.

Lemma zip_upto_skipn {V} :
  forall k n (lists : list (list V)),
    Forall (fun l => length l = n) lists -> k <= n ->
    zip_upto (n - k) (map (skipn k) lists) = skipn k (zip_upto n lists).
Proof.
  induction k as [|k IH]; intros n lists Hall Hk.
  - rewrite Nat.sub_0_r. cbn [skipn]. now rewrite map_id.
  - destruct n as [|n]; [lia|]. cbn [zip_upto Nat.sub].
    assert (Hne : forallb (fun l : list V => negb (length l =? 0)) lists = true).
    { apply forallb_forall. intros l Hl. rewrite Forall_forall in Hall.
      rewrite (Hall l Hl). reflexivity. }
    rewrite Hne. cbn [skipn]. rewrite <- (IH n); [|
      apply Forall_map; eapply Forall_impl; [|exact Hall];
        intros l Hl; cbn beta in *; rewrite length_skipn; lia | lia].
    f_equal. rewrite map_map. apply map_ext. intros l.
    destruct l; [now rewrite !skipn_nil|reflexivity].
Qed.

Lemma length_zip_upto {V} :
  forall n (lists : list (list V)),
    Forall (fun l => length l = n) lists -> length (zip_upto n lists) = n.
Proof.
  induction n as [|n IH]; intros lists Hall; [reflexivity|]. cbn [zip_upto].
  assert (Hne : forallb (fun l : list V => negb (length l =? 0)) lists = true).
  { apply forallb_forall. intros l Hl. rewrite Forall_forall in Hall.
    rewrite (Hall l Hl). reflexivity. }
  rewrite Hne. cbn [length]. f_equal. apply IH.
  apply Forall_map. eapply Forall_impl; [|exact Hall].
  intros l Hl. cbn beta in *. rewrite length_skipn. lia.
Qed.

Lemma split_each_eq {V} (lists : list (list V)) n :
  2 <= n -> Forall (fun l => length l = n) lists ->
  split_each lists
  = Ok (map (fun l => (firstn (n - (n + 4) / 5) l, skipn (n - (n + 4) / 5) l))
            lists).
Proof.
  intros Hn. unfold split_each. induction 1 as [|l lists Hl _ IH]; [reflexivity|].
  cbn [traverse map]. rewrite train_test_split_ordered_eq by lia.
  cbn [obind]. rewrite IH. cbn [obind]. now rewrite Hl.
Qed.

(** X8: the lists of a dataset are split by separate calls, and the loops zip the
    training parts and the test parts again: with lists of one length the
    samples stay whole.  The training samples are the first samples of the
    zipped dataset, the test samples the rest, in the order of the
    dataset. *)
Theorem split_keeps_samples_whole {V} (lists : list (list V)) n :
  lists <> [] -> 2 <= n -> Forall (fun l => length l = n) lists ->
  exists parts,
    split_each lists = Ok parts /\
    zip (map fst parts) = firstn (n - (n + 4) / 5) (zip lists) /\
    zip (map snd parts) = skipn (n - (n + 4) / 5) (zip lists) /\
    zip (map fst parts) ++ zip (map snd parts) = zip lists /\
    length (zip lists) = n.
Proof.
  intros Hne Hn Hall.
  set (k := n - (n + 4) / 5).
  exists (map (fun l => (firstn k l, skipn k l)) lists).
  split; [apply (split_each_eq lists n); assumption|].
  destruct (validate_fifth n Hn) as (_ & Htrain & Htest & Hle). fold k in Htrain.
  assert (Hfst : map fst (map (fun l : list V => (firstn k l, skipn k l)) lists)
                 = map (firstn k) lists)
    by (rewrite map_map; now apply map_ext).
  assert (Hsnd : map snd (map (fun l : list V => (firstn k l, skipn k l)) lists)
                 = map (skipn k) lists)
    by (rewrite map_map; now apply map_ext).
  rewrite Hfst, Hsnd.
  destruct lists as [|first lists]; [congruence|].
  assert (Hfirst : length first = n) by now inversion Hall.
  assert (Hz1 : zip (map (firstn k) (first :: lists))
                = firstn k (zip (first :: lists))).
  { unfold zip. cbn [map]. rewrite length_firstn, Hfirst.
    rewrite Nat.min_l by lia.
    change (firstn k first :: map (firstn k) lists)
      with (map (firstn k) (first :: lists)).
    apply zip_upto_firstn; [assumption|lia]. }
  assert (Hz2 : zip (map (skipn k) (first :: lists))
                = skipn k (zip (first :: lists))).
  { unfold zip. cbn [map]. rewrite length_skipn, Hfirst.
    change (skipn k first :: map (skipn k) lists)
      with (map (skipn k) (first :: lists)).
    apply zip_upto_skipn; [assumption|lia]. }
  rewrite Hz1, Hz2. repeat split.
  - apply firstn_skipn.
  - unfold zip. rewrite Hfirst. now apply length_zip_upto.
Qed.

(** Two lists of five samples each. *)
Lemma split_keeps_samples_whole_witness :
  exists parts,
    split_each [[10; 11; 12; 13; 14]; [20; 21; 22; 23; 24]] = Ok parts /\
    zip (map fst parts) = [[10; 20]; [11; 21]; [12; 22]; [13; 23]] /\
    zip (map snd parts) = [[14; 24]].
Proof.
  destruct (split_keeps_samples_whole
              [[10; 11; 12; 13; 14]; [20; 21; 22; 23; 24]] 5)
    as (parts & Hrun & Htrain & Htest & _).
  - discriminate.
  - lia.
  - repeat constructor.
  - exists parts. split; [exact Hrun|]. split; assumption.
Defined.

(** ** The split of the SCoNe notebook *)

Lemma traverse_getitem_arange n indices :
  Forall (fun i => i < n) indices ->
  traverse (getitem (seq 0 n)) indices = Ok indices.
Proof.
  induction 1 as [|i indices Hi _ IH]; [reflexivity|].
  cbn [traverse]. unfold getitem at 1.
  rewrite (nth_error_nth' _ 0) by now rewrite length_seq.
  rewrite seq_nth by assumption. cbn [obind]. rewrite IH. reflexivity.
Qed.

Lemma traverse_length {A B} (f : A -> outcome B) l l' :
  traverse f l = Ok l' -> length l' = length l.
Proof.
  revert l'. induction l as [|a l IH]; intros l'; cbn [traverse].
  - now intros [= <-].
  - destruct (f a); [|discriminate]. cbn [obind].
    destruct (traverse f l) as [bs|]; [|discriminate]. cbn [obind].
    intros [= <-]. cbn. f_equal. now apply IH.
Qed.

Lemma in_firstn {A} n (l : list A) x : In x (firstn n l) -> In x l.
Proof.
  intros H. rewrite <- (firstn_skipn n l). apply in_or_app. now left.
Qed.

Lemma in_skipn {A} n (l : list A) x : In x (skipn n l) -> In x l.
Proof.
  intros H. rewrite <- (firstn_skipn n l). apply in_or_app. now right.
Qed.

(** X3: the split of the SCoNe notebook works for the 78 edges of the dataset
    only.  Whatever permutation is drawn, 62 edges are for training and 16
    for testing, no edge is in both sets, and the rows of [y_train] and
    [y_test] are the rows of [y] at [train_indices] and [test_indices]. *)
Theorem scone_split_aligned (y : tensor2 Z) (permutation : list nat) :
  (length (data y) = 78 -> Permutation permutation (seq 0 78) ->
   exists y_train y_test train_indices test_indices,
     scone_split y permutation
     = Ok (y_train, y_test, train_indices, test_indices) /\
     length train_indices = 62 /\
     length test_indices = 16 /\
     Permutation (test_indices ++ train_indices) (seq 0 78) /\
     index_rows (Mat y) train_indices = Ok (Mat y_train) /\
     index_rows (Mat y) test_indices = Ok (Mat y_test)) /\
  (length (data y) <> 78 ->
   exists msg, scone_split y permutation = Raise (ValueError msg)).
Proof.
  split.
  - intros Hy Hperm.
    assert (Hlen : length permutation = 78).
    { apply Permutation_length in Hperm. now rewrite length_seq in Hperm. }
    assert (Hrange : Forall (fun i => i < 78) permutation).
    { apply Forall_forall. intros i Hi.
      apply (Permutation_in _ Hperm) in Hi. apply in_seq in Hi. lia. }
    set (test := firstn 16 permutation).
    set (train := firstn 62 (skipn 16 permutation)).
    assert (Htest : Forall (fun i => i < 78) test).
    { apply Forall_forall. intros i Hi. rewrite Forall_forall in Hrange.
      apply Hrange. eapply in_firstn. exact Hi. }
    assert (Htrain : Forall (fun i => i < 78) train).
    { apply Forall_forall. intros i Hi. rewrite Forall_forall in Hrange.
      apply Hrange. eapply in_skipn. eapply in_firstn. exact Hi. }
    destruct (traverse_getitem (data y) train) as (y_train & Hyt & _);
      [now rewrite Hy|].
    destruct (traverse_getitem (data y) test) as (y_test & Hye & _);
      [now rewrite Hy|].
    exists (Tensor2 (length y_train, snd (size y)) y_train),
           (Tensor2 (length y_test, snd (size y)) y_test), train, test.
    assert (Hlt : length train = 62).
    { subst train. rewrite length_firstn, length_skipn. lia. }
    assert (Hle : length test = 16).
    { subst test. rewrite length_firstn. lia. }
    split; [|split; [assumption|split; [assumption|split; [|split]]]].
    + unfold scone_split, train_test_split2. rewrite Hy, length_seq.
      cbn [Nat.eqb]. cbv iota.
      unfold split_indices.
      destruct (validate_fifth 78 ltac:(lia)) as (Hv & _). rewrite Hv.
      change ((78 + 4) / 5) with 16. change (78 - 16) with 62.
      cbn [obind fst snd]. fold train test.
      rewrite Hyt, Hye. cbn [obind].
      rewrite !traverse_getitem_arange by assumption. reflexivity.
    + subst test train. rewrite (firstn_all2 (n := 62));
        [|rewrite length_skipn; lia].
      now rewrite firstn_skipn.
    + cbn [index_rows]. rewrite Hyt. cbn [obind].
      now rewrite (traverse_length _ _ _ Hyt).
    + cbn [index_rows]. rewrite Hye. cbn [obind].
      now rewrite (traverse_length _ _ _ Hye).
  - intros Hy. unfold scone_split, train_test_split2. rewrite length_seq.
    destruct (length (data y) =? 78) eqn:Heq; [apply Nat.eqb_eq in Heq; lia|].
    eexists. reflexivity.
Qed.

(** The split when the permutation drawn is the identity. *)
Lemma scone_split_witness :
  exists y_train y_test train_indices test_indices,
    scone_split (Tensor2 (78, 2) (repeat [1; 0]%Z 78)) (seq 0 78)
    = Ok (y_train, y_test, train_indices, test_indices) /\
    length train_indices = 62 /\
    length test_indices = 16.
Proof.
  destruct (proj1 (scone_split_aligned (Tensor2 (78, 2) (repeat [1; 0]%Z 78))
                     (seq 0 78)))
    as (y_train & y_test & train_indices & test_indices & Hrun & Htrain & Htest & _).
  - cbn [data]. apply repeat_length.
  - apply Permutation_refl.
  - exists y_train, y_test, train_indices, test_indices. auto.
Defined.

End SklearnFacts.

(* ===================================================================== *)
(** * The loops of the CAN notebook *)

Module CanLoopsFacts.
Import Models CanLoops.

Section Loops.
Context {V : Type}.
Variables (as_tensor to_device : V -> V).
Variable model : list (model_call V) -> list V -> outcome V.
Variable loss_fn : V -> V -> outcome V.
Hypothesis model_returns : forall calls args, exists v, model calls args = Ok v.
Hypothesis loss_returns : forall a b, exists v, loss_fn a b = Ok v.

Ltac lookups :=
  repeat first [ rewrite lookup_insert_eq
               | rewrite lookup_insert_ne by discriminate ].

(** One pass of the training body binds [up_laplacian] to the converted up
    Laplacian of its sample. *)
Lemma train_body_binds (s : sample V) ns calls :
  exists ns' args,
    train_body as_tensor to_device model loss_fn s (ns, calls)
    = Ok (ns', calls ++ [ModelCall false args]) /\
    ns' !! "up_laplacian" = Some (to_device (up_laplacian s)).
Proof.
  unfold train_body, bind_targets, convert_inputs, forward_and_loss, load.
  cbn [combine fold_left fst snd]. lookups. cbn [obind]. lookups. cbn [obind].
  lookups. cbn [obind].
  match goal with |- context [model calls ?a] =>
    destruct (model_returns calls a) as (y_hat & ->) end.
  cbn [obind]. lookups. cbn [obind].
  match goal with |- context [loss_fn ?a ?b] =>
    destruct (loss_returns a b) as (loss & ->) end.
  cbn [obind]. do 2 eexists. split; [reflexivity|]. lookups. reflexivity.
Qed.

Lemma train_loop_binds (earlier : list (sample V)) (last : sample V) :
  forall ns calls, exists ns' calls',
    for_each (train_body as_tensor to_device model loss_fn) (earlier ++ [last])
             (ns, calls) = Ok (ns', calls') /\
    ns' !! "up_laplacian" = Some (to_device (up_laplacian last)) /\
    test_calls calls' = test_calls calls.
Proof.
  induction earlier as [|s earlier IH]; intros ns calls; cbn [app for_each].
  - destruct (train_body_binds last ns calls) as (ns' & args & -> & Hup).
    cbn [obind]. do 2 eexists. split; [reflexivity|]. split; [assumption|].
    unfold test_calls. rewrite filter_app. cbn. now rewrite app_nil_r.
  - destruct (train_body_binds s ns calls) as (ns1 & args & -> & _). cbn [obind].
    destruct (IH ns1 (calls ++ [ModelCall false args]))
      as (ns' & calls' & -> & Hup & Hcalls).
    do 2 eexists. split; [reflexivity|]. split; [assumption|].
    rewrite Hcalls. unfold test_calls. rewrite filter_app. cbn.
    now rewrite app_nil_r.
Qed.

(** One pass of the test body: the loop binds [up_laplcian], and the call
    reads [up_laplacian], which still holds what the statements before the
    loop left in it. *)
Lemma test_body_reads (s : sample V) ns calls u :
  ns !! "up_laplacian" = Some u ->
  exists ns',
    test_body as_tensor to_device model loss_fn s (ns, calls)
    = Ok (ns', calls ++ [ModelCall true
                           [as_tensor (x_0 s); as_tensor (x_1 s);
                            as_tensor (x_2 s); to_device (down_laplacian s);
                            to_device u]]) /\
    ns' !! "up_laplacian" = Some (to_device u).
Proof.
  intros Hu.
  unfold test_body, bind_targets, convert_inputs, forward_and_loss, load.
  cbn [combine fold_left fst snd]. lookups. cbn [obind]. lookups.
  rewrite Hu. cbn [obind]. lookups. cbn [obind].
  match goal with |- context [model calls ?a] =>
    destruct (model_returns calls a) as (y_hat & ->) end.
  cbn [obind]. lookups. cbn [obind].
  match goal with |- context [loss_fn ?a ?b] =>
    destruct (loss_returns a b) as (loss & ->) end.
  cbn [obind]. eexists. split; [reflexivity|]. lookups. reflexivity.
Qed.

Lemma test_loop_reads (test : list (sample V)) :
  forall ns calls u k,
    ns !! "up_laplacian" = Some (Nat.iter k to_device u) ->
    exists ns' calls',
      for_each (test_body as_tensor to_device model loss_fn) test (ns, calls)
      = Ok (ns', calls') /\
      test_calls calls' =
        test_calls calls ++
        map (fun ks : nat * sample V =>
               [as_tensor (x_0 (snd ks)); as_tensor (x_1 (snd ks));
                as_tensor (x_2 (snd ks)); to_device (down_laplacian (snd ks));
                Nat.iter (fst ks + 1) to_device u])
            (combine (seq k (length test)) test).
Proof.
  induction test as [|s test IH]; intros ns calls u k Hu; cbn [for_each].
  - do 2 eexists. split; [reflexivity|]. cbn. now rewrite app_nil_r.
  - destruct (test_body_reads s ns calls _ Hu) as (ns1 & -> & Hup). cbn [obind].
    destruct (IH ns1 (calls ++ [ModelCall true
                           [as_tensor (x_0 s); as_tensor (x_1 s);
                            as_tensor (x_2 s); to_device (down_laplacian s);
                            to_device (Nat.iter k to_device u)]]) u (S k) Hup)
      as (ns' & calls' & -> & Hcalls).
    do 2 eexists. split; [reflexivity|]. rewrite Hcalls.
    unfold test_calls at 1. rewrite filter_app, map_app. cbn [filter in_test_loop map].
    rewrite <- app_assoc. cbn [length seq combine map fst snd app].
    rewrite Nat.add_1_r. reflexivity.
Qed.

End Loops.

(** X11: in an epoch of the CAN notebook that evaluates the test data, the up
    Laplacian the model receives for every test sample is the one of the
    last training sample: the test loop binds [up_laplcian], and the call
    reads [up_laplacian].  The features and the down Laplacian are those of
    the test sample. *)
Theorem test_loop_reads_training_up_laplacian {V} (as_tensor to_device : V -> V)
    (model : list (model_call V) -> list V -> outcome V)
    (loss_fn : V -> V -> outcome V)
    (earlier : list (sample V)) (last : sample V) (test : list (sample V))
    (ns : namespace V) :
  (forall calls args, exists v, model calls args = Ok v) ->
  (forall a b, exists v, loss_fn a b = Ok v) ->
  exists ns' calls,
    tested_epoch as_tensor to_device model loss_fn (earlier ++ [last]) test ns
    = Ok (ns', calls) /\
    test_calls calls =
      map (fun ks : nat * sample V =>
             [as_tensor (x_0 (snd ks)); as_tensor (x_1 (snd ks));
              as_tensor (x_2 (snd ks)); to_device (down_laplacian (snd ks));
              Nat.iter (fst ks + 2) to_device (up_laplacian last)])
          (combine (seq 0 (length test)) test).
Proof.
  intros Hmodel Hloss. unfold tested_epoch.
  destruct (train_loop_binds as_tensor to_device model loss_fn Hmodel Hloss
              earlier last ns []) as (ns1 & calls1 & -> & Hup & Hcalls).
  cbn [obind].
  destruct (test_loop_reads as_tensor to_device model loss_fn Hmodel Hloss
              test ns1 calls1 (up_laplacian last) 1 Hup)
    as (ns' & calls' & -> & Htest).
  do 2 eexists. split; [reflexivity|]. rewrite Htest, Hcalls.
  cbn [test_calls filter map app].
  assert (Hshift : forall k,
    map (fun ks : nat * sample V =>
           [as_tensor (x_0 (snd ks)); as_tensor (x_1 (snd ks));
            as_tensor (x_2 (snd ks)); to_device (down_laplacian (snd ks));
            Nat.iter (fst ks + 1) to_device (up_laplacian last)])
        (combine (seq (S k) (length test)) test)
    = map (fun ks : nat * sample V =>
             [as_tensor (x_0 (snd ks)); as_tensor (x_1 (snd ks));
              as_tensor (x_2 (snd ks)); to_device (down_laplacian (snd ks));
              Nat.iter (fst ks + 2) to_device (up_laplacian last)])
          (combine (seq k (length test)) test)).
  { clear. induction test as [|s test IH]; intros k; [reflexivity|].
    cbn [length seq combine map fst snd]. f_equal; [|apply (IH (S k))].
    replace (S k + 1) with (k + 2) by lia. reflexivity. }
  apply Hshift.
Qed.

(** One training sample and one test sample, on numbers: the conversions
    add 1, the model returns 0. *)
Lemma test_loop_witness :
  exists ns' calls,
    tested_epoch S S (fun _ _ => Ok 0) (fun _ _ => Ok 0)
      ([] ++ [Sample 1 2 3 4 5 6]) [Sample 10 20 30 40 50 60] ∅
    = Ok (ns', calls) /\
    test_calls calls = [[11; 21; 31; 41; 7]].
Proof.
  destruct (test_loop_reads_training_up_laplacian S S
              (fun _ _ => Ok 0) (fun _ _ => Ok 0)
              [] (Sample 1 2 3 4 5 6) [Sample 10 20 30 40 50 60] ∅)
    as (ns' & calls & Hrun & Hcalls).
  - intros. now exists 0.
  - intros. now exists 0.
  - exists ns', calls. split; [exact Hrun|exact Hcalls].
Defined.

End CanLoopsFacts.

(* ===================================================================== *)
(** * Registered parameters and output shapes *)

Module RegistrationFacts.
Import Torch TorchModule Floats Models Registration TorchModuleFacts ModelsFacts.

(** A step updates every parameter of a list without repetition. *)
Lemma step_updates_listed {F} (update : param_id -> tensor F -> tensor F) ps lr :
  NoDup ps ->
  forall (st : store F) p v,
    In p ps -> st !! p = Some v ->
    step update (Optimizer ps lr) st !! p = Some (update p v).
Proof.
  unfold step. cbn [param_groups].
  induction 1 as [|q ps Hq Hnd IH]; intros st p v Hin Hp; [contradiction|].
  cbn [fold_left]. destruct Hin as [->|Hin].
  - rewrite Hp.
    pose proof (step_frame update (Optimizer ps lr) (<[p := update p v]> st) p Hq)
      as Hframe.
    unfold step in Hframe. cbn [param_groups] in Hframe. rewrite Hframe.
    apply lookup_insert_eq.
  - assert (Hne : p <> q) by (intros ->; contradiction).
    apply IH; [assumption|].
    destruct (st !! q); [|assumption].
    now rewrite lookup_insert_ne by congruence.
Qed.

Lemma trains_layers_intro self layers :
  getattr self "layers" = Ok layers ->
  incl (held_parameters layers) (parameters self) ->
  NoDup (parameters self) ->
  trains_layers self.
Proof.
  intros Hl Hincl Hnd. split; [now exists layers|]. split; [assumption|].
  intros lr opt Hopt F update st p v Hin Hp.
  destruct (parameters self) as [|q ps] eqn:Hps; [contradiction|].
  injection Hopt as <-. now apply step_updates_listed.
Qed.

Lemma parameters_children (keys : list string) (modules : list pyobj) :
  length keys = length modules ->
  (fix children (l : list (string * pyobj)) : list param_id :=
     match l with
     | [] => []
     | (_, c) :: l' => parameters c ++ children l'
     end) (combine keys modules)
  = flat_map parameters modules.
Proof.
  revert modules. induction keys as [|k keys IH]; intros [|m modules] Hlen;
    try discriminate; [reflexivity|].
  cbn [combine flat_map]. f_equal. apply IH. now injection Hlen.
Qed.

Lemma parameters_ModuleList layers :
  parameters (ModuleList layers) = flat_map parameters layers.
Proof.
  cbn [ModuleList parameters map app]. unfold enumerate.
  apply parameters_children. apply length_enumerate_keys.
Qed.

Lemma parameters_Sequential layers :
  parameters (Sequential layers) = flat_map parameters layers.
Proof.
  cbn [Sequential parameters map app]. unfold enumerate.
  apply parameters_children. apply length_enumerate_keys.
Qed.

Lemma seq_three_linears a n :
  seq a n ++ [a + n; S (a + n); S (S (a + n)); S (S (S (a + n)));
              S (S (S (S (a + n)))); S (S (S (S (S (a + n)))))]
  = seq a (n + 6).
Proof.
  rewrite seq_app. f_equal.
Qed.

Lemma parameters_Module cls ps ms d :
  parameters (Module_ cls ps ms d)
  = map snd ps ++ flat_map (fun kv => parameters (snd kv)) ms.
Proof.
  cbn [parameters]. f_equal. induction ms as [|[k m] ms IH]; [reflexivity|].
  cbn [flat_map snd]. now rewrite IH.
Qed.

Lemma held_parameters_ModuleList layers :
  held_parameters (ModuleList layers) = flat_map parameters layers.
Proof. apply parameters_ModuleList. Qed.

Lemma SCN2_registers weights c0 c1 c2 num_classes n_layers next :
  registers_all (SCN2_init weights c0 c1 c2 num_classes n_layers) next.
Proof.
  destruct (comprehension_Layer "SCN2Layer" weights
              [("in_channels_0", PyInt c0); ("in_channels_1", PyInt c1);
               ("in_channels_2", PyInt c2)] n_layers next)
    as (layers & Hc & Hlen & Hps & _).
  unfold registers_all, SCN2_init, SCN2Layer, cbind. rewrite Hc.
  pose proof (held_parameters_ModuleList layers) as Hheld.
  pose proof (parameters_ModuleList layers) as Hml. rewrite Hps in Hml, Hheld.
  unfold ModuleList in *. set (ms := enumerate layers) in *. clearbody ms.
  cbn -[parameters held_parameters].
  do 2 eexists. split; [reflexivity|].
  match goal with |- parameters ?s = _ /\ _ =>
    assert (Hpar : parameters s = seq next (n_layers * length weights + 6)) end.
  { rewrite parameters_Module. cbn [map app flat_map snd]. rewrite Hml.
    rewrite !parameters_Module. cbn [map snd flat_map app].
    rewrite <- seq_three_linears. reflexivity. }
  split.
  - rewrite Hpar. f_equal. lia.
  - eapply trains_layers_intro.
    + reflexivity.
    + rewrite Hheld, Hpar. intros p Hp. apply in_seq. apply in_seq in Hp. lia.
    + rewrite Hpar. apply seq_NoDup.
Qed.

Lemma AMPSSCA_registers weights c0 c1 c2 rest complex_dim num_classes n_layers
    att next :
  registers_all
    (AMPSSCA_init weights (c0 :: c1 :: c2 :: rest) complex_dim num_classes
                  n_layers att) next.
Proof.
  destruct (comprehension_Layer "SCACMPSLayer" weights
              [("channels_list", PyList (map PyInt (c0 :: c1 :: c2 :: rest)));
               ("complex_dim", PyInt complex_dim); ("att", PyBool att)]
              n_layers next)
    as (layers & Hc & Hlen & Hps & _).
  unfold registers_all, AMPSSCA_init, SCACMPSLayer, cbind. rewrite Hc.
  pose proof (held_parameters_ModuleList layers) as Hheld.
  pose proof (parameters_ModuleList layers) as Hml. rewrite Hps in Hml, Hheld.
  unfold ModuleList in *. set (ms := enumerate layers) in *. clearbody ms.
  cbn -[parameters held_parameters].
  do 2 eexists. split; [reflexivity|].
  match goal with |- parameters ?s = _ /\ _ =>
    assert (Hpar : parameters s = seq next (n_layers * length weights + 6)) end.
  { rewrite parameters_Module. cbn [map app flat_map snd]. rewrite Hml.
    rewrite !parameters_Module. cbn [map snd flat_map app].
    rewrite <- seq_three_linears. reflexivity. }
  split.
  - rewrite Hpar. f_equal. lia.
  - eapply trains_layers_intro.
    + reflexivity.
    + rewrite Hheld, Hpar. intros p Hp. apply in_seq. apply in_seq in Hp. lia.
    + rewrite Hpar. apply seq_NoDup.
Qed.

(** The linear layers of [to_hidden_linear]: layer [i] maps
    [hidden_features[i]] features to [hidden_features[i + 1]] features. *)
Lemma hidden_linears (h : list nat) :
  forall idx next,
    (forall i, In i idx -> i + 1 < length h) ->
    exists linears,
      comprehension_over idx
        (fun i =>
           new a := lift (getitem h i) in
           new b := lift (getitem h (i + 1)) in
           Linear a b) next
      = Ok (linears, next + 2 * length idx) /\
      flat_map parameters linears = seq next (2 * length idx) /\
      Forall2 (fun i lin =>
                 exists a b w,
                   nth_error h i = Some a /\ nth_error h (i + 1) = Some b /\
                   lin = Module_ "Linear" [("weight", w); ("bias", S w)] []
                           [("in_features", PyInt a); ("out_features", PyInt b)])
              idx linears.
Proof.
  induction idx as [|i idx IH]; intros next Hidx.
  - exists []. cbn. unfold cret. rewrite Nat.add_0_r.
    repeat split. constructor.
  - assert (Hi : i + 1 < length h) by (apply Hidx; now left).
    destruct (nth_error h i) as [a|] eqn:Ha;
      [|apply nth_error_None in Ha; lia].
    destruct (nth_error h (i + 1)) as [b|] eqn:Hb;
      [|apply nth_error_None in Hb; lia].
    destruct (IH (S (S next))) as (linears & Hc & Hps & Hall).
    { intros j Hj. apply Hidx. now right. }
    exists (Module_ "Linear" [("weight", next); ("bias", S next)] []
              [("in_features", PyInt a); ("out_features", PyInt b)] :: linears).
    split; [|split].
    + cbn [comprehension_over]. unfold cbind at 1.
      unfold cbind at 1. unfold lift at 1, getitem at 1. rewrite Ha.
      unfold cbind at 1. unfold lift at 1, getitem at 1. rewrite Hb.
      cbn [Linear]. unfold cbind at 1. rewrite Hc. unfold cret.
      do 2 f_equal. cbn [length]. lia.
    + cbn [flat_map]. rewrite parameters_Module. cbn [map snd flat_map app].
      rewrite Hps. cbn [length].
      replace (2 * S (length idx)) with (S (S (2 * length idx))) by lia.
      reflexivity.
    + constructor; [|assumption]. exists a, b, next. auto.
Qed.

Lemma HMPNN_registers weights in_features hidden_features num_classes n_layer
    adjacency_dropout_rate regular_dropout_rate next :
  registers_all
    (HMPNN_init weights in_features hidden_features num_classes n_layer
                adjacency_dropout_rate regular_dropout_rate) next.
Proof.
  set (h := in_features :: hidden_features).
  destruct (hidden_linears h (seq 0 (length h - 1)) next)
    as (linears & Hlin & Hlps & _).
  { intros i Hi. apply in_seq in Hi. lia. }
  rewrite length_seq in Hlin, Hlps.
  set (k := 2 * (length h - 1)) in *.
  destruct (comprehension_Layer "HMPNNLayer" weights
              [("in_channels", PyInt (last h in_features));
               ("adjacency_dropout", PyFloat adjacency_dropout_rate);
               ("updating_dropout", PyFloat regular_dropout_rate)]
              n_layer (next + k))
    as (layers & Hc & Hlen & Hps & _).
  unfold registers_all, HMPNN_init, HMPNNLayer. fold h.
  unfold cbind at 1. rewrite Hlin. unfold cbind at 1. rewrite Hc.
  pose proof (held_parameters_ModuleList layers) as Hheld.
  pose proof (parameters_ModuleList layers) as Hml. rewrite Hps in Hml, Hheld.
  pose proof (parameters_Sequential linears) as Hsq. rewrite Hlps in Hsq.
  unfold ModuleList, Sequential in *.
  set (ms := enumerate layers) in *. clearbody ms.
  set (ls := enumerate linears) in *. clearbody ls.
  cbn -[parameters held_parameters last].
  do 2 eexists. split; [reflexivity|].
  match goal with |- parameters ?s = _ /\ _ =>
    assert (Hpar : parameters s = seq next (k + n_layer * length weights + 2)) end.
  { rewrite parameters_Module. cbn [map app flat_map snd]. rewrite Hml, Hsq.
    rewrite !parameters_Module. cbn [map snd flat_map app].
    rewrite !seq_app. rewrite <- !app_assoc. do 2 f_equal.
    cbn [seq]. subst k h. cbn [length].
    f_equal; [lia|]. f_equal. f_equal. lia. }
  split.
  - rewrite Hpar. f_equal. subst k h. cbn [length]. lia.
  - eapply trains_layers_intro.
    + reflexivity.
    + rewrite Hheld, Hpar. intros p Hp. apply in_seq. apply in_seq in Hp. lia.
    + rewrite Hpar. apply seq_NoDup.
Qed.

(** X12: SCN2, AMPSSCA and HMPNN keep their layers in a [ModuleList]: every
    parameter their constructors allocate, those of the message passing
    layers included, is yielded by [parameters()], each once, and a step of
    the optimizer built from them updates every one of them. *)
Theorem module_list_layers_are_trained weights :
  (forall in_channels_0 in_channels_1 in_channels_2 num_classes n_layers next,
     registers_all
       (SCN2_init weights in_channels_0 in_channels_1 in_channels_2
                  num_classes n_layers) next) /\
  (forall channels_list complex_dim num_classes n_layers att next,
     3 <= length channels_list ->
     registers_all
       (AMPSSCA_init weights channels_list complex_dim num_classes n_layers att)
       next) /\
  (forall in_features hidden_features num_classes n_layer
          adjacency_dropout_rate regular_dropout_rate next,
     registers_all
       (HMPNN_init weights in_features hidden_features num_classes n_layer
                   adjacency_dropout_rate regular_dropout_rate) next).
Proof.
  split; [|split].
  - intros. apply SCN2_registers.
  - intros channels_list complex_dim num_classes n_layers att next Hlen.
    destruct channels_list as [|c0 [|c1 [|c2 rest]]]; cbn in Hlen; try lia.
    apply AMPSSCA_registers.
  - intros. apply HMPNN_registers.
Qed.

(** AMPSSCA with three features per rank and two layers. *)
Lemma module_list_layers_are_trained_witness :
  registers_all (AMPSSCA_init ["weight"] [6; 10; 7] 3 1 2 false) 0.
Proof.
  apply (proj1 (proj2 (module_list_layers_are_trained ["weight"]))). cbn. lia.
Defined.

(** ** The shape of a pooled output *)

Lemma cells_mean_vector z n c : has_shape z n c -> is_vector (cells_mean z) c.
Proof.
  destruct z as [v|t]; [contradiction|]. intros [Hs _].
  unfold cells_mean. cbn [nanmean torch_isnan setitem_mask is_vector].
  rewrite length_map, length_combine, !length_map, length_seq, Hs.
  cbn [snd]. apply Nat.min_id.
Qed.

Lemma tensor_add_vector a b n :
  is_vector a n -> is_vector b n ->
  exists s, tensor_add a b = Ok s /\ is_vector s n.
Proof.
  destruct a as [u|]; [|contradiction]. destruct b as [v|]; [|contradiction].
  cbn [is_vector]. intros Hu Hv. cbn [tensor_add].
  rewrite Hu, Hv, Nat.eqb_refl. eexists. split; [reflexivity|].
  cbn [is_vector]. rewrite length_map, length_combine. lia.
Qed.

Lemma linear_initialised_shape {F} (st : store F) m i o :
  getattr m "in_features" = Ok (PyInt i) ->
  getattr m "out_features" = Ok (PyInt o) ->
  linear_initialised st m -> linear_has_shape st m i o.
Proof.
  intros Hi Ho (i' & o' & Hi' & Ho' & Hshape).
  rewrite Hi in Hi'. rewrite Ho in Ho'.
  injection Hi' as <-. injection Ho' as <-. exact Hshape.
Qed.

(** A linear layer followed by the mean over the cells *)
Lemma pooled_vector_of (st : store fl) lin x n c_in c_out :
  linear_has_shape st lin c_in c_out -> has_shape x n c_in ->
  exists z, Linear_forward st lin x = Ok z /\ is_vector (cells_mean z) c_out.
Proof.
  intros Hlin Hx.
  destruct (SCoNeNNFacts.Linear_forward_shape st lin x n c_in c_out Hlin Hx)
    as (t & Hz & Hsz & Hdz & _).
  exists (Mat t). split; [assumption|].
  apply (cells_mean_vector _ n). now split.
Qed.

Lemma for_each_invariant {A S} (P : S -> Prop) (call : A -> S -> outcome S) items :
  (forall a s, P s -> exists s', call a s = Ok s' /\ P s') ->
  forall s, P s -> exists h, for_each call items s = Ok h /\ P h.
Proof.
  intros Hcall. induction items as [|a items IH]; intros s Hs.
  - exists s. now split.
  - destruct (Hcall a s Hs) as (s' & Hs' & HP). cbn [for_each]. rewrite Hs'.
    cbn [obind]. now apply IH.
Qed.

(** X13: the forward passes of SCN2 and CAN return one vector of [num_classes]
    entries for the whole complex, whatever the numbers of its cells: the
    features of each rank go through a linear layer and are averaged over
    the cells, and the three means are added. *)
Theorem pooled_output_is_one_vector weights num_classes n_layers next self next'
    (st : store fl) c_0 c_1 c_2 n_0 n_1 n_2 x_0 x_1 x_2 :
  (forall name lin, In name ["lin_0"; "lin_1"; "lin_2"] ->
     getattr self name = Ok lin -> linear_initialised st lin) ->
  has_shape x_0 n_0 c_0 -> has_shape x_1 n_1 c_1 -> has_shape x_2 n_2 c_2 ->
  (SCN2_init weights c_0 c_1 c_2 num_classes n_layers next = Ok (self, next') ->
   forall (fwd : SCN2Layer_call) l0 l1 l2,
     (forall layer xs, shapes3 xs n_0 c_0 n_1 c_1 n_2 c_2 ->
        exists xs', fwd st layer xs l0 l1 l2 = Ok xs' /\
                    shapes3 xs' n_0 c_0 n_1 c_1 n_2 c_2) ->
     exists y, SCN2_forward fwd st self x_0 x_1 x_2 l0 l1 l2 = Ok y /\
               is_vector y num_classes) /\
  (forall att,
   CAN_init weights c_0 c_1 c_2 num_classes n_layers att next = Ok (self, next') ->
   forall (fwd : CANLayer_call) down_laplacian up_laplacian,
     (forall layer x, has_shape x n_1 c_1 ->
        exists x', fwd st layer x down_laplacian up_laplacian = Ok x' /\
                   has_shape x' n_1 c_1) ->
     exists y, CAN_forward fwd st self x_0 x_1 x_2 down_laplacian up_laplacian
               = Ok y /\
               is_vector y num_classes).
Proof.
  intros Hlin Hx0 Hx1 Hx2. split.
  - intros Hinit fwd l0 l1 l2 Hlayers.
    destruct (comprehension_Layer "SCN2Layer" weights
                [("in_channels_0", PyInt c_0); ("in_channels_1", PyInt c_1);
                 ("in_channels_2", PyInt c_2)] n_layers next)
      as (layers & Hc & _).
    unfold SCN2_init, SCN2Layer, cbind in Hinit. rewrite Hc in Hinit.
    pose proof (iter_ModuleList layers) as Hiter.
    unfold ModuleList in *. set (ms := enumerate layers) in *. clearbody ms.
    cbn -[iter] in Hinit. injection Hinit as <- <-.
    unfold SCN2_forward, layers_of.
    match goal with |- context [getattr ?s "layers"] =>
      change (getattr s "layers") with (Ok (Module_ "ModuleList" [] ms [])) end.
    cbn [obind]. rewrite Hiter. cbn [obind].
    destruct (for_each_invariant
                (fun xs => shapes3 xs n_0 c_0 n_1 c_1 n_2 c_2)
                (fun layer xs => fwd st layer xs l0 l1 l2) layers Hlayers
                (x_0, x_1, x_2)) as ([[h_0 h_1] h_2] & -> & Hh0 & Hh1 & Hh2).
    { cbn. auto. }
    cbn [obind]. unfold SCN2_head.
    destruct (getattr _ "lin_0") as [lin0|] eqn:G0; [|discriminate G0].
    destruct (getattr _ "lin_1") as [lin1|] eqn:G1; [|discriminate G1].
    destruct (getattr _ "lin_2") as [lin2|] eqn:G2; [|discriminate G2].
    pose proof (Hlin "lin_0" lin0 ltac:(cbn; auto) G0) as H0.
    pose proof (Hlin "lin_1" lin1 ltac:(cbn; auto) G1) as H1.
    pose proof (Hlin "lin_2" lin2 ltac:(cbn; auto) G2) as H2.
    cbn in G0, G1, G2. injection G0 as <-. injection G1 as <-. injection G2 as <-.
    apply linear_initialised_shape with (i := c_0) (o := num_classes) in H0;
      [|reflexivity|reflexivity].
    apply linear_initialised_shape with (i := c_1) (o := num_classes) in H1;
      [|reflexivity|reflexivity].
    apply linear_initialised_shape with (i := c_2) (o := num_classes) in H2;
      [|reflexivity|reflexivity].
    cbn [obind].
    destruct (pooled_vector_of st _ h_0 n_0 c_0 num_classes H0 Hh0) as (z0 & -> & V0).
    destruct (pooled_vector_of st _ h_1 n_1 c_1 num_classes H1 Hh1) as (z1 & -> & V1).
    destruct (pooled_vector_of st _ h_2 n_2 c_2 num_classes H2 Hh2) as (z2 & -> & V2).
    cbn [obind].
    destruct (tensor_add_vector _ _ _ V2 V1) as (s & -> & Vs). cbn [obind].
    apply tensor_add_vector; assumption.
  - intros att Hinit fwd down_laplacian up_laplacian Hlayers.
    destruct (comprehension_Layer "CANLayer" weights
                [("channels", PyInt c_1); ("att", PyBool att)] n_layers next)
      as (layers & Hc & _).
    unfold CAN_init, CANLayer, cbind in Hinit. rewrite Hc in Hinit.
    cbn in Hinit. injection Hinit as <- <-.
    unfold CAN_forward, layers_of.
    match goal with |- context [getattr ?s "layers"] =>
      change (getattr s "layers") with (Ok (PyList layers)) end.
    cbn [obind iter].
    destruct (for_each_invariant (fun x => has_shape x n_1 c_1)
                (fun layer x => fwd st layer x down_laplacian up_laplacian)
                layers Hlayers x_1 Hx1) as (h_1 & -> & Hh1).
    cbn [obind]. unfold CAN_head.
    destruct (getattr _ "lin_0") as [lin0|] eqn:G0; [|discriminate G0].
    destruct (getattr _ "lin_1") as [lin1|] eqn:G1; [|discriminate G1].
    destruct (getattr _ "lin_2") as [lin2|] eqn:G2; [|discriminate G2].
    pose proof (Hlin "lin_0" lin0 ltac:(cbn; auto) G0) as H0.
    pose proof (Hlin "lin_1" lin1 ltac:(cbn; auto) G1) as H1.
    pose proof (Hlin "lin_2" lin2 ltac:(cbn; auto) G2) as H2.
    cbn in G0, G1, G2. injection G0 as <-. injection G1 as <-. injection G2 as <-.
    apply linear_initialised_shape with (i := c_0) (o := num_classes) in H0;
      [|reflexivity|reflexivity].
    apply linear_initialised_shape with (i := c_1) (o := num_classes) in H1;
      [|reflexivity|reflexivity].
    apply linear_initialised_shape with (i := c_2) (o := num_classes) in H2;
      [|reflexivity|reflexivity].
    cbn [obind].
    destruct (pooled_vector_of st _ x_0 n_0 c_0 num_classes H0 Hx0) as (z0 & -> & V0).
    destruct (pooled_vector_of st _ h_1 n_1 c_1 num_classes H1 Hh1) as (z1 & -> & V1).
    destruct (pooled_vector_of st _ x_2 n_2 c_2 num_classes H2 Hx2) as (z2 & -> & V2).
    cbn [obind].
    destruct (tensor_add_vector _ _ _ V1 V0) as (s & -> & Vs). cbn [obind].
    apply tensor_add_vector; assumption.
Qed.

(** SCN2 on a complex with one node, one edge and no face. *)
Lemma pooled_output_witness :
  exists y,
    SCN2_forward Examples.scn2_layer Examples.scn2_store Examples.scn2_model
      (Examples.fl_one_by_one (Fin 1)) (Examples.fl_one_by_one (Fin 1))
      Examples.no_face
      (Examples.fl_one_by_one (Fin 1)) (Examples.fl_one_by_one (Fin 1))
      Examples.no_face = Ok y /\
    is_vector y 1.
Proof.
  refine (proj1 (pooled_output_is_one_vector ["weight"] 1 0 0
                   Examples.scn2_model 6 Examples.scn2_store 1 1 1 1 1 0
                   (Examples.fl_one_by_one (Fin 1))
                   (Examples.fl_one_by_one (Fin 1)) Examples.no_face
                   _ _ _ _) _ Examples.scn2_layer _ _ _ _).
  - intros name lin [<-|[<-|[<-|[]]]] G; vm_compute in G; injection G as <-;
      exists 1, 1; (split; [reflexivity|]); (split; [reflexivity|]);
      do 2 eexists; repeat split; try (vm_compute; reflexivity).
  - split; reflexivity.
  - split; reflexivity.
  - split; reflexivity.
  - vm_compute. reflexivity.
  - intros layer xs Hxs. exists xs. split; [reflexivity|assumption].
Defined.

(** ** The shape of the logits of HMPNN *)

Lemma length_mask_rows {F} `{Scalar F} (rows : list (list F)) :
  forall mask, length (mask_rows mask rows) = length rows.
Proof.
  induction rows as [|row rows IH]; intros mask; [reflexivity|].
  cbn [mask_rows length]. now rewrite IH.
Qed.

Lemma dropout_shape {F} `{Scalar F} (x : tensor F) g n c :
  has_shape x n c -> has_shape (fst (dropout x g)) n c.
Proof.
  destruct x as [v|t]; [contradiction|]. intros [Hs Hd].
  cbn [dropout bernoulli fst has_shape size data]. split; [assumption|].
  now rewrite length_mask_rows.
Qed.

Lemma layer_dropout_shape {F} `{Scalar F} training q (x : tensor F) g n c :
  has_shape x n c ->
  exists x' g', layer_dropout training (PyFloat q) x g = Ok (x', g') /\
                has_shape x' n c.
Proof.
  intros Hx. cbn [layer_dropout].
  destruct (training && negb (Qle_bool q 0)).
  - destruct (dropout x g) as [x' g'] eqn:Hd. do 2 eexists.
    split; [reflexivity|]. change x' with (fst (x', g')). rewrite <- Hd.
    now apply dropout_shape.
  - do 2 eexists. split; [reflexivity|assumption].
Qed.

Lemma layer_dropout_returns {F} `{Scalar F} training q (x : tensor F) g :
  exists x' g', layer_dropout training (PyFloat q) x g = Ok (x', g').
Proof.
  cbn [layer_dropout]. destruct (training && negb (Qle_bool q 0)).
  - destruct (dropout x g) as [x' g']. now do 2 eexists.
  - now do 2 eexists.
Qed.

(** The stack [to_hidden_linear] maps [hidden_features[s]] features to
    [hidden_features[s + k]] features. *)
Lemma hidden_linears_shape {F} `{Scalar F} (st : store F) (h : list nat) n d :
  forall k s linears x,
    Forall2 (fun i lin =>
               exists a b w,
                 nth_error h i = Some a /\ nth_error h (i + 1) = Some b /\
                 lin = Module_ "Linear" [("weight", w); ("bias", S w)] []
                         [("in_features", PyInt a); ("out_features", PyInt b)])
            (seq s k) linears ->
    (forall lin, In lin linears -> linear_initialised st lin) ->
    has_shape x n (nth s h d) ->
    exists z,
      for_each (fun l x => Linear_forward st l x) linears x = Ok z /\
      has_shape z n (nth (s + k) h d).
Proof.
  induction k as [|k IH]; intros s linears x Hall Hinit Hx.
  - inversion Hall; subst. exists x. rewrite Nat.add_0_r. now split.
  - cbn [seq] in Hall.
    inversion Hall as [|i lin idx rest (a & b & w & Ha & Hb & Hlin) Hrest]; subst.
    assert (Hshape : linear_has_shape st
              (Module_ "Linear" [("weight", w); ("bias", S w)] []
                 [("in_features", PyInt a); ("out_features", PyInt b)]) a b).
    { apply linear_initialised_shape; [reflexivity|reflexivity|].
      apply Hinit. now left. }
    rewrite (nth_error_nth _ _ d Ha) in Hx.
    destruct (SCoNeNNFacts.Linear_forward_shape st _ x n a b Hshape Hx)
      as (t & Hz & Hsz & Hdz & _).
    cbn [for_each]. rewrite Hz. cbn [obind].
    destruct (IH (S s) rest (Mat t)) as (z & Hfz & Hzs).
    + assumption.
    + intros l Hl. apply Hinit. now right.
    + rewrite Nat.add_1_r in Hb. rewrite (nth_error_nth _ _ d Hb). now split.
    + exists z. split; [assumption|].
      now replace (s + S k) with (S s + k) by lia.
Qed.

Lemma nth_last {A} (l : list A) d : nth (length l - 1) l d = last l d.
Proof.
  induction l as [|a l IH]; [reflexivity|]. destruct l as [|b l]; [reflexivity|].
  change (last (a :: b :: l) d) with (last (b :: l) d). rewrite <- IH.
  cbn [length]. replace (S (S (length l)) - 1) with (S (S (length l) - 1)) by lia.
  reflexivity.
Qed.

Lemma length_map_columns {F} (f : nat -> F -> F) rows :
  length (map_columns f rows) = length rows.
Proof. unfold map_columns. apply length_map. Qed.

(** The normalisation keeps the shape of a batch it accepts. *)
Lemma BatchNorm1d_shape {F} (messages : HMPNN_messages F) st layer name training
    b (x : tensor F) n c :
  has_shape x n c -> (training = true -> n <> 1) ->
  exists y b',
    BatchNorm1d_forward messages st layer name training b x = Ok (y, b') /\
    has_shape y n c.
Proof.
  destruct x as [v|t]; [contradiction|]. intros [Hs Hd] Hn.
  unfold BatchNorm1d_forward. destruct training.
  - rewrite Hs. cbn [fst]. destruct (Nat.eqb_spec n 1) as [-> | _].
    + now destruct (Hn eq_refl).
    + do 2 eexists. split; [reflexivity|].
      cbn [has_shape size data]. split; [reflexivity|].
      now rewrite length_map_columns.
  - do 2 eexists. split; [reflexivity|].
    cbn [has_shape size data]. split; [assumption|].
    now rewrite length_map_columns.
Qed.

(** In training mode the normalisation refuses a batch of a single row. *)
Lemma BatchNorm1d_single_row {F} (messages : HMPNN_messages F) st layer name
    b (x : tensor F) c :
  has_shape x 1 c ->
  BatchNorm1d_forward messages st layer name true b x
  = Raise (ValueError "Expected more than 1 value per channel when training").
Proof.
  destruct x as [v|t]; [contradiction|]. intros [Hs _].
  unfold BatchNorm1d_forward. now rewrite Hs.
Qed.

(** One layer of HMPNN keeps the shapes of the node and of the hyperedge
    features, with or without dropout, on batches its normalisations
    accept. *)
Lemma HMPNNLayer_forward_shape {F} `{Scalar F} (messages : HMPNN_messages F)
    (st : store F) training incidence_1 layer cls q_a q_u c n m x_0 x_1 g b :
  ctor_args layer
  = Ok (cls, [("in_channels", PyInt c); ("adjacency_dropout", PyFloat q_a);
              ("updating_dropout", PyFloat q_u)]) ->
  messages_return messages st ->
  (training = true -> n <> 1) -> (training = true -> m <> 1) ->
  has_shape x_0 n c -> has_shape x_1 m c ->
  exists y_0 y_1 g' b',
    HMPNNLayer_forward messages st layer training x_0 x_1 incidence_1 g b
    = Ok (y_0, y_1, g', b') /\
    has_shape y_0 n c /\ has_shape y_1 m c.
Proof.
  intros Hargs (Hn2h & Hh2n & Hupd) Hn Hm Hx0 Hx1.
  destruct layer as [| | | | |id|cls' ps ms d]; try discriminate.
  injection Hargs as -> ->.
  unfold HMPNNLayer_forward.
  change (getattr _ "adjacency_dropout") with (@Ok pyobj (PyFloat q_a)).
  change (getattr _ "updating_dropout") with (@Ok pyobj (PyFloat q_u)).
  cbn [obind].
  destruct (layer_dropout_returns training q_a incidence_1 g) as (i1 & g1 & ->).
  cbn [obind snd fst].
  match goal with |- context [node_to_hyperedge messages st ?l x_0 i1] =>
    destruct (Hn2h l x_0 i1) as (nm & ->) end.
  cbn [obind snd fst].
  destruct (layer_dropout_returns training q_a incidence_1 g1) as (i2 & g2 & ->).
  cbn [obind snd fst].
  match goal with |- context [hyperedge_to_node messages st ?l x_1 i2 ?r] =>
    destruct (Hh2n l x_1 i2 r) as (hm & ->) end.
  cbn [obind snd fst].
  match goal with |- context [BatchNorm1d_forward messages st ?l ?name training ?b0 x_0] =>
    destruct (BatchNorm1d_shape messages st l name training b0 x_0 n c Hx0 Hn)
      as (n0 & bn & -> & Hn0) end.
  cbn [obind snd fst].
  destruct (layer_dropout_shape training q_u n0 g2 n c Hn0) as (d0 & g3 & -> & Hd0).
  cbn [obind snd fst].
  destruct (Hupd d0 hm n c Hd0) as (y_0 & -> & Hy0).
  cbn [obind snd fst].
  match goal with |- context [BatchNorm1d_forward messages st ?l ?name training ?b0 x_1] =>
    destruct (BatchNorm1d_shape messages st l name training b0 x_1 m c Hx1 Hm)
      as (n1 & bh & -> & Hn1) end.
  cbn [obind snd fst].
  destruct (layer_dropout_shape training q_u n1 g3 m c Hn1) as (d1 & g4 & -> & Hd1).
  cbn [obind snd fst].
  destruct (Hupd d1 (fst nm) m c Hd1) as (y_1 & -> & Hy1).
  cbn [obind snd fst].
  do 4 eexists. split; [reflexivity|]. now split.
Qed.

(** In training mode a layer of HMPNN raises the error of its normalisations
    when there is a single node or a single hyperedge. *)
Lemma HMPNNLayer_forward_single_row {F} `{Scalar F} (messages : HMPNN_messages F)
    (st : store F) incidence_1 layer cls q_a q_u c n m x_0 x_1 g b :
  ctor_args layer
  = Ok (cls, [("in_channels", PyInt c); ("adjacency_dropout", PyFloat q_a);
              ("updating_dropout", PyFloat q_u)]) ->
  messages_return messages st ->
  has_shape x_0 n c -> has_shape x_1 m c ->
  n = 1 \/ m = 1 ->
  HMPNNLayer_forward messages st layer true x_0 x_1 incidence_1 g b
  = Raise (ValueError "Expected more than 1 value per channel when training").
Proof.
  intros Hargs (Hn2h & Hh2n & Hupd) Hx0 Hx1 Hone.
  destruct layer as [| | | | |id|cls' ps ms d]; try discriminate.
  injection Hargs as -> ->.
  unfold HMPNNLayer_forward.
  change (getattr _ "adjacency_dropout") with (@Ok pyobj (PyFloat q_a)).
  change (getattr _ "updating_dropout") with (@Ok pyobj (PyFloat q_u)).
  cbn [obind].
  destruct (layer_dropout_returns true q_a incidence_1 g) as (i1 & g1 & ->).
  cbn [obind snd fst].
  match goal with |- context [node_to_hyperedge messages st ?l x_0 i1] =>
    destruct (Hn2h l x_0 i1) as (nm & ->) end.
  cbn [obind snd fst].
  destruct (layer_dropout_returns true q_a incidence_1 g1) as (i2 & g2 & ->).
  cbn [obind snd fst].
  match goal with |- context [hyperedge_to_node messages st ?l x_1 i2 ?r] =>
    destruct (Hh2n l x_1 i2 r) as (hm & ->) end.
  cbn [obind snd fst].
  destruct (Nat.eq_dec n 1) as [-> | Hn].
  { now rewrite (BatchNorm1d_single_row messages st _ _ _ x_0 c Hx0). }
  destruct Hone as [Hone | ->]; [contradiction|].
  match goal with |- context [BatchNorm1d_forward messages st ?l ?name true ?b0 x_0] =>
    destruct (BatchNorm1d_shape messages st l name true b0 x_0 n c Hx0
                (fun _ => Hn))
      as (n0 & bn & -> & Hn0) end.
  cbn [obind snd fst].
  destruct (layer_dropout_shape true q_u n0 g2 n c Hn0) as (d0 & g3 & -> & Hd0).
  cbn [obind snd fst].
  destruct (Hupd d0 hm n c Hd0) as (y_0 & -> & Hy0).
  cbn [obind snd fst].
  now rewrite (BatchNorm1d_single_row messages st _ _ _ x_1 c Hx1).
Qed.

(** The loop over the layers keeps the shapes, on batches the normalisations
    accept and from a runtime state that has the buffers of the layers. *)
Lemma for_each_HMPNN_shape {F} `{Scalar F} (messages : HMPNN_messages F)
    (st : store F) training incidence_1 cls q_a q_u c n m layers :
  Forall (fun layer =>
            ctor_args layer
            = Ok (cls, [("in_channels", PyInt c);
                        ("adjacency_dropout", PyFloat q_a);
                        ("updating_dropout", PyFloat q_u)])) layers ->
  messages_return messages st ->
  (training = true -> n <> 1) -> (training = true -> m <> 1) ->
  forall x_0 x_1 rt,
    has_shape x_0 n c -> has_shape x_1 m c ->
    position rt + length layers <= length (buffers rt) ->
    exists y_0 y_1 rt',
      for_each (HMPNN_call messages st training incidence_1) layers (x_0, x_1, rt)
      = Ok (y_0, y_1, rt') /\
      has_shape y_0 n c /\ has_shape y_1 m c.
Proof.
  intros Hargs Hmsg Hn Hm.
  induction Hargs as [|layer layers Hlayer _ IH]; intros x_0 x_1 rt Hx0 Hx1 Hpos.
  - exists x_0, x_1, rt. now repeat split.
  - cbn [for_each HMPNN_call]. cbn [length] in Hpos.
    destruct (buffers rt !! position rt) as [b|] eqn:Hb.
    2:{ apply lookup_ge_None in Hb. lia. }
    destruct (HMPNNLayer_forward_shape messages st training incidence_1 layer cls
                q_a q_u c n m x_0 x_1 (rng rt) b Hlayer Hmsg Hn Hm Hx0 Hx1)
      as (y_0 & y_1 & g' & b' & -> & Hy0 & Hy1).
    cbn [obind]. apply IH; [assumption|assumption|].
    cbn [position buffers]. rewrite length_insert. lia.
Qed.

(** X14: [HMPNN.forward] returns logits of shape [[n_nodes, num_classes]], in
    evaluation mode on every input and in training mode when there are at
    least two nodes and at least two hyperedges: the linear layers of
    [to_hidden_linear] take the features from [in_features] to the last hidden
    width, the message passing layers keep that width, and
    [to_categories_linear] maps it to the classes.  In training mode with a
    single node or a single hyperedge, a model of at least one layer raises
    the [ValueError] of the normalisation of its first layer. *)
Theorem HMPNN_returns_logits {F} `{Scalar F} weights in_features hidden_features
    num_classes n_layer adjacency_dropout_rate regular_dropout_rate next
    self next' (messages : HMPNN_messages F) (st : store F) n m
    x_0 x_1 incidence_1 :
  HMPNN_init weights in_features hidden_features num_classes n_layer
             adjacency_dropout_rate regular_dropout_rate next
  = Ok (self, next') ->
  (forall hid linears lin,
     getattr self "to_hidden_linear" = Ok hid -> iter hid = Ok linears ->
     In lin linears -> linear_initialised st lin) ->
  (forall lin, getattr self "to_categories_linear" = Ok lin ->
     linear_initialised st lin) ->
  messages_return messages st ->
  has_shape x_0 n in_features -> has_shape x_1 m in_features ->
  forall training rt,
    fresh rt self ->
    (normalisable training n -> normalisable training m ->
     exists y rt',
       HMPNN_forward messages st self training x_0 x_1 incidence_1 rt
       = Ok (y, rt') /\
       has_shape y n num_classes) /\
    (training = true -> 0 < n_layer -> n = 1 \/ m = 1 ->
     HMPNN_forward messages st self training x_0 x_1 incidence_1 rt
     = Raise (ValueError "Expected more than 1 value per channel when training")).
Proof.
  intros Hinit Hhid Hcat Hmsg Hx0 Hx1 training rt (Hpos & layers0 & Hl0 & Hlen0).
  set (h := in_features :: hidden_features) in *.
  destruct (hidden_linears h (seq 0 (length h - 1)) next)
    as (linears & Hlin & _ & Hall).
  { intros i Hi. apply in_seq in Hi. lia. }
  destruct (comprehension_Layer "HMPNNLayer" weights
              [("in_channels", PyInt (last h in_features));
               ("adjacency_dropout", PyFloat adjacency_dropout_rate);
               ("updating_dropout", PyFloat regular_dropout_rate)]
              n_layer (next + 2 * length (seq 0 (length h - 1))))
    as (layers & Hc & Hnl & _ & Hargs).
  unfold HMPNN_init, HMPNNLayer in Hinit. fold h in Hinit.
  unfold cbind at 1 in Hinit. rewrite Hlin in Hinit.
  unfold cbind at 1 in Hinit. rewrite Hc in Hinit.
  pose proof (iter_ModuleList layers) as Hil.
  pose proof (iter_Sequential linears) as Hiq.
  unfold ModuleList, Sequential in *.
  set (ms := enumerate layers) in *. clearbody ms.
  set (ls := enumerate linears) in *. clearbody ls.
  cbn -[last iter] in Hinit. injection Hinit as <- <-.
  assert (Hinit_lin : forall lin, In lin linears -> linear_initialised st lin).
  { intros lin Hin. eapply Hhid; [reflexivity|exact Hiq|exact Hin]. }
  assert (Hhidden : forall x k, has_shape x k in_features ->
            exists z, Sequential_forward st (Module_ "Sequential" [] ls []) x = Ok z /\
                      has_shape z k (last h in_features)).
  { intros x k Hx. unfold Sequential_forward. rewrite Hiq. cbn [obind].
    destruct (hidden_linears_shape st h k in_features (length h - 1) 0 linears x
                Hall Hinit_lin Hx) as (z & Hz & Hzs).
    exists z. split; [assumption|].
    cbn [Nat.add] in Hzs. now rewrite nth_last in Hzs. }
  assert (Hlayers : layers0 = layers).
  { unfold layers_of in Hl0.
    match type of Hl0 with context [getattr ?s "layers"] =>
      change (getattr s "layers") with (Ok (Module_ "ModuleList" [] ms []))
        in Hl0 end.
    cbn [obind] in Hl0. rewrite Hil in Hl0. now injection Hl0. }
  subst layers0.
  unfold HMPNN_forward.
  match goal with |- context [getattr ?s "to_hidden_linear"] =>
    change (getattr s "to_hidden_linear")
      with (Ok (Module_ "Sequential" [] ls [])) end.
  cbn [obind].
  destruct (Hhidden x_0 n Hx0) as (h_0 & -> & Hh0). cbn [obind].
  destruct (Hhidden x_1 m Hx1) as (h_1 & -> & Hh1). cbn [obind].
  unfold layers_of.
  match goal with |- context [getattr ?s "layers"] =>
    change (getattr s "layers") with (Ok (Module_ "ModuleList" [] ms [])) end.
  cbn [obind]. rewrite Hil. cbn [obind].
  split.
  - intros Hn Hm.
    assert (Hn1 : training = true -> n <> 1).
    { intros Ht. specialize (Hn Ht). lia. }
    assert (Hm1 : training = true -> m <> 1).
    { intros Ht. specialize (Hm Ht). lia. }
    destruct (for_each_HMPNN_shape messages st training incidence_1 _ _ _
                (last h in_features) n m layers Hargs Hmsg Hn1 Hm1 h_0 h_1 rt
                Hh0 Hh1) as (y_0 & y_1 & rt' & -> & Hy0 & _).
    { rewrite Hpos, Hlen0. lia. }
    cbn [obind fst snd] in *. unfold HMPNN_head.
    destruct (getattr _ "to_categories_linear") as [lin|] eqn:G; [|discriminate G].
    pose proof (Hcat lin eq_refl) as Hl. cbn -[last] in G. injection G as <-.
    apply linear_initialised_shape with (i := last h in_features) (o := num_classes)
      in Hl; [|reflexivity|reflexivity].
    cbn [obind].
    destruct (SCoNeNNFacts.Linear_forward_shape st _ y_0 n _ num_classes Hl Hy0)
      as (t & -> & Hst & Hdt & _).
    cbn [obind]. do 2 eexists. split; [reflexivity|]. now split.
  - intros -> Hpositive Hone.
    destruct layers as [|layer layers]; [cbn in Hnl; lia|].
    cbn [for_each HMPNN_call].
    destruct (buffers rt !! position rt) as [b|] eqn:Hb.
    2:{ apply lookup_ge_None in Hb. cbn [length] in Hlen0. lia. }
    inversion Hargs as [|? ? Hlayer _]; subst.
    now rewrite (HMPNNLayer_forward_single_row messages st incidence_1 layer _ _ _
                   _ n m h_0 h_1 (rng rt) b Hlayer Hmsg Hh0 Hh1 Hone).
Qed.

(** HMPNN with one layer and no hidden width, in training mode on two nodes
    and two hyperedges. *)
Lemma HMPNN_returns_logits_witness :
  exists y rt',
    HMPNN_forward Examples.messages_identity Examples.hmpnn_1_store
      Examples.hmpnn_1_model true Examples.two_nodes Examples.two_hyperedges
      Examples.two_by_two (Runtime Examples.every_other [Examples.initial_buffers] 0)
    = Ok (y, rt') /\
    has_shape y 2 1.
Proof.
  refine (proj1 (HMPNN_returns_logits ["weight"] 1 [] 1 1 0.7%Q 0.5%Q 0
            Examples.hmpnn_1_model 3 Examples.messages_identity
            Examples.hmpnn_1_store 2 2 Examples.two_nodes
            Examples.two_hyperedges Examples.two_by_two
            _ _ _ _ _ _ true
            (Runtime Examples.every_other [Examples.initial_buffers] 0) _) _ _).
  - vm_compute. reflexivity.
  - intros hid linears lin G Hiter Hin. vm_compute in G. injection G as <-.
    vm_compute in Hiter. injection Hiter as <-. contradiction.
  - intros lin G. vm_compute in G. injection G as <-.
    exists 1, 1. split; [reflexivity|]. split; [reflexivity|].
    do 2 eexists. repeat split; try (vm_compute; reflexivity).
  - repeat split.
    + intros layer x_0 inc. eexists. reflexivity.
    + intros layer x_1 inc msgs. eexists. reflexivity.
    + intros x received n c Hx. exists x. now split.
  - split; reflexivity.
  - split; reflexivity.
  - split; [reflexivity|]. eexists. split; [vm_compute; reflexivity|reflexivity].
  - intros _. apply le_n.
  - intros _. apply le_n.
Defined.

End RegistrationFacts.

(* ===================================================================== *)
(** * Test losses in a trace *)

Module TracesFacts.
Import Notebook Traces NotebookFacts.

Section Loops.
Context {Data Model Sample : Type} (lib : library Data Model Sample).

Lemma printed_tests_app t t' :
  printed_tests (t ++ t') = printed_tests t ++ printed_tests t'.
Proof. unfold printed_tests. apply flat_map_app. Qed.

(** The test pass keeps the loss of the sample it evaluated last. *)
Lemma test_pass_last epoch model :
  forall earlier last idx test_loss,
    Forall (fun x => exists v, evaluate lib model x = Ok v) (earlier ++ [last]) ->
    exists v tr,
      evaluate lib model last = Ok v /\
      test_pass lib epoch (earlier ++ [last]) idx model test_loss
      = (tr, Ok (Some v)) /\
      calls tr = map (Test epoch) (seq idx (length earlier + 1)) /\
      printed_tests tr = [].
Proof.
  induction earlier as [|x earlier IH]; intros last idx test_loss Hall.
  - inversion Hall as [|? ? (v & Hv) _]; subst. exists v. eexists.
    split; [assumption|]. cbn [app test_pass]. rewrite Hv. cbn.
    split; [reflexivity|]. split; reflexivity.
  - inversion Hall as [|? ? (w & Hw) Hrest]; subst.
    destruct (IH last (S idx) (Some w) Hrest) as (v & tr & Hv & Ht & Hc & Hp).
    exists v. eexists. split; [assumption|].
    cbn [app test_pass]. rewrite Hw. cbn [call_lib bind]. rewrite Ht.
    split; [reflexivity|]. split.
    + cbn [app calls flat_map length Nat.add seq map]. f_equal. exact Hc.
    + exact Hp.
Qed.

Lemma train_pass_returns (Hsteps : steps_return lib) epoch samples :
  forall idx model epoch_loss, exists tr model' losses,
    train_pass lib epoch samples idx model epoch_loss
    = (tr, Ok (model', losses)) /\
    reported_losses tr = [] /\ printed_tests tr = [].
Proof.
  induction samples as [|x rest IH]; intros idx model epoch_loss.
  - do 3 eexists. split; [reflexivity|]. split; reflexivity.
  - destruct (Hsteps model x) as ([loss model1] & Hr).
    destruct (IH (S idx) model1 (epoch_loss ++ [loss]))
      as (tr & model' & losses & Ht & Hrep & Hpr).
    do 3 eexists. cbn [train_pass]. rewrite Hr.
    cbn [call_lib bind emit fst snd]. rewrite Ht. split; [reflexivity|].
    split; [exact Hrep|exact Hpr].
Qed.

(** Up to the first tested epoch, a loop without test samples reports one
    loss per epoch; at that epoch it stops, [test_loss] not being bound. *)
Lemma epochs_without_test (Hsteps : steps_return lib) test_interval train :
  forall k first count model,
    0 < first -> first + k = test_interval -> k < count ->
    exists tr,
      epochs lib test_interval (seq first count) train [] model None
      = (tr, Raise (NameError "test_loss")) /\
      length (reported_losses tr) = S k /\
      printed_tests tr = [].
Proof.
  induction k as [|k IH]; intros first count model Hfirst Hsum Hcount.
  - destruct count as [|count]; [lia|]. cbn [seq epochs].
    destruct (train_pass_returns Hsteps first train 0 model [])
      as (tr & model' & losses & -> & Hrep & Hpr).
    cbn [bind emit fst snd]. unfold maybe_test.
    destruct (test_interval =? 0) eqn:Hz; [apply Nat.eqb_eq in Hz; lia|].
    replace first with test_interval by lia. rewrite Nat.Div0.mod_same.
    cbn [Nat.eqb test_pass ret bind raise app].
    eexists. split; [reflexivity|].
    unfold reported_losses, printed_tests in *.
    rewrite !flat_map_app, Hrep, Hpr. split; reflexivity.
  - destruct count as [|count]; [lia|]. cbn [seq epochs].
    destruct (train_pass_returns Hsteps first train 0 model [])
      as (tr & model' & losses & -> & Hrep & Hpr).
    cbn [bind emit fst snd]. unfold maybe_test.
    destruct (test_interval =? 0) eqn:Hz; [apply Nat.eqb_eq in Hz; lia|].
    rewrite Nat.mod_small by lia.
    destruct (first =? 0) eqn:Hf; [apply Nat.eqb_eq in Hf; lia|].
    cbn [ret bind app].
    destruct (IH (S first) count model') as (tr' & -> & Hrep' & Hpr'); try lia.
    eexists. split; [reflexivity|].
    unfold reported_losses, printed_tests in *.
    rewrite !flat_map_app, Hrep, Hpr. cbn [flat_map app]. rewrite ?app_nil_r.
    split; [cbn; lia|assumption].
Qed.

End Loops.

(** X9: the test loss a loop prints is the loss of the last test sample alone:
    every test sample is evaluated, each value replaces the one before it,
    and the value left after the loop is printed. *)
Theorem printed_test_loss_is_of_last_sample {Data Model Sample}
    (lib : library Data Model Sample) test_interval epoch earlier last model
    test_loss :
  test_interval <> 0 -> epoch mod test_interval = 0 ->
  Forall (fun x => exists v, evaluate lib model x = Ok v) (earlier ++ [last]) ->
  exists v tr,
    evaluate lib model last = Ok v /\
    maybe_test lib test_interval epoch (earlier ++ [last]) model test_loss
    = (tr, Ok (Some v)) /\
    calls tr = map (Test epoch) (seq 0 (length earlier + 1)) /\
    printed_tests tr = [(epoch, v)].
Proof.
  intros Hti Hmod Hall.
  destruct (test_pass_last lib epoch model earlier last 0 test_loss Hall)
    as (v & tr & Hv & Ht & Hc & Hp).
  exists v. eexists. split; [assumption|]. unfold maybe_test.
  destruct (test_interval =? 0) eqn:Hz; [apply Nat.eqb_eq in Hz; contradiction|].
  rewrite Hmod. cbn [Nat.eqb]. rewrite Ht. cbn [bind emit ret fst snd app].
  split; [reflexivity|]. split.
  - unfold calls in *. rewrite !flat_map_app, Hc. cbn. now rewrite app_nil_r.
  - rewrite !printed_tests_app, Hp. reflexivity.
Qed.

(** Libraries whose calls all return, and two test samples. *)
Lemma printed_test_loss_witness :
  exists v tr,
    evaluate Examples.returning tt tt = Ok v /\
    maybe_test Examples.returning 2 4 ([tt] ++ [tt]) tt None = (tr, Ok (Some v)) /\
    calls tr = map (Test 4) (seq 0 2) /\
    printed_tests tr = [(4, v)].
Proof.
  apply (printed_test_loss_is_of_last_sample Examples.returning 2 4 [tt] tt tt None).
  - discriminate.
  - reflexivity.
  - repeat constructor; now exists 0%Q.
Defined.

(** X10: a training loop that is given no test sample stops at its first tested
    epoch with [NameError]: [test_loss] is bound in the test loop only.  It
    has reported the losses of the epochs up to that one, and no test
    loss. *)
Theorem no_test_sample_is_a_name_error {Data Model Sample}
    (lib : library Data Model Sample) test_interval num_epochs train model :
  steps_return lib ->
  0 < test_interval -> test_interval <= num_epochs ->
  exists tr,
    training_loop lib test_interval num_epochs train [] model
    = (tr, Raise (NameError "test_loss")) /\
    length (reported_losses tr) = test_interval /\
    printed_tests tr = [].
Proof.
  intros Hsteps Hpos Hle. unfold training_loop.
  destruct (epochs_without_test lib Hsteps test_interval train
              (test_interval - 1) 1 num_epochs model) as (tr & Ht & Hrep & Hpr);
    try lia.
  exists tr. split; [assumption|]. split; [lia|assumption].
Qed.

(** The loop of the SCN2 notebook on two training samples and no test
    sample. *)
Lemma no_test_sample_witness :
  exists tr,
    training_loop Examples.returning 2 8 [tt; tt] [] tt
    = (tr, Raise (NameError "test_loss")) /\
    length (reported_losses tr) = 2 /\
    printed_tests tr = [].
Proof.
  apply (no_test_sample_is_a_name_error Examples.returning 2 8 [tt; tt] tt).
  - intros model x. now exists (0%Q, tt).
  - lia.
  - lia.
Defined.

End TracesFacts.
